(** * Mister Skinnylegs: orchestrator, report writer and Google Drive plugin

    A shallow embedding of [mister-skinnylegs.py] and of
    [plugins/google_drive_plugin.py].  What the program mutates (the file
    system, the console, the clock, the profile handles) lives in an
    explicit [World] threaded through a state-and-exception monad; what it
    calls but does not define ([re], [json], [datetime.now],
    [ccl_chromium_reader], [util.fs_utils], [util.artifact_utils]'s storage)
    is a variable of the Section that holds the program and its properties.
    The module [Scenario] at the end fixes these variables and runs the
    program on small disks and catalogs. *)

From Stdlib Require Import Ascii.
From stdpp Require Import gmap strings list pretty sorting.

(** ** Exceptions and the state-and-exception monad *)

(** The exceptions that the program meets.  All of them are instances of
    [Exception], and none is [StopIteration]: [SystemExit] and
    [KeyboardInterrupt], which stop the event loop, and [StopIteration],
    which a coroutine turns into [RuntimeError], are outside the model. *)
Inductive Exn :=
| NotADirectoryError
| FileExistsError
| FileNotFoundError
| TypeError
| KeyError
| IndexError
| AttributeError
| ValueError
| OverflowError
| DuplicateArtifactName
| UnknownArtifact
| PluginException (msg : string).

Inductive Exc (A : Type) :=
| Ok (a : A)
| Raise (e : Exn).
Arguments Ok {A} a.
Arguments Raise {A} e.

Definition is_ok {A} (r : Exc A) : bool :=
  match r with Ok _ => true | Raise _ => false end.

(** A computation over a mutable state [S] that returns or raises. *)
Definition ST (S A : Type) : Type := S -> S * Exc A.

Definition ret {S A} (a : A) : ST S A := fun s => (s, Ok a).
Definition raise {S A} (e : Exn) : ST S A := fun s => (s, Raise e).
Definition bind {S A B} (m : ST S A) (k : A -> ST S B) : ST S B :=
  fun s => match m s with
           | (s', Ok a) => k a s'
           | (s', Raise e) => (s', Raise e)
           end.
Definition lift_exc {S A} (r : Exc A) : ST S A := fun s => (s, r).
Definition modify {S} (f : S -> S) : ST S unit := fun s => (f s, Ok tt).
Definition gets {S A} (f : S -> A) : ST S A := fun s => (s, Ok (f s)).

Notation "'let!' x ':=' m 'in' k" := (bind m (fun x => k))
  (at level 10, x name, m at level 100, k at level 200, only parsing).
Notation "m >>> k" := (bind m (fun _ => k))
  (at level 100, k at level 200, right associativity, only parsing).

(** [for x in xs: body x]; the first exception ends the loop. *)
Fixpoint for_each {S A} (xs : list A) (body : A -> ST S unit) : ST S unit :=
  match xs with
  | [] => ret tt
  | x :: xs' => body x >>> for_each xs' body
  end.

(** [try: body finally: cleanup], the shape of a [with] block whose
    [__exit__] does not swallow the exception. *)
Definition finally {S A} (body : ST S A) (cleanup : S -> S) : ST S A :=
  fun s => let '(s', r) := body s in (cleanup s', r).

(** ** Python values and artifact results *)

(** Scalars that appear in result records.  A naive [datetime] is its number
    of microseconds since 1970-01-01. *)
Inductive PyVal :=
| VNone
| VInt (z : Z)
| VStr (s : string)
| VDatetime (us : Z).

(** A [dict] with string keys, in insertion order. *)
Definition PyDict : Type := list (string * PyVal).

(** [d[k]] *)
Fixpoint getitem (d : PyDict) (k : string) : Exc PyVal :=
  match d with
  | [] => Raise KeyError
  | (k', v) :: d' => if String.eqb k' k then Ok v else getitem d' k
  end.

(** [a < b]; values of different types do not compare. *)
Definition py_lt (a b : PyVal) : Exc bool :=
  match a, b with
  | VInt x, VInt y => Ok (x <? y)%Z
  | VDatetime x, VDatetime y => Ok (x <? y)%Z
  | VStr x, VStr y => Ok (bool_decide (String.compare x y = Lt))
  | _, _ => Raise TypeError
  end.

Module ArtifactResult.
Record t := mk { result : list PyDict }.
End ArtifactResult.
Abbreviation ArtifactResult := ArtifactResult.t.

(** ** Paths and the file system *)

(** An absolute path, as [pathlib] resolves it: the root, or a parent and
    the name of an entry in it. *)
Inductive Path :=
| Root
| Child (parent : Path) (name : string).

(** [p / name] *)
Notation "p // s" := (Child p s) (at level 40, left associativity).

Definition parent (p : Path) : Path :=
  match p with Root => Root | Child q _ => q end.

Fixpoint path_parts (p : Path) : list string :=
  match p with Root => [] | Child q s => s :: path_parts q end.
Fixpoint path_of_parts (l : list string) : Path :=
  match l with [] => Root | s :: l' => Child (path_of_parts l') s end.

Lemma path_of_parts_parts p : path_of_parts (path_parts p) = p.
Proof. induction p; simpl; congruence. Qed.

#[global] Instance Path_eq_dec : EqDecision Path.
Proof. solve_decision. Defined.
#[global] Instance Path_countable : Countable Path :=
  inj_countable' path_parts path_of_parts path_of_parts_parts.

(** A path and the folders above it. *)
Fixpoint lineage (p : Path) : list Path :=
  p :: match p with Root => [] | Child q _ => lineage q end.

Fixpoint depth (p : Path) : nat :=
  match p with Root => 0 | Child q _ => S (depth q) end.

(** [str(p)] *)
Fixpoint path_str (p : Path) : string :=
  match p with
  | Root => "/"
  | Child q s =>
      match q with
      | Root => "/" +:+ s
      | Child _ _ => path_str q +:+ "/" +:+ s
      end
  end.

Inductive Node :=
| Dir
| File (content : string).

Definition is_file (n : option Node) : bool :=
  match n with Some (File _) => true | _ => false end.

Abbreviation FS := (gmap Path Node).

Definition path_exists (fs : FS) (p : Path) : bool :=
  match fs !! p with Some _ => true | None => false end.

Definition path_is_dir (fs : FS) (p : Path) : bool :=
  match fs !! p with Some Dir => true | _ => false end.

(** The entry at [p] as a folder to go through: it has to be there, and to
    be a directory. *)
Definition entry_dir (fs : FS) (p : Path) : Exc unit :=
  match fs !! p with
  | Some Dir => Ok tt
  | Some (File _) => Raise NotADirectoryError
  | None => Raise FileNotFoundError
  end.

(** The way from the root down to the folder [p], as the kernel goes it:
    the first entry on the way that is missing stops it with ENOENT, the
    first that is a file with ENOTDIR. *)
Fixpoint walk (fs : FS) (p : Path) : Exc unit :=
  match p with
  | Root => entry_dir fs Root
  | Child q _ =>
      match walk fs q with
      | Ok _ => entry_dir fs p
      | Raise e => Raise e
      end
  end.

(** [os.mkdir(p)]: EEXIST where an entry stands at [p], else the error of
    the way to the folder of [p], else the new directory.  (An entry at [p]
    is looked for first; where every entry lies in a directory it has its
    ancestors, and the order does not show.) *)
Definition os_mkdir (fs : FS) (p : Path) : Exc FS :=
  match fs !! p with
  | Some _ => Raise FileExistsError
  | None =>
      match walk fs (parent p) with
      | Ok _ => Ok (<[p := Dir]> fs)
      | Raise e => Raise e
      end
  end.

(** [Path.mkdir(parents=False, exist_ok)]: a [FileNotFoundError] of
    [os.mkdir] is re-raised; any other [OSError] is re-raised unless
    [exist_ok] and the path is a directory. *)
Definition mkdir_here (exist_ok : bool) (fs : FS) (p : Path) : Exc FS :=
  match os_mkdir fs p with
  | Ok fs' => Ok fs'
  | Raise FileNotFoundError => Raise FileNotFoundError
  | Raise e => if exist_ok && path_is_dir fs p then Ok fs else Raise e
  end.

(** [Path.mkdir(parents, exist_ok)], following pathlib: try [os.mkdir]; on
    [FileNotFoundError] with [parents] (and a parent other than the path
    itself) create the parent with [parents=True, exist_ok=True] and retry
    without [parents]. *)
Fixpoint path_mkdir (parents exist_ok : bool) (fs : FS) (p : Path) : Exc FS :=
  match os_mkdir fs p with
  | Ok fs' => Ok fs'
  | Raise FileNotFoundError =>
      if parents then
        match p with
        | Root => Raise FileNotFoundError
        | Child q _ =>
            match path_mkdir true true fs q with
            | Ok fs1 => mkdir_here exist_ok fs1 p
            | Raise e => Raise e
            end
        end
      else Raise FileNotFoundError
  | Raise e => if exist_ok && path_is_dir fs p then Ok fs else Raise e
  end.

(** [p.open("xt")]: exclusive creation of an empty text file, with the
    errors of [os.mkdir]. *)
Definition open_xt (fs : FS) (p : Path) : Exc FS :=
  match fs !! p with
  | Some _ => Raise FileExistsError
  | None =>
      match walk fs (parent p) with
      | Ok _ => Ok (<[p := File ""]> fs)
      | Raise e => Raise e
      end
  end.

(** [f.write(text)] on the file opened at [p]. *)
Definition file_write (fs : FS) (p : Path) (text : string) : FS :=
  match fs !! p with
  | Some (File c) => <[p := File (c +:+ text)]> fs
  | _ => fs
  end.

(** ** Strings *)

Definition TAB : string := String "009"%char "".
Definition NL : string := String "010"%char "".

(** [message.replace('\n', '\n\t')] *)
Fixpoint indent_newlines (s : string) : string :=
  match s with
  | EmptyString => EmptyString
  | String c s' =>
      if Ascii.eqb c "010"%char
      then String "010"%char (String "009"%char (indent_newlines s'))
      else String c (indent_newlines s')
  end.

(** [s.rsplit(sep, 1)[0]] is [s] itself when [sep] does not occur in [s] and
    otherwise what stands before the last occurrence of [sep];
    [rsplit_head sep s] is [Some] of the latter. *)
Fixpoint rsplit_head (sep s : string) : option string :=
  match s with
  | EmptyString => None
  | String c s' =>
      match rsplit_head sep s' with
      | Some h => Some (String c h)
      | None => if String.prefix sep s then Some EmptyString else None
      end
  end.

Definition rsplit1_first (sep s : string) : string :=
  default s (rsplit_head sep s).

(** [s.rstrip(c)] for a single character [c]. *)
Fixpoint rstrip (c : ascii) (s : string) : string :=
  match s with
  | EmptyString => EmptyString
  | String a s' =>
      match rstrip c s' with
      | EmptyString => if Ascii.eqb a c then EmptyString else String a EmptyString
      | t => String a t
      end
  end.

(** ** Paths made with [/]

    [p / s] for a string [s], as pathlib parses it on a POSIX system: the
    parts of [s] between its separators are joined to [p], but for the
    empty parts and the parts ["."]; a part [".."] is kept as it is; and
    an [s] that starts with a separator is a path from the root, which
    takes the place of [p]. *)

(** [s.split("/")] *)
Fixpoint split_sep (s : string) : list string :=
  match s with
  | EmptyString => [EmptyString]
  | String c s' =>
      if Ascii.eqb c "/"%char then EmptyString :: split_sep s'
      else match split_sep s' with
           | part :: rest => String c part :: rest
           | [] => [String c EmptyString]
           end
  end.

Definition path_segments (s : string) : list string :=
  filter (fun part => part ≠ "" ∧ part ≠ ".") (split_sep s).

(** [s.startswith("/")] *)
Definition is_absolute (s : string) : bool :=
  match s with
  | String c _ => Ascii.eqb c "/"%char
  | EmptyString => false
  end.

(** A path made by joining: the path it started from, which the model takes
    as resolved, and the parts joined to it since. *)
Record PurePath := {
  anchor : Path;
  joined : list string }.

Definition pure_path (p : Path) : PurePath := {| anchor := p; joined := [] |}.

Definition joinpath (p : PurePath) (s : string) : PurePath :=
  if is_absolute s then {| anchor := Root; joined := path_segments s |}
  else {| anchor := anchor p; joined := joined p ++ path_segments s |}.

(** The path as pathlib holds and prints it, [".."] parts and all. *)
Definition as_path (p : PurePath) : Path := foldl Child (anchor p) (joined p).

(** Where the kernel gets by following the parts from the folder [d]: a
    part [".."] leads from the folder reached so far, which has to be
    there, to the folder above it; any other part names an entry of the
    folder reached so far. *)
Fixpoint follow (fs : FS) (d : Path) (parts : list string) : Exc Path :=
  match parts with
  | [] => Ok d
  | part :: rest =>
      if String.eqb part ".." then
        match walk fs d with
        | Ok _ => follow fs (parent d) rest
        | Raise e => Raise e
        end
      else follow fs (d // part) rest
  end.

Fixpoint has_nul (s : string) : bool :=
  match s with
  | EmptyString => false
  | String c s' => Ascii.eqb c "000"%char || has_nul s'
  end.

(** The entry that a joined path names to the file-system calls: a path
    with a NUL character in a joined part is refused with ValueError, and
    else its parts are followed.  The file system holds its entries under
    resolved paths, whose names are names of one entry; should it hold an
    entry under the very path asked for, that entry is the one named (on
    a file system of resolved paths this agrees with following the parts,
    see [locate_canonical]). *)
Definition locate (fs : FS) (p : PurePath) : Exc Path :=
  match fs !! as_path p with
  | Some _ => Ok (as_path p)
  | None =>
      if existsb has_nul (joined p) then Raise ValueError
      else follow fs (anchor p) (joined p)
  end.

(** A string that is the name of one entry: not empty, not ["."] or
    [".."], without separator or NUL. *)
Fixpoint no_separator (s : string) : bool :=
  match s with
  | EmptyString => true
  | String c s' =>
      negb (Ascii.eqb c "/"%char) && negb (Ascii.eqb c "000"%char) && no_separator s'
  end.

Definition plain_name (s : string) : bool :=
  negb (String.eqb s "") && negb (String.eqb s ".") && negb (String.eqb s "..")
  && no_separator s.

(** A resolved path: every name on it is the name of one entry. *)
Definition plain_path (p : Path) : Prop :=
  Forall (fun s => plain_name s = true) (path_parts p).

(** ** The profile reader ([ccl_chromium_reader]), at its interface

    The records it iterates over, with the attributes the plugins read.
    Times are naive datetimes, in microseconds since 1970-01-01; cached
    bytes are strings. *)

Record HistoryRecord := {
  rec_id : Z;
  url : string;
  title : string;
  visit_time : Z;
  record_location : string }.

Record CachedMetadata := {
  header_attributes : gmap string (list string);
  request_time : Z;
  response_time : Z }.

(** [metadata.get_attribute(name)]: the header's values, none if absent. *)
Definition get_attribute (m : CachedMetadata) (attribute : string) : list string :=
  default [] (header_attributes m !! attribute).

Record CacheRecord := {
  key_url : string;
  data : string;
  metadata : CachedMetadata;
  data_location : string }.

Record SessionStorageRecord := {
  host : string;
  key : string;
  value : string;
  leveldb_sequence_number : Z }.

Record ProfileData := {
  history : list HistoryRecord;
  cache : list CacheRecord;
  session_storage : list SessionStorageRecord }.

Definition iterate_history_records (p : ProfileData) (url_ok : string -> bool)
  : list HistoryRecord :=
  filter (fun r => url_ok (url r) = true) (history p).

Definition iterate_cache (p : ProfileData) (url_ok : string -> bool)
  : list CacheRecord :=
  filter (fun r => url_ok (key_url r) = true) (cache p).

Definition iter_session_storage (p : ProfileData) (h k : string)
  : list SessionStorageRecord :=
  filter (fun r => host r = h ∧ key r = k) (session_storage p).

Section MisterSkinnylegs.

Set Default Proof Using "Type".

(** ** External collaborators *)

(** [util.artifact_utils.ArtifactStorage], the handle a plugin exports binary
    files through. *)
Variable Storage : Type.

(** ** Artifact descriptors ([util.artifact_utils.ArtifactSpec]) *)

(** What a plugin function can be handed. *)
Inductive PyArg :=
| ArgProfile (h : nat) (contents : ProfileData)
| ArgLog
| ArgStorage (s : Storage).

(** A Python function with [params] required positional parameters.  Its
    body, run on that many arguments, passes [fst] to the log function it
    was given, message by message, and then returns or raises [snd]. *)
Record PyFunction := {
  params : nat;
  body : list PyArg -> list string * Exc ArtifactResult }.

(** [f(a1, ..., an)]: a call with the wrong number of arguments raises
    [TypeError] before the body runs. *)
Definition call (f : PyFunction) (args : list PyArg)
  : list string * Exc ArtifactResult :=
  if (length args =? params f)%nat then body f args else ([], Raise TypeError).

Inductive ReportPresentation :=
| table.

Record ArtifactSpec := {
  service : string;
  name : string;
  description : string;
  version : string;
  function : PyFunction;
  presentation : ReportPresentation }.

(** The dictionary [_run_artifact] builds. *)
Record Envelope := {
  artifact_service : string;
  artifact_name : string;
  artifact_version : string;
  artifact_description : string;
  result : list PyDict }.

(** ** The world the program acts on *)

Inductive Event :=
| EvOpenProfile (h : nat) (folder : Path)
| EvCloseProfile (h : nat)
| EvCall (artifact : string) (args : list PyArg).

Record World := {
  fs : FS;
  stdout : list string;
  clock : nat;
  next_handle : nat;
  open_handles : list nat;
  trace : list Event }.

Definition set_fs (f : FS -> FS) (w : World) : World :=
  {| fs := f (fs w); stdout := stdout w; clock := clock w;
     next_handle := next_handle w; open_handles := open_handles w;
     trace := trace w |}.

Definition print (line : string) (w : World) : World :=
  {| fs := fs w; stdout := stdout w ++ [line]; clock := clock w;
     next_handle := next_handle w; open_handles := open_handles w;
     trace := trace w |}.

Definition record (e : Event) (w : World) : World :=
  {| fs := fs w; stdout := stdout w; clock := clock w;
     next_handle := next_handle w; open_handles := open_handles w;
     trace := trace w ++ [e] |}.

Abbreviation M := (ST World).

(** A file-system operation that raises leaves the world as it was. *)
Definition fs_op (op : FS -> Exc FS) : M unit :=
  fun w => match op (fs w) with
           | Ok fs' => (set_fs (fun _ => fs') w, Ok tt)
           | Raise e => (w, Raise e)
           end.

(** [datetime.datetime.now()] reads the clock; the [n]-th reading prints as
    [now_str n] with [str] and as [now_stamp n] with [%Y%m%d_%H%M%S]. *)
Variable now_str : nat -> string.
Variable now_stamp : nat -> string.

Definition datetime_now : M nat :=
  fun w => ({| fs := fs w; stdout := stdout w; clock := S (clock w);
               next_handle := next_handle w; open_handles := open_handles w;
               trace := trace w |}, Ok (clock w)).

(** [s.encode(sys.stdout.encoding, "replace").decode(sys.stdout.encoding)] *)
Variable console_text : string -> string.

(** ** SimpleLog *)

Record SimpleLog := { _f : Path }.

Definition SimpleLog_init (out_path : Path) : M SimpleLog :=
  fs_op (fun fs => open_xt fs out_path) >>>
  ret {| _f := out_path |}.

Definition log_message (self : SimpleLog) (message : string) : M unit :=
  let! t := datetime_now in
  let formatted_message := now_str t +:+ TAB +:+ indent_newlines message in
  modify (set_fs (fun fs => file_write fs (_f self) formatted_message)) >>>
  modify (set_fs (fun fs => file_write fs (_f self) NL)) >>>
  modify (print (console_text formatted_message)).

(** [MisterSkinnylegs.log_fallback] *)
Definition log_fallback (message : string) : M unit :=
  modify (print ("Log:" +:+ TAB +:+ message)).

(** The callables that serve as log sink. *)
Inductive LogCallback :=
| BoundLogMessage (self : SimpleLog)
| LogFallback.

Definition call_log (cb : LogCallback) (message : string) : M unit :=
  match cb with
  | BoundLogMessage l => log_message l message
  | LogFallback => log_fallback message
  end.

(** ** PluginLoader *)

(** The plugin modules importable from a plugin directory, in scan order,
    each with its [__artifacts__]. *)
Variable plugin_modules : Path -> list (Path * list ArtifactSpec).

Record PluginLoader := { _plugins : list (ArtifactSpec * Path) }.

Definition names_of (cat : list (ArtifactSpec * Path)) : list string :=
  map (fun e => name (fst e)) cat.

(** Modelled from the spec: [util/plugin_loader.py] is not among the
    sources.  Per the spec the loader accumulates every module's descriptors
    into a catalog indexed by [name] and fails with DuplicateArtifactName as
    soon as two descriptors share a name. *)
Fixpoint load_descriptors (cat : list (ArtifactSpec * Path))
    (found : list (ArtifactSpec * Path)) : Exc (list (ArtifactSpec * Path)) :=
  match found with
  | [] => Ok cat
  | (spec, path) :: rest =>
      if bool_decide (name spec ∈ names_of cat)
      then Raise DuplicateArtifactName
      else load_descriptors (cat ++ [(spec, path)]) rest
  end.

Definition descriptors_in (modules : list (Path * list ArtifactSpec))
  : list (ArtifactSpec * Path) :=
  flat_map (fun m => map (fun spec => (spec, fst m)) (snd m)) modules.

(** Modelled from the spec: [PluginLoader(plugin_path)] builds the catalog
    once, at construction. *)
Definition PluginLoader_init (plugin_path : Path) : Exc PluginLoader :=
  match load_descriptors [] (descriptors_in (plugin_modules plugin_path)) with
  | Ok cat => Ok {| _plugins := cat |}
  | Raise e => Raise e
  end.

(** Modelled from the spec: [loader[name]] is the catalog's
    [get(name) -> (descriptor, originPath)], failing with UnknownArtifact. *)
Definition PluginLoader_getitem (loader : PluginLoader) (artifact_name : string)
  : Exc (ArtifactSpec * Path) :=
  match List.find (fun e => String.eqb (name (fst e)) artifact_name)
                  (_plugins loader) with
  | Some e => Ok e
  | None => Raise UnknownArtifact
  end.

(** Modelled from the spec: [loader.artifacts] is the catalog's [all()]. *)
Definition PluginLoader_artifacts (loader : PluginLoader)
  : list (ArtifactSpec * Path) :=
  _plugins loader.

(** ** ChromiumProfileFolder as a context manager *)

(** What the profile reader finds in a profile folder. *)
Variable profile_contents : Path -> ProfileData.

(** [ChromiumProfileFolder(path).__enter__()]: a new handle each time.  The
    reader is taken to open any folder that is a directory. *)
Definition ChromiumProfileFolder_enter (path : Path) : M nat :=
  fun w =>
    let h := next_handle w in
    ({| fs := fs w; stdout := stdout w; clock := clock w;
        next_handle := S h; open_handles := h :: open_handles w;
        trace := trace w ++ [EvOpenProfile h path] |}, Ok h).

(** [__exit__]: closes the handle and lets any exception pass. *)
Definition ChromiumProfileFolder_exit (h : nat) (w : World) : World :=
  {| fs := fs w; stdout := stdout w; clock := clock w;
     next_handle := next_handle w;
     open_handles := filter (fun h' => h' ≠ h) (open_handles w);
     trace := trace w ++ [EvCloseProfile h] |}.

(** ** MisterSkinnylegs *)

Record MisterSkinnylegs := {
  _plugin_loader : PluginLoader;
  _profile_folder_path : Path;
  _log_callback : LogCallback }.

Definition MisterSkinnylegs_init (plugin_path profile_path : Path)
    (log_callback : option LogCallback) : M MisterSkinnylegs :=
  let! loader := lift_exc (PluginLoader_init plugin_path) in
  let! is_dir := gets (fun w => path_is_dir (fs w) profile_path) in
  if negb is_dir then raise NotADirectoryError
  else ret {| _plugin_loader := loader;
              _profile_folder_path := profile_path;
              _log_callback := default LogFallback log_callback |}.

Definition artifacts (self : MisterSkinnylegs) : list (ArtifactSpec * Path) :=
  PluginLoader_artifacts (_plugin_loader self).

Definition profile_folder (self : MisterSkinnylegs) : Path :=
  _profile_folder_path self.

(** The arguments [_run_artifact] calls [spec.function] with. *)
Definition artifact_args (self : MisterSkinnylegs) (h : nat) : list PyArg :=
  [ArgProfile h (profile_contents (_profile_folder_path self)); ArgLog].

Definition envelope_of (spec : ArtifactSpec) (r : ArtifactResult) : Envelope :=
  {| artifact_service := service spec;
     artifact_name := name spec;
     artifact_version := version spec;
     artifact_description := description spec;
     result := ArtifactResult.result r |}.

(** The body of the coroutine [_run_artifact(spec)]; it has no [await], so
    once started it runs to its end without yielding to the event loop. *)
Definition _run_artifact (self : MisterSkinnylegs) (spec : ArtifactSpec)
  : M (ArtifactSpec * Envelope) :=
  let! profile := ChromiumProfileFolder_enter (_profile_folder_path self) in
  finally
    (modify (record (EvCall (name spec) (artifact_args self profile))) >>>
     let run := call (function spec) (artifact_args self profile) in
     for_each (fst run) (call_log (_log_callback self)) >>>
     let! result := lift_exc (snd run) in
     ret (spec, envelope_of spec result))
    (ChromiumProfileFolder_exit profile).

(** A coroutine object: a call of an [async def] that has not started. *)
Inductive Coroutine :=
| Co_run_artifact (self : MisterSkinnylegs) (spec : ArtifactSpec).

(** [await coro] *)
Definition await (coro : Coroutine) : M (ArtifactSpec * Envelope) :=
  match coro with
  | Co_run_artifact self spec => _run_artifact self spec
  end.

(** [run_one] looks the artifact up and returns the pair of its spec and the
    coroutine object [self._run_artifact(spec)], which it does not await. *)
Definition run_one (self : MisterSkinnylegs) (artifact_name : string)
  : M (ArtifactSpec * Coroutine) :=
  let! found := lift_exc (PluginLoader_getitem (_plugin_loader self) artifact_name) in
  let spec := fst found in
  let result := Co_run_artifact self spec in
  ret (spec, result).

(** *** asyncio

    [asyncio.as_completed(tasks)] collects the coroutines in a [set],
    wraps each, in the iteration order of that set, in a task scheduled on
    the event loop, and hands out one awaitable per task; awaiting the
    [i]-th gives the result, or re-raises the exception, of the [i]-th task
    to finish.  The loop runs ready tasks first in, first out, and a
    [_run_artifact] task never yields, so the tasks finish in the order
    they were scheduled and all of them have finished when the first
    awaitable resolves. *)

(** The iteration order of a [set] of coroutine objects. *)
Variable set_iteration : list Coroutine -> list Coroutine.

(** A task runs its coroutine and keeps the outcome in its future. *)
Definition run_task (coro : Coroutine) : M (Exc (ArtifactSpec * Envelope)) :=
  fun w => let '(w', r) := await coro w in (w', Ok r).

Fixpoint run_tasks (coros : list Coroutine)
  : M (list (Exc (ArtifactSpec * Envelope))) :=
  match coros with
  | [] => ret []
  | c :: rest =>
      let! done := run_task c in
      let! others := run_tasks rest in
      ret (done :: others)
  end.

(** The futures, in completion order. *)
Definition as_completed (coros : list Coroutine)
  : M (list (Exc (ArtifactSpec * Envelope))) :=
  run_tasks (set_iteration coros).

Definition tasks (self : MisterSkinnylegs) : list Coroutine :=
  map (fun e => Co_run_artifact self (fst e)) (artifacts self).

(** The asynchronous generator [run_all()]: for each future in completion
    order it yields the awaited result; an exception ends the generator. *)
Definition run_all (self : MisterSkinnylegs)
  : M (list (Exc (ArtifactSpec * Envelope))) :=
  as_completed (tasks self).

(** What a consumer of the generator receives: the items yielded, and the
    exception that ended the iteration if one did. *)
Fixpoint yielded {A} (gen : list (Exc A)) : list A * option Exn :=
  match gen with
  | [] => ([], None)
  | Ok a :: rest => let '(items, e) := yielded rest in (a :: items, e)
  | Raise e :: _ => ([], Some e)
  end.

(** [async for item in gen: body item] *)
Fixpoint async_for {A} (gen : list (Exc A)) (body : A -> M unit) : M unit :=
  match gen with
  | [] => ret tt
  | Ok a :: rest => body a >>> async_for rest body
  | Raise e :: _ => raise e
  end.

(** ** The command-line program *)

(** [util.fs_utils.sanitize_filename] *)
Variable sanitize_filename : string -> string.

(** [json.dump(obj, fp)]: the text it writes to [fp], and the exception it
    raises, if any, once that text is written. *)
Variable json_dump : Envelope -> string * option Exn.

(** The directory of the script. *)
Variable script_dir : Path.

Definition __version__ : string := "0.0.3".

Definition PLUGIN_PATH : Path := script_dir // "plugins".

Definition BANNER : string := "
╔╦╗┬┌─┐┌┬┐┌─┐┬─┐            
║║║│└─┐ │ ├┤ ├┬┘            
╩ ╩┴└─┘ ┴ └─┘┴└─            
╔═╗┬┌─┬┌┐┌┌┐┌┬ ┬┬  ┌─┐┌─┐┌─┐
╚═╗├┴┐│││││││└┬┘│  ├┤ │ ┬└─┐
╚═╝┴ ┴┴┘└┘┘└┘ ┴ ┴─┘└─┘└─┘└─┘
".

(** [path.name] *)
Definition path_name (p : Path) : string :=
  match p with Root => "" | Child _ s => s end.

(** [args[i]], already turned into a path. *)
Definition args_get (args : list Path) (i : nat) : M Path :=
  match args !! i with
  | Some p => ret p
  | None => raise IndexError
  end.

(** [out_dir_path] and [out_file_path] of the loop of [main]. *)
Definition out_dir_path (report_out_folder_path : Path) (spec : ArtifactSpec)
  : PurePath :=
  joinpath (pure_path report_out_folder_path) (sanitize_filename (service spec)).

Definition out_file_path (report_out_folder_path : Path) (spec : ArtifactSpec)
  : PurePath :=
  joinpath (out_dir_path report_out_folder_path spec)
           (sanitize_filename (name spec) +:+ ".json").

(** The two paths as pathlib holds them.  For a sanitized service and a
    file name that are each the name of one entry they are
    [out / service] and [out / service / file]. *)
Definition report_dir (report_out_folder_path : Path) (spec : ArtifactSpec) : Path :=
  as_path (out_dir_path report_out_folder_path spec).

Definition report_file (report_out_folder_path : Path) (spec : ArtifactSpec) : Path :=
  as_path (out_file_path report_out_folder_path spec).

(** The sanitized service, and the sanitized name with its extension, are
    each the name of one entry. *)
Definition plain_names (spec : ArtifactSpec) : Prop :=
  plain_name (sanitize_filename (service spec)) = true
  ∧ plain_name (sanitize_filename (name spec) +:+ ".json") = true.

(** [p.mkdir(exist_ok=True)] for a joined path. *)
Definition mkdir_at (p : PurePath) : M unit :=
  fs_op (fun fs => match locate fs p with
                   | Ok d => path_mkdir false true fs d
                   | Raise e => Raise e
                   end).

(** [p.open("xt")] for a joined path: the file that was created. *)
Definition open_xt_at (p : PurePath) : M Path :=
  fun w => match locate (fs w) p with
           | Ok f =>
               match open_xt (fs w) f with
               | Ok fs' => (set_fs (fun _ => fs') w, Ok f)
               | Raise e => (w, Raise e)
               end
           | Raise e => (w, Raise e)
           end.

(** The body of the [async for] loop of [main]. *)
Definition write_report (log : string -> M unit) (report_out_folder_path : Path)
    (item : ArtifactSpec * Envelope) : M unit :=
  let spec := fst item in
  let envelope := snd item in
  log ("Results acquired for " +:+ name spec) >>>
  match result envelope with
  | [] => log (name spec +:+ " had not results, skipping")
  | _ :: _ =>
      mkdir_at (out_dir_path report_out_folder_path spec) >>>
      log ("Generating output at "
           +:+ path_str (as_path (out_file_path report_out_folder_path spec))) >>>
      let! out := open_xt_at (out_file_path report_out_folder_path spec) in
      let dumped := json_dump envelope in
      modify (set_fs (fun fs => file_write fs out (fst dumped))) >>>
      match snd dumped with
      | Some e => raise e
      | None => ret tt
      end
  end.

Definition main (args : list Path) : M unit :=
  let! profile_input_path := args_get args 0 in
  let! report_out_folder_path := args_get args 1 in
  modify (print BANNER) >>>
  let! profile_is_dir := gets (fun w => path_is_dir (fs w) profile_input_path) in
  if negb profile_is_dir then raise NotADirectoryError else
  let! out_exists := gets (fun w => path_exists (fs w) report_out_folder_path) in
  if out_exists then raise FileExistsError else
  fs_op (fun fs => path_mkdir true false fs report_out_folder_path) >>>
  let! t := datetime_now in
  let! log_file :=
    SimpleLog_init (report_out_folder_path // ("log_" +:+ now_stamp t +:+ ".log")) in
  let log := log_message log_file in
  let! mr_sl :=
    MisterSkinnylegs_init PLUGIN_PATH profile_input_path
                          (Some (BoundLogMessage log_file)) in
  log ("Mister Skinnylegs v" +:+ __version__ +:+ " is on the go!") >>>
  log ("Working with profile folder: " +:+ path_str (profile_folder mr_sl)) >>>
  log "" >>>
  log "Plugins loaded:" >>>
  log "===============" >>>
  for_each (artifacts mr_sl)
           (fun e => log (name (fst e) +:+ "  -  " +:+ path_name (snd e))) >>>
  log "" >>>
  log "Processing starting..." >>>
  let! gen := run_all mr_sl in
  async_for gen (write_report log report_out_folder_path).

(** ** plugins/google_drive_plugin.py *)

(** [list.sort(key=...)]: the keys are computed first, left to right; the
    sort is stable and compares keys with [<] only.  An exception of a key
    function or of a comparison ends it. *)
#[local] Instance Exc_ret : MRet Exc := @Ok.
#[local] Instance Exc_bind : MBind Exc :=
  fun A B f m => match m with Ok a => f a | Raise e => Raise e end.

Fixpoint decorate (key : PyDict -> Exc PyVal) (l : list PyDict)
  : Exc (list (PyVal * PyDict)) :=
  match l with
  | [] => Ok []
  | x :: l' => k ← key x; rest ← decorate key l'; Ok ((k, x) :: rest)
  end.

(** Puts [x] in front of the first element whose key is not below [x]'s. *)
Fixpoint insert_by_key (x : PyVal * PyDict) (l : list (PyVal * PyDict))
  : Exc (list (PyVal * PyDict)) :=
  match l with
  | [] => Ok [x]
  | y :: l' =>
      below ← py_lt (fst y) (fst x);
      if below : bool then rest ← insert_by_key x l'; Ok (y :: rest)
      else Ok (x :: y :: l')
  end.

Fixpoint sort_decorated (l : list (PyVal * PyDict)) : Exc (list (PyVal * PyDict)) :=
  match l with
  | [] => Ok []
  | x :: l' => sorted ← sort_decorated l'; insert_by_key x sorted
  end.

Definition list_sort (key : PyDict -> Exc PyVal) (l : list PyDict)
  : Exc (list PyDict) :=
  decorated ← decorate key l;
  sorted ← sort_decorated decorated;
  Ok (map snd sorted).

(** [results = []; for x in xs: ... results.append(...)] *)
Fixpoint collect {S A R} (xs : list A) (results : list R)
    (body : list R -> A -> ST S (list R)) : ST S (list R) :=
  match xs with
  | [] => ret results
  | x :: xs' => let! results' := body results x in collect xs' results' body
  end.

(** The [re] patterns of the module, each with the one method used on it:
    [match] or [search] as a test, and the group read from the match. *)
Variable FOLDERS_URL_PATTERN_match : string -> bool.
Variable FILES_URL_PATTERN_match : string -> bool.
Variable DOCS_URL_PATTERN_match : string -> option string.
Variable THUMBNAIL_URL_PATTERN_1_search : string -> bool.
Variable THUMBNAIL_URL_PATTERN_2_search : string -> bool.
Variable filename_search : string -> option string.

(** [str.title] and [int(str)] *)
Variable str_title : string -> string.
Variable int_of_str : string -> option Z.

(** [storage.get_binary_stream(name)] followed by one [write(data)] and the
    closing of the stream: the storage afterwards and the stream's
    [get_file_location_reference()]. *)
Variable get_binary_stream : Storage -> string -> string -> Storage * string.

Definition EPOCH : Z := 0.

(** [datetime.min] and [datetime.max] in microseconds since [EPOCH]. *)
Definition datetime_min : Z := -62135596800000000.
Definition datetime_max : Z := 253402300799999999.

(** [EPOCH + timedelta(milliseconds=ms)] for an integer [ms]. *)
Definition parse_unix_ms (ms : Z) : Exc Z :=
  let us := (EPOCH + ms * 1000)%Z in
  if bool_decide (datetime_min ≤ us ≤ datetime_max)%Z then Ok us
  else Raise OverflowError.

Definition _matches_file_listing_pattern (s : string) : bool :=
  FOLDERS_URL_PATTERN_match s || FILES_URL_PATTERN_match s
  || bool_decide (is_Some (DOCS_URL_PATTERN_match s)).

Definition _matches_thumbnail_pattern (s : string) : bool :=
  THUMBNAIL_URL_PATTERN_1_search s || THUMBNAIL_URL_PATTERN_2_search s.

(** What a running plugin function changes: the storage it was given and
    the messages it has passed to its log function. *)
Record PluginState := {
  storage : Storage;
  logged : list string }.

Definition log_func (message : string) : ST PluginState unit :=
  modify (fun st => {| storage := storage st; logged := logged st ++ [message] |}).

Definition export_binary (out_filename content : string) : ST PluginState string :=
  fun st =>
    let '(storage', reference) := get_binary_stream (storage st) out_filename content in
    ({| storage := storage'; logged := logged st |}, Ok reference).

Definition history_entry (history_rec : HistoryRecord) (type name : string) : PyDict :=
  [("id", VInt (rec_id history_rec));
   ("type", VStr type);
   ("name", VStr name);
   ("url", VStr (url history_rec));
   ("timestamp", VDatetime (visit_time history_rec))].

Definition folders_and_files (profile : ProfileData) : ST PluginState ArtifactResult :=
  let! results :=
    collect (iterate_history_records profile _matches_file_listing_pattern) []
      (fun results history_rec =>
         if FOLDERS_URL_PATTERN_match (url history_rec) then
           let folder_name := rsplit1_first " - " (title history_rec) in
           ret (results ++ [history_entry history_rec "Folder" folder_name])
         else if FILES_URL_PATTERN_match (url history_rec) then
           let file_name := rsplit1_first " - " (title history_rec) in
           ret (results ++ [history_entry history_rec "File" file_name])
         else
           match DOCS_URL_PATTERN_match (url history_rec) with
           | Some service_group =>
               let doc_name := rsplit1_first " - " (title history_rec) in
               let service := str_title service_group in
               ret (results ++ [history_entry history_rec service doc_name])
           | None => ret results
           end) in
  let! sorted := lift_exc (list_sort (fun x => getitem x "timestamp") results) in
  ret (ArtifactResult.mk sorted).

Definition thumbnails (profile : ProfileData) : ST PluginState ArtifactResult :=
  let! results :=
    collect (imap pair (iterate_cache profile _matches_thumbnail_pattern)) []
      (fun results entry =>
         let idx : nat := fst entry in
         let rec := snd entry in
         let! content_disposition :=
           match get_attribute (metadata rec) "content-disposition" with
           | v :: _ => ret v
           | [] => raise IndexError
           end in
         let! cache_filename :=
           match filename_search content_disposition with
           | Some group1 => ret group1
           | None => raise AttributeError
           end in
         let out_filename := pretty idx +:+ "_" +:+ cache_filename in
         let! reference := export_binary out_filename (data rec) in
         log_func ("Exporting thumbnail to: " +:+ reference) >>>
         ret (results ++
                [[("url", VStr (rstrip "000"%char (key_url rec)));
                  ("cache request time", VDatetime (request_time (metadata rec)));
                  ("cache response time", VDatetime (response_time (metadata rec)));
                  ("extracted file reference", VStr reference)]])) in
  let! sorted := lift_exc (list_sort (fun x => getitem x "cache request time") results) in
  ret (ArtifactResult.mk sorted).

Definition timeline_usage (profile : ProfileData) : ST PluginState ArtifactResult :=
  let! results :=
    collect (iter_session_storage profile "https://drive.google.com/"
                                  "ui:tabFirstStartTimeMsec") []
      (fun results rec =>
         let! ms :=
           match int_of_str (value rec) with
           | Some z => ret z
           | None => raise ValueError
           end in
         let! timestamp := lift_exc (parse_unix_ms ms) in
         ret (results ++
                [[("source", VStr "Session Storage");
                  ("id", VInt (leveldb_sequence_number rec));
                  ("type", VStr "Tab first start");
                  ("timestamp", VDatetime timestamp)]])) in
  let! sorted := lift_exc (list_sort (fun x => getitem x "timestamp") results) in
  ret (ArtifactResult.mk sorted).

(** A plugin function [def f(profile, log_func, storage)] as a callable. *)
Definition plugin_function (f : ProfileData -> ST PluginState ArtifactResult)
  : PyFunction :=
  {| params := 3;
     body := fun args =>
       match args with
       | [ArgProfile _ profile; ArgLog; ArgStorage s] =>
           let '(st, r) := f profile {| storage := s; logged := [] |} in
           (logged st, r)
       | _ => ([], Raise TypeError)
       end |}.

Definition google_drive_artifacts : list ArtifactSpec :=
  [ {| service := "Google Drive";
       name := "Google Drive Files and Folders";
       description := "Recovers Google Drive and Docs folder and file names (and urls) from history records";
       version := "0.1";
       function := plugin_function folders_and_files;
       presentation := table |};
    {| service := "Google Drive";
       name := "Google Drive Thumbnails";
       description := "Recovers Google Drive thumbnails from the cache";
       version := "0.1";
       function := plugin_function thumbnails;
       presentation := table |};
    {| service := "Google Drive";
       name := "Google Drive Usage";
       description := "Recovers indications of Google Drive usage";
       version := "0.1";
       function := plugin_function timeline_usage;
       presentation := table |} ].

(** ** The vocabulary of the properties *)

(** The world after the log sink has taken the messages [msgs]. *)
Definition logged_world (cb : LogCallback) (msgs : list string) (w : World) : World :=
  foldl (fun w m => fst (call_log cb m w)) w msgs.

(** The world in which the plugin function of an invocation runs. *)
Definition entered (self : MisterSkinnylegs) (spec : ArtifactSpec) (w : World) : World :=
  record (EvCall (name spec) (artifact_args self (next_handle w)))
         (fst (ChromiumProfileFolder_enter (_profile_folder_path self) w)).

(** The events of one invocation that works on handle [h]. *)
Definition invocation_events (self : MisterSkinnylegs) (spec : ArtifactSpec)
    (h : nat) : list Event :=
  [EvOpenProfile h (_profile_folder_path self);
   EvCall (name spec) (artifact_args self h);
   EvCloseProfile h].

Definition coroutine_events (coro : Coroutine) (h : nat) : list Event :=
  match coro with
  | Co_run_artifact self spec => invocation_events self spec h
  end.

(** The events of the invocations [coros], run one after the other, the
    first of them on handle [h]. *)
Fixpoint tasks_events (coros : list Coroutine) (h : nat) : list Event :=
  match coros with
  | [] => []
  | c :: rest => coroutine_events c h ++ tasks_events rest (S h)
  end.

(** The handles a trace opens, and the handles it passes to plugin functions. *)
Definition opened_handles (t : list Event) : list nat :=
  omap (fun e => match e with EvOpenProfile h _ => Some h | _ => None end) t.

Definition passed_handles (t : list Event) : list nat :=
  flat_map (fun e =>
              match e with
              | EvCall _ args =>
                  omap (fun a => match a with ArgProfile h _ => Some h | _ => None end) args
              | _ => []
              end) t.

Definition spec_of (coro : Coroutine) : ArtifactSpec :=
  match coro with Co_run_artifact _ spec => spec end.

(** How the invocation [coro] ends when it works on handle [h]. *)
Definition task_outcome (coro : Coroutine) (h : nat) : Exc (ArtifactSpec * Envelope) :=
  match coro with
  | Co_run_artifact self spec =>
      match snd (call (function spec) (artifact_args self h)) with
      | Ok r => Ok (spec, envelope_of spec r)
      | Raise e => Raise e
      end
  end.

Fixpoint tasks_outcomes (coros : list Coroutine) (h : nat)
  : list (Exc (ArtifactSpec * Envelope)) :=
  match coros with
  | [] => []
  | c :: rest => task_outcome c h :: tasks_outcomes rest (S h)
  end.

(** Absent, a directory ([Some false]) or a file ([Some true]). *)
Definition kind (n : option Node) : option bool :=
  match n with
  | None => None
  | Some Dir => Some false
  | Some (File _) => Some true
  end.

(** Every file of [fs0] is in [fs1] with the content it had. *)
Definition kept (fs0 fs1 : FS) : Prop :=
  ∀ p c, fs0 !! p = Some (File c) → fs1 !! p = Some (File c).

(** Both records have a datetime under [k], the first no later than the second. *)
Definition time_le (k : string) (d1 d2 : PyDict) : Prop :=
  ∃ t1 t2, getitem d1 k = Ok (VDatetime t1)
           ∧ getitem d2 k = Ok (VDatetime t2) ∧ (t1 ≤ t2)%Z.

(** Ascending in the time key [k]: every record is [time_le] all later ones. *)
Definition sorted_by_time (k : string) (l : list PyDict) : Prop :=
  StronglySorted (time_le k) l.

Definition has_time (k : string) (d : PyDict) : Prop :=
  ∃ t, getitem d k = Ok (VDatetime t).

(** The same on decorated records. *)
Definition timed (x : PyVal * PyDict) : Prop := ∃ t, fst x = VDatetime t.

Definition key_le (x y : PyVal * PyDict) : Prop :=
  ∃ t1 t2, fst x = VDatetime t1 ∧ fst y = VDatetime t2 ∧ (t1 ≤ t2)%Z.

(** * Properties *)

(** ** Logging *)

Ltac unfold_st :=
  unfold bind, ret, raise, lift_exc, modify, gets, finally, fs_op in *.

Lemma call_log_ok cb m w : snd (call_log cb m w) = Ok tt.
Proof. destruct cb; reflexivity. Qed.

Lemma call_log_handles cb m w :
  next_handle (fst (call_log cb m w)) = next_handle w
  ∧ open_handles (fst (call_log cb m w)) = open_handles w
  ∧ trace (fst (call_log cb m w)) = trace w.
Proof. destruct cb; auto. Qed.

Lemma for_each_call_log cb msgs w :
  for_each msgs (call_log cb) w = (logged_world cb msgs w, Ok tt).
Proof.
  revert w. induction msgs as [|m msgs IH]; intros w; [reflexivity|].
  cbn [for_each]. unfold bind at 1.
  pose proof (call_log_ok cb m w) as Hok.
  destruct (call_log cb m w) as [w1 r] eqn:E. cbn [snd] in Hok. subst r.
  rewrite IH. unfold logged_world. cbn [foldl]. by rewrite E.
Qed.

Lemma logged_world_handles cb msgs w :
  next_handle (logged_world cb msgs w) = next_handle w
  ∧ open_handles (logged_world cb msgs w) = open_handles w
  ∧ trace (logged_world cb msgs w) = trace w.
Proof.
  revert w. induction msgs as [|m msgs IH]; intros w; [done|].
  unfold logged_world in *. simpl.
  destruct (IH (fst (call_log cb m w))) as (-> & -> & ->).
  apply call_log_handles.
Qed.

(** ** One invocation *)

Lemma _run_artifact_unfold self spec w :
  _run_artifact self spec w =
  let h := next_handle w in
  let run := call (function spec) (artifact_args self h) in
  (ChromiumProfileFolder_exit h
     (logged_world (_log_callback self) (fst run) (entered self spec w)),
   match snd run with
   | Ok r => Ok (spec, envelope_of spec r)
   | Raise e => Raise e
   end).
Proof.
  unfold _run_artifact, entered. unfold_st. simpl.
  rewrite for_each_call_log.
  by destruct (snd (call (function spec) (artifact_args self (next_handle w)))).
Qed.

Lemma _run_artifact_handles self spec w :
  trace (fst (_run_artifact self spec w))
  = trace w ++ invocation_events self spec (next_handle w)
  ∧ next_handle (fst (_run_artifact self spec w)) = S (next_handle w)
  ∧ open_handles (fst (_run_artifact self spec w))
    = filter (fun h' => h' ≠ next_handle w) (next_handle w :: open_handles w).
Proof.
  rewrite _run_artifact_unfold. cbn [fst].
  destruct (logged_world_handles (_log_callback self)
              (fst (call (function spec) (artifact_args self (next_handle w))))
              (entered self spec w)) as (Hn & Ho & Ht).
  unfold ChromiumProfileFolder_exit. cbn [trace next_handle open_handles].
  rewrite Hn, Ho, Ht. unfold entered, invocation_events. simpl.
  by rewrite <- !app_assoc.
Qed.

Lemma run_task_ok coro w :
  run_task coro w = (fst (await coro w), Ok (snd (await coro w))).
Proof. unfold run_task. by destruct (await coro w). Qed.

Lemma run_tasks_ok coros w :
  ∃ w' futures,
    run_tasks coros w = (w', Ok futures)
    ∧ length futures = length coros
    ∧ trace w' = trace w ++ tasks_events coros (next_handle w)
    ∧ next_handle w' = (next_handle w + length coros)%nat.
Proof.
  revert w. induction coros as [|c rest IH]; intros w.
  - exists w, []. simpl. rewrite app_nil_r. repeat split; auto with lia.
  - cbn [run_tasks]. unfold bind at 1. rewrite run_task_ok.
    destruct (IH (fst (await c w))) as (w' & futures & Hrun & Hlen & Htr & Hnh).
    unfold bind at 1. rewrite Hrun. unfold ret.
    exists w', (snd (await c w) :: futures).
    destruct c as [self spec]. cbn [await] in *.
    destruct (_run_artifact_handles self spec w) as (Ht1 & Hn1 & _).
    repeat split.
    + simpl. by rewrite Hlen.
    + rewrite Htr, Ht1, Hn1. cbn [tasks_events coroutine_events].
      by rewrite app_assoc.
    + rewrite Hnh, Hn1. simpl. lia.
Qed.

Lemma opened_handles_tasks_events coros h :
  opened_handles (tasks_events coros h) = seq h (length coros).
Proof.
  revert h. induction coros as [|[self spec] rest IH]; intros h; [done|].
  cbn [tasks_events coroutine_events]. unfold opened_handles in *.
  rewrite omap_app, IH. reflexivity.
Qed.

Lemma passed_handles_tasks_events coros h :
  passed_handles (tasks_events coros h) = seq h (length coros).
Proof.
  revert h. induction coros as [|[self spec] rest IH]; intros h; [done|].
  cbn [tasks_events coroutine_events]. unfold passed_handles in *.
  rewrite flat_map_app, IH. reflexivity.
Qed.

(** C8.  Whatever the plugin function does, return or raise, an invocation
    opens one profile handle, new to the run, hands that handle to the
    function and has closed it when it ends; the invocations of [run_all]
    therefore each work on a handle of their own. *)
Theorem profile_handle_scoped (self : MisterSkinnylegs) (spec : ArtifactSpec)
    (w : World) :
  let h := next_handle w in
  let w1 := fst (_run_artifact self spec w) in
  let events := tasks_events (set_iteration (tasks self)) (next_handle w) in
  (trace w1 = trace w ++ [EvOpenProfile h (_profile_folder_path self);
                          EvCall (name spec) (artifact_args self h);
                          EvCloseProfile h]
   ∧ (h ∉ open_handles w1)
   ∧ (∀ h', h' ≠ h → (h' ∈ open_handles w1 ↔ h' ∈ open_handles w)))
  ∧ (trace (fst (run_all self w)) = trace w ++ events
     ∧ opened_handles events = passed_handles events
     ∧ NoDup (opened_handles events)).
Proof.
  cbn zeta. split.
  - destruct (_run_artifact_handles self spec w) as (Ht & _ & Ho).
    split; [exact Ht|]. rewrite Ho. split.
    + rewrite list_elem_of_filter. by intros [Hne _].
    + intros h' Hne. rewrite list_elem_of_filter, elem_of_cons. split.
      * intros [_ [Heq|Hin]]; [by destruct Hne|exact Hin].
      * intros Hin. split; [exact Hne|by right].
  - unfold run_all, as_completed.
    destruct (run_tasks_ok (set_iteration (tasks self)) w)
      as (w' & futures & Hrun & _ & Htr & _).
    rewrite Hrun. cbn [fst]. split; [exact Htr|].
    rewrite opened_handles_tasks_events, passed_handles_tasks_events.
    split; [done|]. apply NoDup_seq.
Qed.

(** An invocation completes exactly when its plugin function returns. *)
Lemma _run_artifact_returns self spec w r :
  snd (call (function spec) (artifact_args self (next_handle w))) = Ok r →
  snd (_run_artifact self spec w) = Ok (spec, envelope_of spec r).
Proof. intros H. rewrite _run_artifact_unfold. cbn. by rewrite H. Qed.

Lemma _run_artifact_raises self spec w e :
  snd (call (function spec) (artifact_args self (next_handle w))) = Raise e →
  snd (_run_artifact self spec w) = Raise e.
Proof. intros H. rewrite _run_artifact_unfold. cbn. by rewrite H. Qed.

(** C6.  A completed invocation gives the pair of the spec and a dictionary
    whose four metadata entries are the spec's service, name, version and
    description and whose [result] entry is the [result] of the
    ArtifactResult that the plugin function returned. *)
Theorem envelope_of_completed_invocation (self : MisterSkinnylegs)
    (spec : ArtifactSpec) (w : World) (item : ArtifactSpec * Envelope) :
  snd (_run_artifact self spec w) = Ok item →
  ∃ r : ArtifactResult,
    snd (call (function spec) (artifact_args self (next_handle w))) = Ok r
    ∧ fst item = spec
    ∧ snd item = {| artifact_service := service spec;
                    artifact_name := name spec;
                    artifact_version := version spec;
                    artifact_description := description spec;
                    result := ArtifactResult.result r |}.
Proof.
  rewrite _run_artifact_unfold. cbn.
  destruct (snd (call (function spec) (artifact_args self (next_handle w))))
    as [r|e]; [|discriminate].
  intros [= <-]. by exists r.
Qed.

(** C1.  [_run_artifact] calls the plugin function with two arguments, the
    profile handle and the log sink, and builds no storage handle; each of
    the Google Drive functions has three required parameters, so the call
    raises TypeError and no ArtifactResult is captured. *)
Theorem google_drive_invocation_raises_TypeError (self : MisterSkinnylegs)
    (w : World) :
  Forall (fun spec =>
            params (function spec) = 3%nat
            ∧ artifact_args self (next_handle w)
              = [ArgProfile (next_handle w)
                            (profile_contents (_profile_folder_path self));
                 ArgLog]
            ∧ trace (fst (_run_artifact self spec w))
              = trace w ++ [EvOpenProfile (next_handle w) (_profile_folder_path self);
                            EvCall (name spec) (artifact_args self (next_handle w));
                            EvCloseProfile (next_handle w)]
            ∧ snd (_run_artifact self spec w) = Raise TypeError)
         google_drive_artifacts.
Proof.
  unfold google_drive_artifacts.
  repeat (constructor;
          [split; [reflexivity|]; split; [reflexivity|]; split;
           [apply _run_artifact_handles|by apply _run_artifact_raises]|]).
  constructor.
Qed.

(** The catalog holds an entry for a name exactly when the lookup succeeds. *)
Lemma PluginLoader_getitem_spec loader artifact_name :
  match PluginLoader_getitem loader artifact_name with
  | Ok e => e ∈ PluginLoader_artifacts loader ∧ name (fst e) = artifact_name
  | Raise e => e = UnknownArtifact ∧ artifact_name ∉ names_of (_plugins loader)
  end.
Proof.
  unfold PluginLoader_getitem, PluginLoader_artifacts, names_of.
  destruct (List.find _ _) as [e|] eqn:E.
  - apply find_some in E as [Hin Heq]. apply String.eqb_eq in Heq.
    split; [by apply list_elem_of_In|done].
  - split; [done|]. intros Hin. apply list_elem_of_fmap in Hin as (e & -> & Hin).
    apply list_elem_of_In in Hin.
    pose proof (find_none _ _ E e Hin) as Hne. cbn in Hne.
    by rewrite String.eqb_refl in Hne.
Qed.

(** C4.  For a name of the catalog [run_one] gives back the spec together
    with the coroutine object of the invocation, which has not run: the
    world is as before, no handle was opened and the plugin function was not
    called.  For a name that is not in the catalog the lookup fails. *)
Theorem run_one_returns_unstarted_coroutine (self : MisterSkinnylegs)
    (artifact_name : string) (w : World) :
  match PluginLoader_getitem (_plugin_loader self) artifact_name with
  | Ok (spec, _) =>
      artifact_name ∈ names_of (artifacts self)
      ∧ run_one self artifact_name w = (w, Ok (spec, Co_run_artifact self spec))
  | Raise _ =>
      (artifact_name ∉ names_of (artifacts self))
      ∧ run_one self artifact_name w = (w, Raise UnknownArtifact)
  end.
Proof.
  pose proof (PluginLoader_getitem_spec (_plugin_loader self) artifact_name) as H.
  unfold run_one. unfold_st.
  destruct (PluginLoader_getitem _ _) as [[spec path]|e].
  - destruct H as [Hin Hname]. split; [|done].
    unfold names_of, artifacts. apply list_elem_of_fmap. by exists (spec, path).
  - destruct H as [-> Hnot]. done.
Qed.

(** ** The stream of [run_all] *)

Lemma await_outcome coro w : snd (await coro w) = task_outcome coro (next_handle w).
Proof. destruct coro. cbn [await]. by rewrite _run_artifact_unfold. Qed.

Lemma run_tasks_outcomes coros w :
  snd (run_tasks coros w) = Ok (tasks_outcomes coros (next_handle w)).
Proof.
  revert w. induction coros as [|c rest IH]; intros w; [done|].
  cbn [run_tasks]. unfold bind at 1. rewrite run_task_ok.
  unfold bind at 1. specialize (IH (fst (await c w))).
  destruct (run_tasks rest (fst (await c w))) as [w' r]. cbn [snd] in IH. subst r.
  unfold ret. cbn [snd tasks_outcomes]. rewrite await_outcome.
  destruct c as [self spec]. cbn [await].
  by destruct (_run_artifact_handles self spec w) as (_ & -> & _).
Qed.


Lemma yielded_app_ok {A} (items : list A) (rest : list (Exc A)) :
  yielded (map Ok items ++ rest) = (items ++ fst (yielded rest), snd (yielded rest)).
Proof.
  induction items as [|a items IH]; simpl.
  - by destruct (yielded rest).
  - by rewrite IH.
Qed.

(** Invocations that all return leave one item each, in their order. *)
Lemma tasks_outcomes_all_return coros h :
  (∀ c h', c ∈ coros → is_ok (task_outcome c h') = true) →
  ∃ items,
    tasks_outcomes coros h = map Ok items
    ∧ map fst items = map spec_of coros
    ∧ Forall (fun item => ∃ r, snd item = envelope_of (fst item) r) items.
Proof.
  revert h. induction coros as [|c rest IH]; intros h Hall.
  - by exists [].
  - destruct (IH (S h)) as (items & Hout & Hspecs & Henv).
    { intros c' h' Hin. apply Hall. by right. }
    pose proof (Hall c h (list_elem_of_here _ _)) as Hc.
    destruct c as [self spec]. cbn [tasks_outcomes]. rewrite Hout.
    unfold task_outcome in *.
    destruct (snd (call (function spec) (artifact_args self h))) as [r|e];
      [|discriminate].
    exists ((spec, envelope_of spec r) :: items). simpl.
    split; [done|]. split; [by rewrite Hspecs|].
    constructor; [by exists r|done].
Qed.

Lemma spec_of_tasks self : map spec_of (tasks self) = map fst (artifacts self).
Proof. unfold tasks. rewrite <- list_fmap_compose. done. Qed.

Lemma run_all_outcomes self w :
  ∃ w', run_all self w
        = (w', Ok (tasks_outcomes (set_iteration (tasks self)) (next_handle w)))
        ∧ trace w' = trace w ++ tasks_events (set_iteration (tasks self)) (next_handle w).
Proof.
  unfold run_all, as_completed.
  pose proof (run_tasks_outcomes (set_iteration (tasks self)) w) as Hout.
  destruct (run_tasks_ok (set_iteration (tasks self)) w)
    as (w' & futures & Hrun & _ & Htr & _).
  rewrite Hrun in Hout. cbn [snd] in Hout. injection Hout as ->.
  by exists w'.
Qed.

(** C2, amended.  When every plugin function of the catalog returns,
    [run_all] yields one item per catalog entry and then ends: the items
    come in the order in which the invocations completed, their specs are
    the catalog's specs up to that order, and each carries the envelope of
    its own spec. *)
Theorem run_all_one_envelope_per_entry (self : MisterSkinnylegs) (w : World) :
  (∀ coros, set_iteration coros ≡ₚ coros) →
  (∀ e h, e ∈ artifacts self →
          is_ok (snd (call (function (fst e)) (artifact_args self h))) = true) →
  ∃ w' futures items,
    run_all self w = (w', Ok futures)
    ∧ yielded futures = (items, None)
    ∧ map fst items = map spec_of (set_iteration (tasks self))
    ∧ map fst items ≡ₚ map fst (artifacts self)
    ∧ length items = length (artifacts self)
    ∧ Forall (fun item => ∃ r, snd item = envelope_of (fst item) r) items.
Proof.
  intros Hperm Hret.
  destruct (run_all_outcomes self w) as (w' & Hrun & _).
  destruct (tasks_outcomes_all_return (set_iteration (tasks self)) (next_handle w))
    as (items & Hout & Hspecs & Henv).
  { intros c h' Hin. rewrite Hperm in Hin. unfold tasks in Hin.
    apply list_elem_of_fmap in Hin as (e & -> & Hin).
    specialize (Hret e h' Hin). unfold task_outcome.
    by destruct (snd (call (function (fst e)) (artifact_args self h'))). }
  assert (map fst items ≡ₚ map fst (artifacts self)) as Hbij.
  { rewrite Hspecs, <- spec_of_tasks. by apply fmap_Permutation. }
  exists w', (map Ok items), items. rewrite <- Hout.
  split; [exact Hrun|]. rewrite Hout. split.
  { pose proof (yielded_app_ok items []) as Hy. rewrite app_nil_r in Hy.
    rewrite Hy. simpl. by rewrite app_nil_r. }
  split; [exact Hspecs|]. split; [exact Hbij|]. split; [|exact Henv].
  apply Permutation_length in Hbij. by rewrite !length_map in Hbij.
Qed.


(** ** The file system *)

Lemma kind_None n : kind n = None ↔ n = None.
Proof. by destruct n as [[]|]. Qed.

Lemma kind_Dir n : kind n = Some false ↔ n = Some Dir.
Proof. by destruct n as [[]|]. Qed.

Lemma kind_is_file n : is_file n = bool_decide (kind n = Some true).
Proof. by destruct n as [[]|]. Qed.

Lemma file_write_lookup (fs0 : FS) p text q :
  file_write fs0 p text !! q
  = match fs0 !! q with
    | Some (File c) => if decide (p = q) then Some (File (c +:+ text)) else Some (File c)
    | other => other
    end.
Proof.
  unfold file_write. destruct (decide (p = q)) as [->|Hne].
  - destruct (fs0 !! q) as [[|c]|] eqn:E; rewrite ?lookup_insert_eq, ?E; done.
  - destruct (fs0 !! p) as [[|c]|] eqn:E; rewrite ?lookup_insert_ne by done;
      by destruct (fs0 !! q) as [[]|].
Qed.

Lemma file_write_kind (fs0 : FS) p text q :
  kind (file_write fs0 p text !! q) = kind (fs0 !! q).
Proof.
  rewrite file_write_lookup. destruct (fs0 !! q) as [[|c]|]; try done.
  by destruct (decide (p = q)).
Qed.

Lemma file_write_other (fs0 : FS) p text q :
  p ≠ q → file_write fs0 p text !! q = fs0 !! q.
Proof.
  intros Hne. rewrite file_write_lookup.
  destruct (fs0 !! q) as [[|c]|]; try done. by rewrite decide_False.
Qed.

Lemma walk_dir (fs0 : FS) p : walk fs0 p = Ok tt → fs0 !! p = Some Dir.
Proof.
  assert (entry_dir fs0 p = Ok tt → fs0 !! p = Some Dir) as Hentry.
  { unfold entry_dir. by destruct (fs0 !! p) as [[]|]. }
  destruct p as [|q s]; cbn [walk]; [done|]. by destruct (walk fs0 q).
Qed.

Lemma walk_kinds (fs0 fs1 : FS) p :
  (∀ q, kind (fs1 !! q) = kind (fs0 !! q)) → walk fs1 p = walk fs0 p.
Proof.
  intros Hk.
  assert (∀ q, entry_dir fs1 q = entry_dir fs0 q) as Hentry.
  { intros q. unfold entry_dir. specialize (Hk q).
    by destruct (fs1 !! q) as [[]|], (fs0 !! q) as [[]|]. }
  induction p as [|q IH s]; cbn [walk]; [done|]. by rewrite IH, Hentry.
Qed.

Lemma lineage_depth q p : q ∈ lineage p → (depth q ≤ depth p)%nat.
Proof.
  induction p as [|p IH s]; cbn [lineage].
  - intros ->%list_elem_of_singleton. done.
  - intros [->|Hin]%elem_of_cons; [done|]. cbn. specialize (IH Hin). lia.
Qed.

Lemma below_not_in_lineage p s : p // s ∉ lineage p.
Proof. intros H%lineage_depth. cbn in H. lia. Qed.

Lemma below_below_not_in_lineage p s n : p // s // n ∉ lineage p.
Proof. intros H%lineage_depth. cbn in H. lia. Qed.

Lemma walk_kinds_lineage (fs0 fs1 : FS) p :
  (∀ q, q ∈ lineage p → kind (fs1 !! q) = kind (fs0 !! q)) →
  walk fs1 p = walk fs0 p.
Proof.
  assert (∀ q, kind (fs1 !! q) = kind (fs0 !! q) → entry_dir fs1 q = entry_dir fs0 q)
    as Hentry.
  { intros q Hk. unfold entry_dir.
    by destruct (fs1 !! q) as [[]|], (fs0 !! q) as [[]|]. }
  induction p as [|q IH s]; cbn [walk lineage]; intros Hsame.
  - apply Hentry, Hsame, list_elem_of_here.
  - rewrite IH by (intros a Ha; apply Hsame; by right).
    by rewrite Hentry by apply Hsame, list_elem_of_here.
Qed.

(** The way to [p] sees the entries of its lineage only. *)
Lemma walk_frame (fs0 fs1 : FS) p :
  (∀ q, q ∈ lineage p → fs1 !! q = fs0 !! q) → walk fs1 p = walk fs0 p.
Proof.
  induction p as [|q IH s]; cbn [walk lineage]; intros Hsame.
  - unfold entry_dir. by rewrite Hsame by apply list_elem_of_here.
  - rewrite IH by (intros a Ha; apply Hsame; by right).
    unfold entry_dir. by rewrite Hsame by apply list_elem_of_here.
Qed.

Lemma walk_insert_below (fs0 : FS) p s n :
  walk (<[p // s := n]> fs0) p = walk fs0 p.
Proof.
  apply walk_frame. intros q Hq. rewrite lookup_insert_ne; [done|].
  intros <-. by apply below_not_in_lineage in Hq.
Qed.

Lemma os_mkdir_ok (fs0 fs1 : FS) p :
  os_mkdir fs0 p = Ok fs1 →
  fs0 !! p = None ∧ fs0 !! parent p = Some Dir ∧ fs1 = <[p := Dir]> fs0.
Proof.
  unfold os_mkdir. destruct (fs0 !! p); [done|].
  destruct (walk fs0 (parent p)) as [[]|] eqn:Hwalk; [|done].
  intros [= <-]. split; [done|]. split; [by apply walk_dir|done].
Qed.

Lemma os_mkdir_walk (fs0 fs1 : FS) p :
  os_mkdir fs0 p = Ok fs1 → walk fs1 p = Ok tt.
Proof.
  unfold os_mkdir. destruct (fs0 !! p) eqn:Hp; [done|].
  destruct (walk fs0 (parent p)) as [[]|] eqn:Hwalk; [|done]. intros [= <-].
  destruct p as [|q s]; cbn [parent walk] in *.
  - unfold entry_dir in Hwalk. by rewrite Hp in Hwalk.
  - rewrite walk_insert_below, Hwalk. unfold entry_dir.
    by rewrite lookup_insert_eq.
Qed.

Lemma mkdir_here_ok exist_ok (fs0 fs1 : FS) p :
  mkdir_here exist_ok fs0 p = Ok fs1 →
  (fs0 !! p = None ∧ fs0 !! parent p = Some Dir ∧ fs1 = <[p := Dir]> fs0)
  ∨ (exist_ok = true ∧ fs0 !! p = Some Dir ∧ fs1 = fs0).
Proof.
  unfold mkdir_here. destruct (os_mkdir fs0 p) as [fs'|e] eqn:E.
  - intros [= <-]. left. by apply os_mkdir_ok.
  - unfold path_is_dir.
    destruct e; try done; destruct exist_ok; try done;
      destruct (fs0 !! p) as [[]|]; try done; intros [= <-]; by right.
Qed.

Lemma mkdir_here_subseteq exist_ok (fs0 fs1 : FS) p :
  mkdir_here exist_ok fs0 p = Ok fs1 → fs0 ⊆ fs1 ∧ fs1 !! p = Some Dir.
Proof.
  intros [(Hnone & _ & ->)|(_ & Hdir & ->)]%mkdir_here_ok.
  - split; [by apply insert_subseteq|by rewrite lookup_insert_eq].
  - done.
Qed.

Lemma exist_ok_subseteq (exist_ok : bool) (fs0 fs1 : FS) p e :
  (if exist_ok && path_is_dir fs0 p then Ok fs0 else Raise e) = Ok fs1 →
  fs0 ⊆ fs1 ∧ fs1 !! p = Some Dir.
Proof.
  unfold path_is_dir. destruct exist_ok; [|done].
  destruct (fs0 !! p) as [[]|] eqn:E; try done. by intros [= <-].
Qed.

Lemma path_mkdir_subseteq parents exist_ok (fs0 fs1 : FS) p :
  path_mkdir parents exist_ok fs0 p = Ok fs1 → fs0 ⊆ fs1 ∧ fs1 !! p = Some Dir.
Proof.
  revert parents exist_ok fs0 fs1.
  induction p as [|q IH s]; intros parents exist_ok fs0 fs1; cbn [path_mkdir].
  - destruct (os_mkdir fs0 Root) as [fs'|e] eqn:E.
    + intros [= <-]. apply os_mkdir_ok in E as (Hnone & _ & ->).
      split; [by apply insert_subseteq|by rewrite lookup_insert_eq].
    + destruct e; try (by apply exist_ok_subseteq). by destruct parents.
  - destruct (os_mkdir fs0 (q // s)) as [fs'|e] eqn:E.
    + intros [= <-]. apply os_mkdir_ok in E as (Hnone & _ & ->).
      split; [by apply insert_subseteq|by rewrite lookup_insert_eq].
    + destruct e; try (by apply exist_ok_subseteq).
      destruct parents; [|done].
      destruct (path_mkdir true true fs0 q) as [fs'|e'] eqn:Eq; [|done].
      apply IH in Eq as [Hsub _].
      intros [Hsub' Hdir]%mkdir_here_subseteq. split; [|done].
      by transitivity fs'.
Qed.

Lemma open_xt_ok (fs0 fs1 : FS) p :
  open_xt fs0 p = Ok fs1 →
  fs0 !! p = None ∧ fs0 !! parent p = Some Dir ∧ fs1 = <[p := File ""]> fs0.
Proof.
  unfold open_xt. destruct (fs0 !! p); [done|].
  destruct (walk fs0 (parent p)) as [[]|] eqn:Hwalk; [|done].
  intros [= <-]. split; [done|]. split; [by apply walk_dir|done].
Qed.

Lemma open_xt_new (fs0 : FS) q s :
  fs0 !! (q // s) = None → walk fs0 q = Ok tt →
  open_xt fs0 (q // s) = Ok (<[q // s := File ""]> fs0).
Proof. intros Hnone Hwalk. unfold open_xt. cbn [parent]. by rewrite Hnone, Hwalk. Qed.

(** A folder that [mkdir] has made, with or without its parents, can be
    walked to. *)
Lemma path_mkdir_created parents (fs0 fs1 : FS) p :
  path_mkdir parents false fs0 p = Ok fs1 → walk fs1 p = Ok tt.
Proof.
  destruct p as [|q s]; cbn [path_mkdir].
  - destruct (os_mkdir fs0 Root) as [fs'|e] eqn:E.
    + intros [= <-]. by eapply os_mkdir_walk.
    + destruct e; try done. by destruct parents.
  - destruct (os_mkdir fs0 (q // s)) as [fs'|e] eqn:E.
    + intros [= <-]. by eapply os_mkdir_walk.
    + destruct e; try done. destruct parents; [|done].
      destruct (path_mkdir true true fs0 q) as [fs'|e']; [|done].
      unfold mkdir_here. destruct (os_mkdir fs' (q // s)) as [fs''|e] eqn:E'.
      * intros [= <-]. by eapply os_mkdir_walk.
      * by destruct e.
Qed.

Lemma open_xt_exists (fs0 : FS) p :
  is_Some (fs0 !! p) → open_xt fs0 p = Raise FileExistsError.
Proof. intros [n Hn]. unfold open_xt. by rewrite Hn. Qed.

(** ** What logging does to the world *)

Lemma log_message_world lf message w :
  log_message lf message w
  = ({| fs := file_write
                (file_write (fs w) (_f lf)
                            (now_str (clock w) +:+ TAB +:+ indent_newlines message))
                (_f lf) NL;
        stdout := stdout w
                  ++ [console_text (now_str (clock w) +:+ TAB +:+ indent_newlines message)];
        clock := S (clock w);
        next_handle := next_handle w;
        open_handles := open_handles w;
        trace := trace w |}, Ok tt).
Proof. reflexivity. Qed.

Lemma log_message_kind lf message w p :
  kind (fs (fst (log_message lf message w)) !! p) = kind (fs w !! p).
Proof. rewrite log_message_world. cbn. by rewrite !file_write_kind. Qed.

Lemma log_message_other lf message w p :
  p ≠ _f lf → fs (fst (log_message lf message w)) !! p = fs w !! p.
Proof.
  intros Hne. rewrite log_message_world. cbn.
  by rewrite !file_write_other.
Qed.

(** ** Writing the reports *)

Lemma bind_ok {S A B} (m : ST S A) (k : A → ST S B) s s1 a :
  m s = (s1, Ok a) → bind m k s = k a s1.
Proof. intros H. unfold bind. by rewrite H. Qed.

Lemma bind_raise {S A B} (m : ST S A) (k : A → ST S B) s s1 e :
  m s = (s1, Raise e) → bind m k s = (s1, Raise e).
Proof. intros H. unfold bind. by rewrite H. Qed.

Lemma log_message_ok lf message w :
  log_message lf message w = (fst (log_message lf message w), Ok tt).
Proof. reflexivity. Qed.

Lemma fs_op_ok op w fs1 :
  op (fs w) = Ok fs1 → fs_op op w = (set_fs (fun _ => fs1) w, Ok tt).
Proof. intros H. unfold fs_op. by rewrite H. Qed.

Lemma fs_op_raise op w e :
  op (fs w) = Raise e → fs_op op w = (w, Raise e).
Proof. intros H. unfold fs_op. by rewrite H. Qed.

Lemma Child_neq p s : p // s ≠ p.
Proof. revert s. induction p as [|q IH t]; intros s; [done|]. intros [= H _]. by eapply IH. Qed.

Lemma path_mkdir_exist_ok (fs0 : FS) q s :
  walk fs0 q = Ok tt → is_file (fs0 !! (q // s)) = false →
  path_mkdir false true fs0 (q // s) = Ok (<[q // s := Dir]> fs0).
Proof.
  intros Hparent Hfile. cbn [path_mkdir]. unfold os_mkdir, path_is_dir. cbn [parent].
  destruct (fs0 !! (q // s)) as [[|c]|] eqn:E; [|done|by rewrite Hparent].
  cbn. by rewrite insert_id.
Qed.

Lemma walk_insert_dir (fs0 : FS) q s :
  walk fs0 q = Ok tt → walk (<[q // s := Dir]> fs0) (q // s) = Ok tt.
Proof.
  intros Hq. cbn [walk]. rewrite walk_insert_below, Hq. unfold entry_dir.
  by rewrite lookup_insert_eq.
Qed.

Lemma kind_is_Some n m : kind n = kind m → is_Some m → is_Some n.
Proof. destruct n as [[]|], m as [[]|]; try done; by intros _ [? [=]]. Qed.

(** ** Names of one entry *)

Lemma no_separator_split s : no_separator s = true → split_sep s = [s].
Proof.
  induction s as [|c s IH]; cbn [no_separator split_sep]; [done|].
  intros [[Hc _]%andb_true_iff Hs]%andb_true_iff.
  apply negb_true_iff in Hc. by rewrite Hc, IH.
Qed.

Lemma no_separator_no_nul s : no_separator s = true → has_nul s = false.
Proof.
  induction s as [|c s IH]; cbn [no_separator has_nul]; [done|].
  intros [[_ Hc]%andb_true_iff Hs]%andb_true_iff.
  apply negb_true_iff in Hc. by rewrite Hc, IH.
Qed.

Lemma plain_name_spec s :
  plain_name s = true → s ≠ "" ∧ s ≠ "." ∧ s ≠ ".." ∧ no_separator s = true.
Proof.
  unfold plain_name. rewrite !andb_true_iff, !negb_true_iff, !String.eqb_neq.
  by intros [[[? ?] ?] ?].
Qed.

Lemma plain_name_segments s : plain_name s = true → path_segments s = [s].
Proof.
  intros (H1 & H2 & _ & Hsep)%plain_name_spec. unfold path_segments.
  rewrite no_separator_split by done. by rewrite filter_cons, decide_True.
Qed.

Lemma plain_name_relative s : plain_name s = true → is_absolute s = false.
Proof.
  intros (_ & _ & _ & Hsep)%plain_name_spec. unfold is_absolute.
  destruct s as [|c s]; [done|]. cbn [no_separator] in Hsep.
  apply andb_true_iff in Hsep as [[Hc _]%andb_true_iff _].
  by apply negb_true_iff in Hc.
Qed.

Lemma joinpath_plain p s :
  plain_name s = true →
  joinpath p s = {| anchor := anchor p; joined := joined p ++ [s] |}.
Proof.
  intros H. unfold joinpath. by rewrite plain_name_relative, plain_name_segments.
Qed.

Lemma follow_plain (fs0 : FS) d parts :
  Forall (fun s => plain_name s = true) parts →
  follow fs0 d parts = Ok (foldl Child d parts).
Proof.
  intros H. revert d.
  induction H as [|s parts (_ & _ & Hs & _)%plain_name_spec _ IH]; intros d;
    cbn [follow foldl]; [done|].
  apply String.eqb_neq in Hs. rewrite Hs. apply IH.
Qed.

(** An entry that the file system holds under the path is the one that the
    path names. *)
Lemma locate_found (fs0 : FS) p :
  is_Some (fs0 !! as_path p) → locate fs0 p = Ok (as_path p).
Proof. intros [n Hn]. unfold locate. by rewrite Hn. Qed.

Lemma plain_names_no_nul parts :
  Forall (fun s => plain_name s = true) parts → existsb has_nul parts = false.
Proof.
  induction 1 as [|s parts (_ & _ & _ & Hs)%plain_name_spec _ IH]; cbn; [done|].
  by rewrite no_separator_no_nul.
Qed.

(** A path joined from names of one entry each names the entry that it
    spells, whatever the file system holds. *)
Lemma locate_plain (fs0 : FS) p :
  Forall (fun s => plain_name s = true) (joined p) → locate fs0 p = Ok (as_path p).
Proof.
  intros H. unfold locate. destruct (fs0 !! as_path p); [done|].
  rewrite plain_names_no_nul by done. by apply follow_plain.
Qed.

Lemma path_parts_foldl a l : path_parts (foldl Child a l) = rev l ++ path_parts a.
Proof.
  revert a. induction l as [|s l IH]; intros a; cbn [foldl]; [done|].
  rewrite IH. cbn [path_parts rev]. by rewrite <- app_assoc.
Qed.

(** On a file system of resolved paths, the entry that a path names is
    the one that following its parts leads to. *)
Lemma locate_canonical (fs0 : FS) p :
  map_Forall (fun q _ => plain_path q) fs0 →
  locate fs0 p
  = if existsb has_nul (joined p) then Raise ValueError
    else follow fs0 (anchor p) (joined p).
Proof.
  intros Hplain. unfold locate. destruct (fs0 !! as_path p) as [n|] eqn:E; [|done].
  specialize (Hplain _ _ E). unfold plain_path, as_path in Hplain.
  rewrite path_parts_foldl in Hplain. apply Forall_app in Hplain as [Hj _].
  apply Forall_rev in Hj. rewrite rev_involutive in Hj.
  rewrite plain_names_no_nul by done. by rewrite follow_plain.
Qed.

Lemma out_dir_path_plain out spec :
  plain_name (sanitize_filename (service spec)) = true →
  out_dir_path out spec
  = {| anchor := out; joined := [sanitize_filename (service spec)] |}.
Proof. intros H. unfold out_dir_path. by rewrite joinpath_plain. Qed.

Lemma out_file_path_plain out spec :
  plain_name (sanitize_filename (service spec)) = true →
  plain_name (sanitize_filename (name spec) +:+ ".json") = true →
  out_file_path out spec
  = {| anchor := out;
       joined := [sanitize_filename (service spec);
                  sanitize_filename (name spec) +:+ ".json"] |}.
Proof.
  intros Hs Hn. unfold out_file_path. by rewrite out_dir_path_plain, joinpath_plain.
Qed.

(** For a service and a file name of one entry each, the report stands
    where the layout says. *)
Lemma report_dir_plain out spec :
  plain_name (sanitize_filename (service spec)) = true →
  report_dir out spec = out // sanitize_filename (service spec).
Proof. intros H. unfold report_dir. by rewrite out_dir_path_plain. Qed.

Lemma report_file_plain out spec :
  plain_name (sanitize_filename (service spec)) = true →
  plain_name (sanitize_filename (name spec) +:+ ".json") = true →
  report_file out spec
  = out // sanitize_filename (service spec)
        // (sanitize_filename (name spec) +:+ ".json").
Proof. intros Hs Hn. unfold report_file. by rewrite out_file_path_plain. Qed.

Lemma locate_out_dir_path (fs0 : FS) out spec :
  plain_name (sanitize_filename (service spec)) = true →
  locate fs0 (out_dir_path out spec) = Ok (report_dir out spec).
Proof.
  intros Hs. apply locate_plain. rewrite out_dir_path_plain by done.
  by repeat constructor.
Qed.

Lemma locate_out_file_path (fs0 : FS) out spec :
  plain_name (sanitize_filename (service spec)) = true →
  plain_name (sanitize_filename (name spec) +:+ ".json") = true →
  locate fs0 (out_file_path out spec) = Ok (report_file out spec).
Proof.
  intros Hs Hn. apply locate_plain. rewrite out_file_path_plain by done.
  by repeat constructor.
Qed.

Lemma mkdir_at_ok p d w fs1 :
  locate (fs w) p = Ok d → path_mkdir false true (fs w) d = Ok fs1 →
  mkdir_at p w = (set_fs (fun _ => fs1) w, Ok tt).
Proof. intros Hl Hmk. unfold mkdir_at. apply fs_op_ok. by rewrite Hl. Qed.

Lemma mkdir_at_raise p d w e :
  locate (fs w) p = Ok d → path_mkdir false true (fs w) d = Raise e →
  mkdir_at p w = (w, Raise e).
Proof. intros Hl Hmk. unfold mkdir_at. apply fs_op_raise. by rewrite Hl. Qed.

Lemma open_xt_at_ok p f w fs1 :
  locate (fs w) p = Ok f → open_xt (fs w) f = Ok fs1 →
  open_xt_at p w = (set_fs (fun _ => fs1) w, Ok f).
Proof. intros Hl Hopen. unfold open_xt_at. by rewrite Hl, Hopen. Qed.

Lemma open_xt_at_raise p f w e :
  locate (fs w) p = Ok f → open_xt (fs w) f = Raise e →
  open_xt_at p w = (w, Raise e).
Proof. intros Hl Hopen. unfold open_xt_at. by rewrite Hl, Hopen. Qed.

Lemma write_report_empty (log : string → M unit) out spec envelope w :
  result envelope = [] →
  write_report log out (spec, envelope) w
  = (log ("Results acquired for " +:+ name spec) >>>
     log (name spec +:+ " had not results, skipping")) w.
Proof. intros H. unfold write_report. cbn [fst snd]. by rewrite H. Qed.

(** What [write_report] leaves behind once the report has been opened. *)
Lemma write_report_dumped lf out spec envelope w :
  result envelope ≠ [] →
  plain_name (sanitize_filename (service spec)) = true →
  plain_name (sanitize_filename (name spec) +:+ ".json") = true →
  walk (fs w) out = Ok tt →
  is_file (fs w !! report_dir out spec) = false →
  fs w !! report_file out spec = None →
  ∃ w',
    write_report (log_message lf) out (spec, envelope) w
    = (w', match snd (json_dump envelope) with Some e => Raise e | None => Ok tt end)
    ∧ fs w' !! report_file out spec = Some (File (fst (json_dump envelope)))
    ∧ (∀ p, kind (fs w' !! p)
            = if decide (p = report_file out spec) then Some true
              else if decide (p = report_dir out spec) then Some false
                   else kind (fs w !! p))
    ∧ (∀ p, p ≠ report_file out spec → p ≠ report_dir out spec → p ≠ _f lf →
            fs w' !! p = fs w !! p).
Proof.
  intros Hne Hps Hpn Hout Hdir Hfile.
  pose proof (report_dir_plain out spec Hps) as Erd.
  pose proof (report_file_plain out spec Hps Hpn) as Erf.
  pose proof (fun f => locate_out_dir_path f out spec Hps) as Hld.
  pose proof (fun f => locate_out_file_path f out spec Hps Hpn) as Hlf.
  unfold write_report. cbn [fst snd].
  destruct (result envelope) as [|row rows]; [done|]. clear Hne.
  fold (report_file out spec).
  set (rd := report_dir out spec) in *. set (rf := report_file out spec) in *.
  assert (rf ≠ rd) as Hrfd by (rewrite Erf, Erd; apply Child_neq).
  set (w1 := fst (log_message lf ("Results acquired for " +:+ name spec) w)).
  assert (walk (fs w1) out = Ok tt) as Hout1.
  { rewrite (walk_kinds (fs w)); [done|]. intros q. apply log_message_kind. }
  assert (path_mkdir false true (fs w1) rd = Ok (<[rd := Dir]> (fs w1))) as Hmk.
  { rewrite Erd. apply path_mkdir_exist_ok; [done|]. rewrite <- Erd.
    rewrite kind_is_file in *. unfold w1. by rewrite log_message_kind. }
  set (w2 := set_fs (fun _ => <[rd := Dir]> (fs w1)) w1).
  set (w3 := fst (log_message lf ("Generating output at " +:+ path_str rf) w2)).
  assert (∀ p, kind (fs w3 !! p)
               = if decide (p = rd) then Some false else kind (fs w !! p)) as Hk3.
  { intros p. unfold w3. rewrite log_message_kind. unfold w2. cbn [fs set_fs].
    destruct (decide (p = rd)) as [->|Hp].
    - by rewrite lookup_insert_eq.
    - rewrite lookup_insert_ne by done. unfold w1. by rewrite log_message_kind. }
  assert (open_xt (fs w3) rf = Ok (<[rf := File ""]> (fs w3))) as Hopen.
  { rewrite Erf. apply open_xt_new.
    - rewrite <- Erf. apply kind_None. rewrite Hk3, decide_False by done.
      by rewrite Hfile.
    - rewrite (walk_kinds (fs w2)) by (intros q; apply log_message_kind).
      unfold w2. cbn [fs set_fs]. rewrite Erd. by apply walk_insert_dir. }
  eexists. split.
  { erewrite bind_ok by apply log_message_ok. fold w1.
    erewrite bind_ok by (eapply mkdir_at_ok; [apply Hld|exact Hmk]). fold w2.
    erewrite bind_ok by apply log_message_ok. fold w3.
    erewrite bind_ok by (eapply open_xt_at_ok; [apply Hlf|exact Hopen]).
    unfold bind, modify, ret, raise.
    destruct (snd (json_dump envelope)); reflexivity. }
  cbn [fs set_fs].
  assert (∀ p, file_write (<[rf := File ""]> (fs w3)) rf (fst (json_dump envelope)) !! p
               = if decide (p = rf) then Some (File (fst (json_dump envelope)))
                 else fs w3 !! p) as Hfinal.
  { intros p. rewrite file_write_lookup. destruct (decide (p = rf)) as [->|Hp].
    - rewrite lookup_insert_eq, decide_True by done. done.
    - rewrite lookup_insert_ne by done. destruct (fs w3 !! p) as [[|c]|]; try done.
      by rewrite decide_False. }
  split; [by rewrite Hfinal, decide_True|]. split.
  - intros p. rewrite Hfinal. destruct (decide (p = rf)); [done|]. apply Hk3.
  - intros p Hp1 Hp2 Hp3. rewrite Hfinal, decide_False by done.
    unfold w3. rewrite log_message_other by done. unfold w2. cbn [fs set_fs].
    rewrite lookup_insert_ne by done. unfold w1. by rewrite log_message_other.
Qed.

Lemma write_report_written lf out spec envelope w :
  result envelope ≠ [] →
  plain_name (sanitize_filename (service spec)) = true →
  plain_name (sanitize_filename (name spec) +:+ ".json") = true →
  walk (fs w) out = Ok tt →
  is_file (fs w !! report_dir out spec) = false →
  fs w !! report_file out spec = None →
  snd (json_dump envelope) = None →
  ∃ w',
    write_report (log_message lf) out (spec, envelope) w = (w', Ok tt)
    ∧ fs w' !! report_file out spec = Some (File (fst (json_dump envelope)))
    ∧ (∀ p, kind (fs w' !! p)
            = if decide (p = report_file out spec) then Some true
              else if decide (p = report_dir out spec) then Some false
                   else kind (fs w !! p))
    ∧ (∀ p, p ≠ report_file out spec → p ≠ report_dir out spec → p ≠ _f lf →
            fs w' !! p = fs w !! p).
Proof.
  intros Hne Hps Hpn Hout Hdir Hfile Hjson.
  destruct (write_report_dumped lf out spec envelope w Hne Hps Hpn Hout Hdir Hfile)
    as (w' & Hrun & Hrest).
  rewrite Hjson in Hrun. by exists w'.
Qed.

Lemma path_mkdir_existing_dir (fs0 : FS) p :
  fs0 !! p = Some Dir → path_mkdir false true fs0 p = Ok fs0.
Proof.
  intros H. destruct p; cbn [path_mkdir]; unfold os_mkdir, path_is_dir;
    by rewrite H.
Qed.

(** When something already stands at the path of the report, the exclusive
    open fails and nothing but the log has changed. *)
Lemma write_report_target_exists lf out spec envelope w :
  result envelope ≠ [] →
  fs w !! report_dir out spec = Some Dir →
  is_Some (fs w !! report_file out spec) →
  ∃ w',
    write_report (log_message lf) out (spec, envelope) w = (w', Raise FileExistsError)
    ∧ (∀ p, kind (fs w' !! p) = kind (fs w !! p))
    ∧ (∀ p, p ≠ _f lf → fs w' !! p = fs w !! p).
Proof.
  intros Hne Hdir Hfile.
  unfold write_report. cbn [fst snd].
  destruct (result envelope) as [|row rows]; [done|]. clear Hne.
  fold (report_file out spec).
  set (rd := report_dir out spec) in *. set (rf := report_file out spec) in *.
  set (w1 := fst (log_message lf ("Results acquired for " +:+ name spec) w)).
  assert (fs w1 !! rd = Some Dir) as Hdir1.
  { apply kind_Dir. unfold w1. rewrite log_message_kind. by apply kind_Dir. }
  assert (locate (fs w1) (out_dir_path out spec) = Ok rd) as Hld.
  { apply locate_found. fold (report_dir out spec). fold rd. by rewrite Hdir1. }
  assert (path_mkdir false true (fs w1) rd = Ok (fs w1)) as Hmk.
  { by apply path_mkdir_existing_dir. }
  set (w2 := set_fs (fun _ => fs w1) w1).
  set (w3 := fst (log_message lf ("Generating output at " +:+ path_str rf) w2)).
  assert (is_Some (fs w3 !! rf)) as Hfile3.
  { apply (kind_is_Some _ (fs w !! rf)); [|done].
    unfold w3. rewrite log_message_kind. unfold w2. cbn [fs set_fs].
    unfold w1. apply log_message_kind. }
  assert (locate (fs w3) (out_file_path out spec) = Ok rf) as Hlf.
  { apply locate_found. by fold (report_file out spec). }
  assert (open_xt (fs w3) rf = Raise FileExistsError) as Hopen.
  { by apply open_xt_exists. }
  exists w3. split; [|split].
  - erewrite bind_ok by apply log_message_ok. fold w1.
    erewrite bind_ok by (eapply mkdir_at_ok; [exact Hld|exact Hmk]). fold w2.
    erewrite bind_ok by apply log_message_ok. fold w3.
    erewrite bind_raise by (eapply open_xt_at_raise; [exact Hlf|exact Hopen]).
    reflexivity.
  - intros p. unfold w3. rewrite log_message_kind. unfold w2. cbn [fs set_fs].
    unfold w1. apply log_message_kind.
  - intros p Hp. unfold w3. rewrite log_message_other by done.
    unfold w2. cbn [fs set_fs]. unfold w1. by apply log_message_other.
Qed.

(** C7, amended.  For an item that [main] receives from [run_all]: when its
    result is empty the loop only logs that the results were acquired and
    that the artifact had none, and creates nothing.  When its result is
    not empty and the sanitized service and the sanitized name with
    [".json"] are each the name of one entry (not empty, not ["."] or
    [".."], without separator or NUL), the output folder can be walked to,
    nothing but possibly a directory stands at the path of the service's
    directory, nothing stands at the path of the report and [json.dump]
    completes, the loop ends normally with exactly one more file than
    before, at [out / sanitize(service) / (sanitize(name) + ".json")],
    holding what [json.dump] wrote for the envelope.  When its result is
    not empty, the directory of the service is there and something already
    stands at the path of the report, the exclusive open raises
    FileExistsError: no entry has been created or removed, and no file but
    the log has changed. *)
Theorem report_written_or_skipped (lf : SimpleLog) (out : Path)
    (spec : ArtifactSpec) (envelope : Envelope) (w : World) :
  (result envelope = [] →
   write_report (log_message lf) out (spec, envelope) w
   = (log_message lf ("Results acquired for " +:+ name spec) >>>
      log_message lf (name spec +:+ " had not results, skipping")) w
   ∧ snd (write_report (log_message lf) out (spec, envelope) w) = Ok tt
   ∧ (∀ p, kind (fs (fst (write_report (log_message lf) out (spec, envelope) w)) !! p)
           = kind (fs w !! p)))
  ∧ (result envelope ≠ [] →
     plain_name (sanitize_filename (service spec)) = true →
     plain_name (sanitize_filename (name spec) +:+ ".json") = true →
     walk (fs w) out = Ok tt →
     is_file (fs w !! (out // sanitize_filename (service spec))) = false →
     fs w !! (out // sanitize_filename (service spec)
                  // (sanitize_filename (name spec) +:+ ".json")) = None →
     snd (json_dump envelope) = None →
     ∃ w',
       write_report (log_message lf) out (spec, envelope) w = (w', Ok tt)
       ∧ fs w' !! (out // sanitize_filename (service spec)
                       // (sanitize_filename (name spec) +:+ ".json"))
         = Some (File (fst (json_dump envelope)))
       ∧ fs w' !! (out // sanitize_filename (service spec)) = Some Dir
       ∧ (∀ p, is_file (fs w' !! p) = true
               ↔ is_file (fs w !! p) = true
                 ∨ p = out // sanitize_filename (service spec)
                           // (sanitize_filename (name spec) +:+ ".json")))
  ∧ (result envelope ≠ [] →
     fs w !! report_dir out spec = Some Dir →
     is_Some (fs w !! report_file out spec) →
     ∃ w',
       write_report (log_message lf) out (spec, envelope) w
       = (w', Raise FileExistsError)
       ∧ (∀ p, kind (fs w' !! p) = kind (fs w !! p))
       ∧ (∀ p, p ≠ _f lf → fs w' !! p = fs w !! p)).
Proof.
  split; [|split].
  - intros Hempty. rewrite write_report_empty by done.
    split; [done|]. split; [done|].
    intros p. unfold bind. rewrite (log_message_ok lf _ w).
    by rewrite !log_message_kind.
  - intros Hne Hps Hpn Hout. rewrite <- (report_file_plain out spec Hps Hpn).
    rewrite <- (report_dir_plain out spec Hps). intros Hdir Hfile Hjson.
    destruct (write_report_written lf out spec envelope w
                Hne Hps Hpn Hout Hdir Hfile Hjson)
      as (w' & Hrun & Hrf & Hkind & _).
    exists w'. split; [exact Hrun|]. split; [exact Hrf|].
    assert (report_dir out spec ≠ report_file out spec) as Hneq.
    { rewrite (report_file_plain out spec Hps Hpn), (report_dir_plain out spec Hps).
      intros Heq. symmetry in Heq. revert Heq. apply Child_neq. }
    split.
    + apply kind_Dir. rewrite Hkind, decide_False, decide_True by done. done.
    + intros p. rewrite !kind_is_file, Hkind, !bool_decide_eq_true.
      destruct (decide (p = report_file out spec)) as [->|Hp].
      { split; [by right|done]. }
      destruct (decide (p = report_dir out spec)) as [->|Hp'].
      * rewrite kind_is_file, bool_decide_eq_false in Hdir.
        split; [done|]. by intros [Hk|Heq].
      * split; [by left|]. by intros [Hk|Heq].
  - apply write_report_target_exists.
Qed.

(** ** Files that were there before the run *)

Section Keeps.

Variable fs0 : FS.

(** [m] keeps the files of [fs0], and [Q] holds of what it returns. *)
Definition keeps_with {A} (m : M A) (Q : A → Prop) : Prop :=
  ∀ w, kept fs0 (fs w) →
       kept fs0 (fs (fst (m w))) ∧ ∀ a, snd (m w) = Ok a → Q a.

Definition keeps {A} (m : M A) : Prop := keeps_with m (fun _ => True).

Lemma keeps_weaken {A} (m : M A) Q : keeps_with m Q → keeps m.
Proof. intros H w Hw. split; [by apply H|done]. Qed.

Lemma keeps_bind_with {A B} (m : M A) (k : A → M B) Q Q' :
  keeps_with m Q → (∀ a, Q a → keeps_with (k a) Q') → keeps_with (bind m k) Q'.
Proof.
  intros Hm Hk w Hw. destruct (Hm w Hw) as [Hkept HQ]. unfold bind.
  destruct (m w) as [w1 [a|e]]; cbn [fst snd] in *.
  - by apply Hk; [apply HQ|].
  - done.
Qed.

Lemma keeps_bind {A B} (m : M A) (k : A → M B) Q' :
  keeps m → (∀ a, keeps_with (k a) Q') → keeps_with (bind m k) Q'.
Proof. intros Hm Hk. apply keeps_bind_with with (Q := fun _ => True); auto. Qed.

Lemma keeps_ret {A} (a : A) (Q : A → Prop) : Q a → keeps_with (ret a) Q.
Proof. intros HQ w Hw. split; [done|]. by intros a' [= <-]. Qed.

Lemma keeps_raise {A} e (Q : A → Prop) : keeps_with (raise e) Q.
Proof. by intros w Hw. Qed.

Lemma keeps_lift_exc {A} (r : Exc A) : keeps (lift_exc r).
Proof. by intros w Hw. Qed.

Lemma keeps_gets {A} (f : World → A) : keeps (gets f).
Proof. by intros w Hw. Qed.

Lemma keeps_same_fs {A} (m : M A) :
  (∀ w, fs (fst (m w)) = fs w) → keeps m.
Proof. intros H w Hw. by rewrite H. Qed.

Lemma keeps_fs_op op :
  (∀ f f', op f = Ok f' → f ⊆ f') → keeps (fs_op op).
Proof.
  intros Hop w Hw. split; [|done]. unfold fs_op.
  destruct (op (fs w)) as [f'|e] eqn:E; [|done]. cbn.
  intros p c Hp. eapply lookup_weaken; [by apply Hw|by apply Hop].
Qed.

Lemma keeps_open_xt p :
  keeps_with (fs_op (fun f => open_xt f p)) (fun _ => is_file (fs0 !! p) = false).
Proof.
  intros w Hw. unfold fs_op.
  destruct (open_xt (fs w) p) as [f'|e] eqn:E; [|done].
  apply open_xt_ok in E as (Hnone & _ & ->). cbn. split.
  - intros q c Hq. eapply lookup_weaken; [by apply Hw|by apply insert_subseteq].
  - intros _ _. destruct (fs0 !! p) as [[|c]|] eqn:E0; try done.
    apply Hw in E0. congruence.
Qed.

Lemma keeps_open_xt_at p :
  keeps_with (open_xt_at p) (fun f => is_file (fs0 !! f) = false).
Proof.
  intros w Hw. unfold open_xt_at.
  destruct (locate (fs w) p) as [f|e]; [|done].
  destruct (open_xt (fs w) f) as [f'|e] eqn:E; [|done].
  apply open_xt_ok in E as (Hnone & _ & ->). cbn. split.
  - intros q c Hq. eapply lookup_weaken; [by apply Hw|by apply insert_subseteq].
  - intros a [= <-]. destruct (fs0 !! f) as [[|c]|] eqn:E0; try done.
    apply Hw in E0. congruence.
Qed.

Lemma keeps_file_write p text :
  is_file (fs0 !! p) = false →
  keeps (modify (set_fs (fun f => file_write f p text))).
Proof.
  intros Hp w Hw. split; [|done]. cbn. intros q c Hq.
  rewrite file_write_other; [by apply Hw|]. intros ->. by rewrite Hq in Hp.
Qed.

Lemma keeps_log_message lf message :
  is_file (fs0 !! _f lf) = false → keeps (log_message lf message).
Proof.
  intros Hlf. unfold log_message.
  apply keeps_bind; [by apply keeps_same_fs|]. intros t.
  apply keeps_bind; [by apply keeps_file_write|]. intros _.
  apply keeps_bind; [by apply keeps_file_write|]. intros _.
  by apply keeps_same_fs.
Qed.

(** A log sink that does not write into a file of [fs0]. *)
Definition sink_outside (cb : LogCallback) : Prop :=
  match cb with
  | BoundLogMessage lf => is_file (fs0 !! _f lf) = false
  | LogFallback => True
  end.

Lemma keeps_call_log cb message : sink_outside cb → keeps (call_log cb message).
Proof.
  destruct cb; cbn; intros H; [by apply keeps_log_message|by apply keeps_same_fs].
Qed.

Lemma keeps_for_each {A} (xs : list A) (body : A → M unit) :
  (∀ x, keeps (body x)) → keeps (for_each xs body).
Proof.
  intros Hbody. induction xs as [|x xs IH]; cbn [for_each].
  - by apply keeps_ret.
  - apply keeps_bind; [apply Hbody|]. intros _. apply IH.
Qed.

Lemma keeps_async_for {A} (gen : list (Exc A)) (body : A → M unit) :
  (∀ x, keeps (body x)) → keeps (async_for gen body).
Proof.
  intros Hbody. induction gen as [|[a|e] gen IH]; cbn [async_for].
  - by apply keeps_ret.
  - apply keeps_bind; [apply Hbody|]. intros _. apply IH.
  - apply keeps_raise.
Qed.

Lemma keeps_finally {A} (m : M A) cleanup :
  (∀ w, fs (cleanup w) = fs w) → keeps m → keeps (finally m cleanup).
Proof.
  intros Hc Hm w Hw. split; [|done]. unfold finally.
  destruct (Hm w Hw) as [Hk _]. destruct (m w) as [w1 r]. cbn in *.
  by rewrite Hc.
Qed.

Lemma keeps__run_artifact self spec :
  sink_outside (_log_callback self) → keeps (_run_artifact self spec).
Proof.
  intros Hcb. unfold _run_artifact.
  apply keeps_bind; [by apply keeps_same_fs|]. intros h.
  apply keeps_finally; [done|].
  apply keeps_bind; [by apply keeps_same_fs|]. intros _.
  apply keeps_bind; [apply keeps_for_each; intros m; by apply keeps_call_log|].
  intros _. apply keeps_bind; [apply keeps_lift_exc|]. intros r.
  by apply keeps_ret.
Qed.

Lemma keeps_run_tasks coros :
  (∀ self spec, Co_run_artifact self spec ∈ coros → sink_outside (_log_callback self)) →
  keeps (run_tasks coros).
Proof.
  induction coros as [|c rest IH]; intros Hcb; cbn [run_tasks].
  - by apply keeps_ret.
  - apply keeps_bind.
    + intros w Hw. split; [|done]. rewrite run_task_ok. cbn [fst].
      destruct c as [self spec]. cbn [await].
      apply keeps__run_artifact; [|done]. eapply Hcb. by left.
    + intros done. apply keeps_bind.
      * apply IH. intros self spec Hin. eapply Hcb. by right.
      * intros others. by apply keeps_ret.
Qed.

Lemma keeps_write_report lf out item :
  is_file (fs0 !! _f lf) = false → keeps (write_report (log_message lf) out item).
Proof.
  intros Hlf. unfold write_report.
  apply keeps_bind; [by apply keeps_log_message|]. intros _.
  destruct (result (snd item)); [by apply keeps_log_message|].
  apply keeps_bind.
  { apply keeps_fs_op. intros f f' H. destruct (locate f _); [|done].
    by apply path_mkdir_subseteq in H as [? _]. }
  intros _. apply keeps_bind; [by apply keeps_log_message|]. intros _.
  eapply keeps_bind_with; [apply keeps_open_xt_at|]. cbn beta. intros f Hout.
  apply keeps_bind; [by apply keeps_file_write|]. intros _.
  destruct (snd (json_dump (snd item))); [apply keeps_raise|by apply keeps_ret].
Qed.

Lemma keeps_main args :
  (∀ coros, set_iteration coros ≡ₚ coros) → keeps (main args).
Proof.
  intros Hperm. unfold main.
  apply keeps_bind.
  { unfold args_get. destruct (args !! 0%nat); [by apply keeps_ret|apply keeps_raise]. }
  intros profile_input_path. apply keeps_bind.
  { unfold args_get. destruct (args !! 1%nat); [by apply keeps_ret|apply keeps_raise]. }
  intros report_out_folder_path.
  apply keeps_bind; [by apply keeps_same_fs|]. intros _.
  apply keeps_bind; [apply keeps_gets|]. intros [|]; [|apply keeps_raise]. cbn [negb].
  apply keeps_bind; [apply keeps_gets|]. intros [|]; [apply keeps_raise|].
  apply keeps_bind.
  { apply keeps_fs_op. intros f f' H. by apply path_mkdir_subseteq in H as [? _]. }
  intros _. apply keeps_bind; [by apply keeps_same_fs|]. intros t.
  eapply keeps_bind_with with (Q := fun lf => is_file (fs0 !! _f lf) = false).
  { unfold SimpleLog_init. eapply keeps_bind_with; [apply keeps_open_xt|].
    cbn beta. intros _ Hlog. apply keeps_ret. exact Hlog. }
  intros log_file Hlog.
  eapply keeps_bind_with
    with (Q := fun mr_sl => _log_callback mr_sl = BoundLogMessage log_file).
  { unfold MisterSkinnylegs_init.
    apply keeps_bind; [apply keeps_lift_exc|]. intros loader.
    apply keeps_bind; [apply keeps_gets|]. intros [|]; [|apply keeps_raise].
    by apply keeps_ret. }
  intros mr_sl Hcb.
  do 5 (apply keeps_bind; [by apply keeps_log_message|]; intros _).
  apply keeps_bind.
  { apply keeps_for_each. intros e. by apply keeps_log_message. }
  intros _.
  do 2 (apply keeps_bind; [by apply keeps_log_message|]; intros _).
  apply keeps_bind.
  { unfold run_all, as_completed. apply keeps_run_tasks.
    intros self spec Hin. rewrite Hperm in Hin. unfold tasks in Hin.
    apply list_elem_of_fmap in Hin as (e & [= -> _] & _).
    by rewrite Hcb. }
  intros gen. apply keeps_async_for. intros item. by apply keeps_write_report.
Qed.

End Keeps.

(** C9.  The log file and the report files are opened in exclusive-create
    mode: where something already stands at the path the open raises
    FileExistsError and the file system is as before (for the report: but
    for the lines that went into the log); and over a whole run of [main],
    however it ends, every file that was there at the start is still there
    with the content it had. *)
Theorem never_overwrites (args : list Path) (w0 : World) (lf : SimpleLog)
    (out : Path) (spec : ArtifactSpec) (envelope : Envelope) (p : Path)
    (w : World) :
  (∀ coros, set_iteration coros ≡ₚ coros) →
  (is_Some (fs w !! p) → SimpleLog_init p w = (w, Raise FileExistsError))
  ∧ (result envelope ≠ [] →
     fs w !! report_dir out spec = Some Dir →
     is_Some (fs w !! report_file out spec) →
     ∃ w', write_report (log_message lf) out (spec, envelope) w
           = (w', Raise FileExistsError)
           ∧ (∀ q, q ≠ _f lf → fs w' !! q = fs w !! q))
  ∧ (∀ q c, fs w0 !! q = Some (File c) →
            fs (fst (main args w0)) !! q = Some (File c)).
Proof.
  intros Hperm. split; [|split].
  - intros Hp. unfold SimpleLog_init.
    erewrite bind_raise; [done|]. by apply fs_op_raise, open_xt_exists.
  - intros Hne Hdir Hfile.
    destruct (write_report_target_exists lf out spec envelope w Hne Hdir Hfile)
      as (w' & Hrun & _ & Hother).
    by exists w'.
  - intros q c Hq.
    destruct (keeps_main (fs w0) args Hperm w0) as [Hkept _]; [by intros ? ?|].
    by apply Hkept.
Qed.

(** ** Starting up *)

Lemma names_of_app cat1 cat2 : names_of (cat1 ++ cat2) = names_of cat1 ++ names_of cat2.
Proof. unfold names_of. apply map_app. Qed.

(** The loader accepts the descriptors found exactly when their names are
    pairwise different. *)
Lemma load_descriptors_spec cat found :
  NoDup (names_of cat) →
  (NoDup (names_of (cat ++ found)) → load_descriptors cat found = Ok (cat ++ found))
  ∧ (¬ NoDup (names_of (cat ++ found)) →
     load_descriptors cat found = Raise DuplicateArtifactName).
Proof.
  revert cat. induction found as [|[spec path] rest IH]; intros cat Hcat.
  - rewrite app_nil_r. by split.
  - cbn [load_descriptors]. case_bool_decide as Hin.
    + split; [|done]. intros Hnd. exfalso.
      rewrite names_of_app in Hnd. apply NoDup_app in Hnd as (_ & Hdisj & _).
      apply (Hdisj _ Hin). cbn. by left.
    + replace (cat ++ (spec, path) :: rest) with ((cat ++ [(spec, path)]) ++ rest)
        by (by rewrite <- app_assoc).
      apply IH. rewrite names_of_app. apply NoDup_app.
      split; [done|]. split; [|apply NoDup_singleton].
      intros x Hx. cbn. rewrite list_elem_of_singleton. by intros ->.
Qed.

Lemma PluginLoader_init_duplicate plugin_path :
  ¬ NoDup (names_of (descriptors_in (plugin_modules plugin_path))) →
  PluginLoader_init plugin_path = Raise DuplicateArtifactName.
Proof.
  intros H. unfold PluginLoader_init.
  destruct (load_descriptors_spec [] (descriptors_in (plugin_modules plugin_path)))
    as [_ Hdup]; [constructor|].
  by rewrite Hdup.
Qed.

Lemma PluginLoader_init_unique plugin_path :
  NoDup (names_of (descriptors_in (plugin_modules plugin_path))) →
  PluginLoader_init plugin_path
  = Ok {| _plugins := descriptors_in (plugin_modules plugin_path) |}.
Proof.
  intros H. unfold PluginLoader_init.
  destruct (load_descriptors_spec [] (descriptors_in (plugin_modules plugin_path)))
    as [Hok _]; [constructor|].
  by rewrite Hok.
Qed.

(** C5, amended.  A profile path that is not a directory, and an output
    folder that already exists, stop [main] when it has printed the banner
    and nothing else has happened: no directory is created, no file written.
    A duplicate artifact name stops it later, at the construction of
    [MisterSkinnylegs]: by then the output folder, with the parents it
    lacked, and an empty log file in it have been created; no plugin has
    run and nothing has been logged. *)
Theorem startup_failures (profile_input_path report_out_folder_path : Path)
    (w : World) :
  (path_is_dir (fs w) profile_input_path = false →
   main [profile_input_path; report_out_folder_path] w
   = (print BANNER w, Raise NotADirectoryError))
  ∧ (path_is_dir (fs w) profile_input_path = true →
     path_exists (fs w) report_out_folder_path = true →
     main [profile_input_path; report_out_folder_path] w
     = (print BANNER w, Raise FileExistsError))
  ∧ (path_is_dir (fs w) profile_input_path = true →
     path_exists (fs w) report_out_folder_path = false →
     ¬ NoDup (names_of (descriptors_in (plugin_modules PLUGIN_PATH))) →
     ∀ fs1,
       path_mkdir true false (fs w) report_out_folder_path = Ok fs1 →
       fs1 !! (report_out_folder_path // ("log_" +:+ now_stamp (clock w) +:+ ".log"))
       = None →
       main [profile_input_path; report_out_folder_path] w
       = ({| fs := <[report_out_folder_path
                      // ("log_" +:+ now_stamp (clock w) +:+ ".log") := File ""]> fs1;
             stdout := stdout w ++ [BANNER];
             clock := S (clock w);
             next_handle := next_handle w;
             open_handles := open_handles w;
             trace := trace w |}, Raise DuplicateArtifactName)).
Proof.
  split; [|split].
  - intros Hdir. unfold main, args_get. unfold_st. cbn. by rewrite Hdir.
  - intros Hdir Hex. unfold main, args_get. unfold_st. cbn.
    rewrite Hdir. cbn. by rewrite Hex.
  - intros Hdir Hex Hdup fs1 Hmk Hlog.
    pose proof (path_mkdir_created _ _ _ _ Hmk) as Hout.
    unfold main, args_get, SimpleLog_init, MisterSkinnylegs_init, datetime_now.
    unfold_st. cbn -[walk]. rewrite Hdir. cbn -[walk]. rewrite Hex. cbn -[walk].
    rewrite Hmk. cbn -[walk].
    unfold open_xt. rewrite Hlog. cbn [parent]. rewrite Hout.
    by rewrite PluginLoader_init_duplicate.
Qed.

(** ** Sorting by a time key *)

Lemma decorate_spec key l :
  Forall (fun d => ∃ t, key d = Ok (VDatetime t)) l →
  ∃ dl, decorate key l = Ok dl
        ∧ map snd dl = l
        ∧ Forall timed dl
        ∧ Forall (fun x => key (snd x) = Ok (fst x)) dl.
Proof.
  induction 1 as [|d l [t Ht] _ (dl & Hdl & Hsnd & Htimed & Hkeys)].
  - by exists [].
  - exists ((VDatetime t, d) :: dl). cbn [decorate]. rewrite Ht, Hdl. cbn.
    split; [done|]. split; [by rewrite Hsnd|].
    split; constructor; try done. by exists t.
Qed.

Lemma decorate_ok key l dl :
  decorate key l = Ok dl →
  map snd dl = l ∧ Forall (fun x => key (snd x) = Ok (fst x)) dl.
Proof.
  revert dl. induction l as [|d l IH]; intros dl; cbn [decorate].
  - by intros [= <-].
  - destruct (key d) as [k|e] eqn:Ek; [|done]. cbn.
    destruct (decorate key l) as [rest|e] eqn:Er; [|done]. cbn.
    intros [= <-]. destruct (IH rest eq_refl) as [Hsnd Hkeys].
    split; [cbn; by rewrite Hsnd|]. by constructor.
Qed.

Lemma insert_by_key_sorted x l :
  timed x → Forall timed l → StronglySorted key_le l →
  ∃ l', insert_by_key x l = Ok l' ∧ l' ≡ₚ x :: l ∧ StronglySorted key_le l'.
Proof.
  intros [tx Hx] Htimed Hsorted.
  induction Hsorted as [|y l Hsorted IH Hy]; cbn [insert_by_key].
  - exists [x]. repeat split; [done|]. repeat constructor.
  - apply Forall_cons in Htimed as [[ty Hty] Htimed].
    rewrite Hty, Hx. cbn. destruct (ty <? tx)%Z eqn:Ecmp.
    + destruct (IH Htimed) as (l' & -> & Hperm & Hs'). cbn.
      exists (y :: l'). split; [done|]. split.
      * rewrite Hperm. apply Permutation_swap.
      * constructor; [done|]. rewrite Hperm. constructor; [|done].
        exists ty, tx. repeat split; try done. lia.
    + exists (x :: y :: l). split; [done|]. split; [done|].
      assert (key_le x y) as Hxy by (exists tx, ty; repeat split; try done; lia).
      constructor; [by constructor|]. constructor; [done|].
      eapply Forall_impl; [exact Hy|]. intros z (t1 & t2 & H1 & H2 & Hle).
      exists tx, t2. repeat split; try done. rewrite Hty in H1.
      injection H1 as <-. lia.
Qed.

Lemma sort_decorated_sorted l :
  Forall timed l →
  ∃ s, sort_decorated l = Ok s ∧ s ≡ₚ l ∧ StronglySorted key_le s.
Proof.
  induction 1 as [|x l Hx Hl (s & Hs & Hperm & Hsorted)]; cbn [sort_decorated].
  - exists []. repeat split; [done|]. constructor.
  - rewrite Hs. cbn.
    destruct (insert_by_key_sorted x s Hx) as (s' & Hins & Hperm' & Hsorted');
      [by rewrite Hperm|done|].
    exists s'. split; [done|]. split; [by rewrite Hperm', Hperm|done].
Qed.

Lemma undecorate_sorted k (s : list (PyVal * PyDict)) :
  Forall (fun x => getitem (snd x) k = Ok (fst x)) s →
  StronglySorted key_le s →
  sorted_by_time k (map snd s).
Proof.
  intros Hkeys Hsorted. unfold sorted_by_time.
  induction Hsorted as [|x s Hsorted IH Hx]; [constructor|].
  apply Forall_cons in Hkeys as [Hkx Hkeys]. cbn. constructor; [by apply IH|].
  apply Forall_fmap. rewrite Forall_forall in Hx, Hkeys |- *.
  intros y Hy. destruct (Hx y Hy) as (t1 & t2 & H1 & H2 & Hle).
  exists t1, t2. cbn. rewrite Hkx, (Hkeys y Hy), H1, H2. done.
Qed.

(** Sorting records that all have a datetime under [k] succeeds and gives
    them back in ascending order of that key. *)
Lemma list_sort_sorted k l :
  Forall (has_time k) l →
  ∃ s, list_sort (fun x => getitem x k) l = Ok s
       ∧ s ≡ₚ l ∧ sorted_by_time k s.
Proof.
  intros Hl. unfold list_sort.
  destruct (decorate_spec (fun x => getitem x k) l Hl)
    as (dl & -> & Hsnd & Htimed & Hkeys). cbn.
  destruct (sort_decorated_sorted dl Htimed) as (s & -> & Hperm & Hsorted). cbn.
  exists (map snd s). split; [done|]. split.
  - rewrite <- Hsnd. by apply fmap_Permutation.
  - apply undecorate_sorted; [|done]. by rewrite Hperm.
Qed.

(** ** The Google Drive results *)

Lemma bind_Ok_inv {S A B} (m : ST S A) (k : A → ST S B) s s' b :
  bind m k s = (s', Ok b) → ∃ a s1, m s = (s1, Ok a) ∧ k a s1 = (s', Ok b).
Proof.
  unfold bind. destruct (m s) as [s1 [a|e]]; [|done]. intros H. by exists a, s1.
Qed.

(** What holds of the records collected so far holds of all that a loop
    returns, if each round keeps it. *)
Lemma collect_Forall {S A R} (P : R → Prop) (xs : list A)
    (body : list R → A → ST S (list R)) :
  (∀ results x s s' results',
     Forall P results → body results x s = (s', Ok results') → Forall P results') →
  ∀ results s s' rs,
    Forall P results → collect xs results body s = (s', Ok rs) → Forall P rs.
Proof.
  intros Hbody. induction xs as [|x xs IH]; intros results s s' rs HP; cbn [collect].
  - by intros [= _ <-].
  - intros (results' & s1 & Hb & Hrest)%bind_Ok_inv.
    eapply IH; [|exact Hrest]. by eapply Hbody.
Qed.

(** A plugin function that collects records with a datetime under [k] and
    returns them sorted on [k] returns them in ascending order of [k]. *)
Lemma collected_then_sorted {A} k (xs : list A)
    (body : list PyDict → A → ST PluginState (list PyDict)) st st' r :
  (∀ results x s s' results',
     Forall (has_time k) results → body results x s = (s', Ok results') →
     Forall (has_time k) results') →
  (let! results := collect xs [] body in
   let! sorted := lift_exc (list_sort (fun x => getitem x k) results) in
   ret (ArtifactResult.mk sorted)) st = (st', Ok r) →
  sorted_by_time k (ArtifactResult.result r).
Proof.
  intros Hbody (results & s1 & Hcollect & Hrest)%bind_Ok_inv.
  apply bind_Ok_inv in Hrest as (sorted & s2 & Hsort & Hret).
  injection Hret as _ <-. cbn.
  assert (Forall (has_time k) results) as Htimes.
  { eapply collect_Forall; [exact Hbody| |exact Hcollect]. constructor. }
  destruct (list_sort_sorted k results Htimes) as (s & Hs & _ & Hsorted).
  unfold lift_exc in Hsort. rewrite Hs in Hsort. by injection Hsort as _ <-.
Qed.

Lemma Forall_snoc_has_time k results d :
  Forall (has_time k) results → has_time k d → Forall (has_time k) (results ++ [d]).
Proof. intros. apply Forall_app. split; [done|]. by constructor. Qed.

(** C10.  The ArtifactResult that a Google Drive function returns is a
    list of records in ascending order of its time key: [timestamp] for
    [folders_and_files] and [timeline_usage], [cache request time] for
    [thumbnails]. *)
Theorem google_drive_results_sorted (profile : ProfileData)
    (st st' : PluginState) (r : ArtifactResult) :
  (folders_and_files profile st = (st', Ok r) →
   sorted_by_time "timestamp" (ArtifactResult.result r))
  ∧ (thumbnails profile st = (st', Ok r) →
     sorted_by_time "cache request time" (ArtifactResult.result r))
  ∧ (timeline_usage profile st = (st', Ok r) →
     sorted_by_time "timestamp" (ArtifactResult.result r)).
Proof.
  split; [|split]; apply collected_then_sorted.
  - intros results history_rec s s' results' Hres.
    assert (∀ type name, has_time "timestamp" (history_entry history_rec type name))
      as Hentry by (intros; by exists (visit_time history_rec)).
    destruct (FOLDERS_URL_PATTERN_match _);
      [|destruct (FILES_URL_PATTERN_match _);
        [|destruct (DOCS_URL_PATTERN_match _)]];
      intros [= _ <-]; try done; by apply Forall_snoc_has_time.
  - intros results [idx rec] s s' results' Hres. cbn [fst snd].
    intros (content_disposition & s1 & _ & H)%bind_Ok_inv.
    apply bind_Ok_inv in H as (cache_filename & s2 & _ & H).
    apply bind_Ok_inv in H as (reference & s3 & _ & H).
    apply bind_Ok_inv in H as ([] & s4 & _ & H).
    injection H as _ <-. apply Forall_snoc_has_time; [done|].
    by exists (request_time (metadata rec)).
  - intros results rec s s' results' Hres.
    intros (ms & s1 & _ & H)%bind_Ok_inv.
    apply bind_Ok_inv in H as (timestamp & s2 & _ & H).
    injection H as _ <-. apply Forall_snoc_has_time; [done|].
    by exists timestamp.
Qed.

(** [folders_and_files] cannot raise. *)
Lemma folders_and_files_returns profile st :
  ∃ r, folders_and_files profile st = (st, Ok r).
Proof.
  unfold folders_and_files.
  assert (∀ xs results s,
            Forall (has_time "timestamp") results →
            ∃ rs, Forall (has_time "timestamp") rs ∧
              collect xs results
                (fun results history_rec =>
                   if FOLDERS_URL_PATTERN_match (url history_rec) then
                     ret (results ++ [history_entry history_rec "Folder"
                                        (rsplit1_first " - " (title history_rec))])
                   else if FILES_URL_PATTERN_match (url history_rec) then
                     ret (results ++ [history_entry history_rec "File"
                                        (rsplit1_first " - " (title history_rec))])
                   else
                     match DOCS_URL_PATTERN_match (url history_rec) with
                     | Some service_group =>
                         ret (results ++ [history_entry history_rec
                                            (str_title service_group)
                                            (rsplit1_first " - " (title history_rec))])
                     | None => ret results
                     end) s = (s : PluginState, Ok rs)) as Hcollect.
  { induction xs as [|x xs IH]; intros results s Hres; cbn [collect].
    - by exists results.
    - assert (∀ type name, has_time "timestamp" (history_entry x type name))
        as Hentry by (intros; by exists (visit_time x)).
      unfold bind at 1.
      destruct (FOLDERS_URL_PATTERN_match _);
        [|destruct (FILES_URL_PATTERN_match _);
          [|destruct (DOCS_URL_PATTERN_match _)]];
        unfold ret at 1; apply IH; try done; by apply Forall_snoc_has_time. }
  destruct (Hcollect (iterate_history_records profile _matches_file_listing_pattern)
              [] st) as (rs & Hrs & Hrun); [constructor|].
  destruct (list_sort_sorted "timestamp" rs Hrs) as (s & Hs & _).
  exists (ArtifactResult.mk s). unfold bind at 1. rewrite Hrun.
  unfold bind, lift_exc, ret. by rewrite Hs.
Qed.

(** * More of the Google Drive plugin *)

#[global] Instance Exn_eq_dec : EqDecision Exn.
Proof. solve_decision. Defined.
#[global] Instance PyVal_eq_dec : EqDecision PyVal.
Proof. solve_decision. Defined.
#[global] Instance Exc_eq_dec {A} `{EqDecision A} : EqDecision (Exc A).
Proof. solve_decision. Defined.

(** ** What one round of each loop does *)

(** The record that [folders_and_files] appends for a visit, if any. *)
Definition history_row (history_rec : HistoryRecord) : option PyDict :=
  if FOLDERS_URL_PATTERN_match (url history_rec) then
    Some (history_entry history_rec "Folder" (rsplit1_first " - " (title history_rec)))
  else if FILES_URL_PATTERN_match (url history_rec) then
    Some (history_entry history_rec "File" (rsplit1_first " - " (title history_rec)))
  else
    match DOCS_URL_PATTERN_match (url history_rec) with
    | Some service_group =>
        Some (history_entry history_rec (str_title service_group)
                            (rsplit1_first " - " (title history_rec)))
    | None => None
    end.

(** The record that [timeline_usage] appends for a session-storage entry,
    or the exception that the entry makes it raise. *)
Definition usage_row (rec : SessionStorageRecord) : Exc PyDict :=
  match int_of_str (value rec) with
  | None => Raise ValueError
  | Some ms =>
      match parse_unix_ms ms with
      | Raise e => Raise e
      | Ok timestamp =>
          Ok [("source", VStr "Session Storage");
              ("id", VInt (leveldb_sequence_number rec));
              ("type", VStr "Tab first start");
              ("timestamp", VDatetime timestamp)]
      end
  end.

(** The file name that [thumbnails] suggests for the [idx]-th cache record,
    or the exception that the record makes it raise. *)
Definition thumbnail_name (entry : nat * CacheRecord) : Exc string :=
  match get_attribute (metadata (snd entry)) "content-disposition" with
  | [] => Raise IndexError
  | content_disposition :: _ =>
      match filename_search content_disposition with
      | None => Raise AttributeError
      | Some cache_filename => Ok (pretty (fst entry) +:+ "_" +:+ cache_filename)
      end
  end.

Definition thumbnail_row (rec : CacheRecord) (reference : string) : PyDict :=
  [("url", VStr (rstrip "000"%char (key_url rec)));
   ("cache request time", VDatetime (request_time (metadata rec)));
   ("cache response time", VDatetime (response_time (metadata rec)));
   ("extracted file reference", VStr reference)].

(** The plugin state after the cache records of [items] have been exported
    under the names paired with them, and the records made of them. *)
Fixpoint exported (items : list (string * CacheRecord)) (st : PluginState)
  : PluginState * list PyDict :=
  match items with
  | [] => (st, [])
  | (out_filename, rec) :: rest =>
      let '(storage', reference) :=
        get_binary_stream (storage st) out_filename (data rec) in
      let '(st', rows) :=
        exported rest {| storage := storage';
                         logged := logged st
                                   ++ ["Exporting thumbnail to: " +:+ reference] |} in
      (st', thumbnail_row rec reference :: rows)
  end.

(** The body of the loop of [thumbnails]. *)
Definition thumbnails_body (results : list PyDict) (entry : nat * CacheRecord)
  : ST PluginState (list PyDict) :=
  let idx : nat := fst entry in
  let rec := snd entry in
  let! content_disposition :=
    match get_attribute (metadata rec) "content-disposition" with
    | v :: _ => ret v
    | [] => raise IndexError
    end in
  let! cache_filename :=
    match filename_search content_disposition with
    | Some group1 => ret group1
    | None => raise AttributeError
    end in
  let out_filename := pretty idx +:+ "_" +:+ cache_filename in
  let! reference := export_binary out_filename (data rec) in
  log_func ("Exporting thumbnail to: " +:+ reference) >>>
  ret (results ++
         [[("url", VStr (rstrip "000"%char (key_url rec)));
           ("cache request time", VDatetime (request_time (metadata rec)));
           ("cache response time", VDatetime (response_time (metadata rec)));
           ("extracted file reference", VStr reference)]]).

(** A string of decimal digits. *)
Fixpoint all_digits (s : string) : bool :=
  match s with
  | EmptyString => true
  | String c s' =>
      (48 <=? nat_of_ascii c)%nat && (nat_of_ascii c <=? 57)%nat && all_digits s'
  end.

(** ** [parse_unix_ms] *)

Lemma parse_unix_ms_spec ms :
  parse_unix_ms ms
  = (if bool_decide (-62135596800000 ≤ ms ≤ 253402300799999)%Z
     then Ok (1000 * ms)%Z else Raise OverflowError).
Proof.
  unfold parse_unix_ms, EPOCH, datetime_min, datetime_max.
  repeat case_bool_decide; try lia; try done. f_equal. lia.
Qed.

(** X1.  [parse_unix_ms] accepts the milliseconds from -62135596800000
    (0001-01-01) to 253402300799999 (the last millisecond of 9999), gives
    exactly that many milliseconds after the epoch, and raises
    OverflowError on every other integer; on what it accepts it keeps the
    order. *)
Theorem parse_unix_ms_accepts_datetime_range (ms1 ms2 : Z) :
  parse_unix_ms ms1
  = (if bool_decide (-62135596800000 ≤ ms1 ≤ 253402300799999)%Z
     then Ok (1000 * ms1)%Z else Raise OverflowError)
  ∧ (∀ t1 t2, parse_unix_ms ms1 = Ok t1 → parse_unix_ms ms2 = Ok t2 →
              ((ms1 < ms2)%Z ↔ (t1 < t2)%Z)).
Proof.
  split; [apply parse_unix_ms_spec|].
  intros t1 t2. rewrite !parse_unix_ms_spec. repeat case_bool_decide; try done.
  intros [= <-] [= <-]. lia.
Qed.

(** ** [folders_and_files] *)

Lemma history_row_matches history_rec :
  _matches_file_listing_pattern (url history_rec) = true
  ↔ is_Some (history_row history_rec).
Proof.
  unfold _matches_file_listing_pattern, history_row.
  destruct (FOLDERS_URL_PATTERN_match _); [by split; eauto|].
  destruct (FILES_URL_PATTERN_match _); [by split; eauto|].
  destruct (DOCS_URL_PATTERN_match _) as [g|]; cbn.
  - split; [eauto|done].
  - split; [done|by intros [? [=]]].
Qed.

Lemma omap_cons_match {A B} (f : A → option B) x (l : list A) :
  omap f (x :: l)
  = match f x with Some y => y :: omap f l | None => omap f l end.
Proof. reflexivity. Qed.

Lemma omap_history_row_filter (l : list HistoryRecord) :
  omap history_row
       (filter (fun r => _matches_file_listing_pattern (url r) = true) l)
  = omap history_row l.
Proof.
  induction l as [|x l IH]; [done|]. rewrite filter_cons.
  pose proof (history_row_matches x) as Hx. case_decide as Hm.
  - by rewrite !omap_cons_match, IH.
  - rewrite omap_cons_match, IH. destruct (history_row x) eqn:E; [|done].
    destruct Hm. apply Hx. by eexists.
Qed.

Lemma length_omap_history_row_filter (l : list HistoryRecord) :
  length (omap history_row l)
  = length (filter (fun r => _matches_file_listing_pattern (url r) = true) l).
Proof.
  induction l as [|x l IH]; [done|]. rewrite filter_cons, omap_cons_match.
  pose proof (history_row_matches x) as Hx. case_decide as Hm.
  - apply Hx in Hm as [row Hrow]. rewrite Hrow. cbn [length]. by rewrite IH.
  - destruct (history_row x) eqn:E; [|done].
    destruct Hm. apply Hx. by eexists.
Qed.

Lemma history_row_has_time history_rec row :
  history_row history_rec = Some row → has_time "timestamp" row.
Proof.
  unfold history_row. intros H. exists (visit_time history_rec).
  repeat case_match; simplify_eq; reflexivity.
Qed.

Lemma collect_history_rows xs results (st : PluginState) :
  collect xs results
    (fun results history_rec =>
       if FOLDERS_URL_PATTERN_match (url history_rec) then
         ret (results ++ [history_entry history_rec "Folder"
                            (rsplit1_first " - " (title history_rec))])
       else if FILES_URL_PATTERN_match (url history_rec) then
         ret (results ++ [history_entry history_rec "File"
                            (rsplit1_first " - " (title history_rec))])
       else
         match DOCS_URL_PATTERN_match (url history_rec) with
         | Some service_group =>
             ret (results ++ [history_entry history_rec
                                (str_title service_group)
                                (rsplit1_first " - " (title history_rec))])
         | None => ret results
         end) st
  = (st, Ok (results ++ omap history_row xs)).
Proof.
  revert results. induction xs as [|x xs IH]; intros results; cbn [collect].
  - by rewrite app_nil_r.
  - unfold bind at 1. rewrite omap_cons_match. unfold history_row at 1.
    destruct (FOLDERS_URL_PATTERN_match _);
      [|destruct (FILES_URL_PATTERN_match _);
        [|destruct (DOCS_URL_PATTERN_match _)]];
      unfold ret at 1; rewrite IH; by rewrite <- ?app_assoc.
Qed.

(** X2.  [folders_and_files] never raises and touches neither the storage
    nor the log.  It returns one record for each visit whose URL matches one
    of the three patterns, and no other: the visit's record is of type
    Folder if the folders pattern matches, else File if the files pattern
    does, else the title-cased service of the docs pattern. *)
Theorem folders_and_files_one_record_per_match (profile : ProfileData)
    (st : PluginState) :
  ∃ r, folders_and_files profile st = (st, Ok r)
       ∧ ArtifactResult.result r ≡ₚ omap history_row (history profile)
       ∧ length (ArtifactResult.result r)
         = length (iterate_history_records profile _matches_file_listing_pattern)
       ∧ sorted_by_time "timestamp" (ArtifactResult.result r).
Proof.
  unfold folders_and_files, iterate_history_records.
  assert (Forall (has_time "timestamp") (omap history_row (history profile)))
    as Htimes.
  { apply Forall_forall. intros row (x & _ & Hrow)%list_elem_of_omap.
    by eapply history_row_has_time. }
  destruct (list_sort_sorted "timestamp" _ Htimes) as (s & Hs & Hperm & Hsorted).
  exists (ArtifactResult.mk s). unfold bind at 1.
  rewrite collect_history_rows, omap_history_row_filter. cbn [app].
  unfold bind, lift_exc, ret. rewrite Hs. cbn.
  split; [done|]. split; [done|]. split; [|done].
  rewrite Hperm. apply length_omap_history_row_filter.
Qed.

(** ** [timeline_usage] *)

Lemma mapM_Exc_cons {A B} (f : A → Exc B) x (l : list A) :
  mapM f (x :: l)
  = match f x with
    | Ok y => match mapM f l with Ok k => Ok (y :: k) | Raise e => Raise e end
    | Raise e => Raise e
    end.
Proof. cbn. by destruct (f x). Qed.

Lemma mapM_Exc_length {A B} (f : A → Exc B) (l : list A) k :
  mapM f l = Ok k → length k = length l.
Proof.
  revert k. induction l as [|x l IH]; intros k.
  - by intros [= <-].
  - rewrite mapM_Exc_cons. destruct (f x); [|done].
    destruct (mapM f l); [|done]. intros [= <-]. cbn. by rewrite IH.
Qed.

Lemma mapM_Exc_Forall2 {A B} (f : A → Exc B) (l : list A) k :
  mapM f l = Ok k → Forall2 (fun x y => f x = Ok y) l k.
Proof.
  revert k. induction l as [|x l IH]; intros k.
  - intros [= <-]. constructor.
  - rewrite mapM_Exc_cons. destruct (f x) eqn:E; [|done].
    destruct (mapM f l); [|done]. intros [= <-]. constructor; [done|by apply IH].
Qed.

Lemma mapM_Exc_Forall {A B} (f : A → Exc B) (P : B → Prop) (l : list A) k :
  (∀ x y, f x = Ok y → P y) → mapM f l = Ok k → Forall P k.
Proof.
  intros HP H. apply mapM_Exc_Forall2 in H.
  induction H as [|x y l k Hxy _ IH]; constructor; eauto.
Qed.

(** The first element that fails decides. *)
Lemma mapM_Exc_first_failure {A B} (f : A → Exc B) (pre post : list A) bad e :
  Forall (fun x => is_ok (f x) = true) pre → f bad = Raise e →
  mapM f (pre ++ bad :: post) = Raise e.
Proof.
  intros Hpre Hbad. induction Hpre as [|x pre Hx _ IH]; cbn [app];
    rewrite mapM_Exc_cons.
  - by rewrite Hbad.
  - destruct (f x); [|done]. by rewrite IH.
Qed.

Lemma mapM_Exc_failure {A B} (f : A → Exc B) (l : list A) e :
  mapM f l = Raise e → ∃ x, x ∈ l ∧ f x = Raise e.
Proof.
  induction l as [|x l IH]; [done|]. rewrite mapM_Exc_cons.
  destruct (f x) eqn:E.
  - destruct (mapM f l); [done|]. intros [= ->].
    destruct IH as (y & Hy & Hfy); [done|]. exists y. split; [by right|done].
  - intros [= ->]. exists x. split; [by left|done].
Qed.

(** A loop whose rounds append one record each, or raise, and leave the
    state alone. *)
Lemma collect_pure {S A R} (f : A → Exc R)
    (body : list R → A → ST S (list R)) :
  (∀ results x s,
     body results x s
     = (s, match f x with Ok row => Ok (results ++ [row]) | Raise e => Raise e end)) →
  ∀ xs results s,
    collect xs results body s
    = (s, match mapM f xs with
          | Ok rows => Ok (results ++ rows)
          | Raise e => Raise e
          end).
Proof.
  intros Hbody. induction xs as [|x xs IH]; intros results s; cbn [collect].
  - cbn. by rewrite app_nil_r.
  - rewrite mapM_Exc_cons. unfold bind. rewrite Hbody.
    destruct (f x); [|done]. rewrite IH.
    destruct (mapM f xs); [|done]. by rewrite <- app_assoc.
Qed.

Lemma collect_usage_rows xs results (st : PluginState) :
  collect xs results
    (fun results rec =>
       let! ms :=
         match int_of_str (value rec) with
         | Some z => ret z
         | None => raise ValueError
         end in
       let! timestamp := lift_exc (parse_unix_ms ms) in
       ret (results ++
              [[("source", VStr "Session Storage");
                ("id", VInt (leveldb_sequence_number rec));
                ("type", VStr "Tab first start");
                ("timestamp", VDatetime timestamp)]])) st
  = (st, match mapM usage_row xs with
         | Ok rows => Ok (results ++ rows)
         | Raise e => Raise e
         end).
Proof.
  apply (collect_pure usage_row). clear. intros results rec s.
  unfold usage_row, bind, ret, raise, lift_exc.
  destruct (int_of_str (value rec)) as [ms|]; [|done].
  by destruct (parse_unix_ms ms).
Qed.

Lemma usage_row_has_time rec row :
  usage_row rec = Ok row → has_time "timestamp" row.
Proof.
  unfold usage_row. destruct (int_of_str _); [|done].
  destruct (parse_unix_ms _) as [t|]; [|done]. intros [= <-]. by exists t.
Qed.

Lemma usage_row_raises rec e :
  usage_row rec = Raise e →
  (e = ValueError ∧ int_of_str (value rec) = None)
  ∨ (e = OverflowError
     ∧ ∃ ms, int_of_str (value rec) = Some ms
             ∧ ¬ (-62135596800000 ≤ ms ≤ 253402300799999)%Z).
Proof.
  unfold usage_row. destruct (int_of_str _) as [ms|]; [|intros [= <-]; by left].
  rewrite parse_unix_ms_spec.
  case_bool_decide; [done|]. intros [= <-]. right. split; [done|].
  by exists ms.
Qed.

Lemma timeline_usage_unfold profile (st : PluginState) :
  timeline_usage profile st
  = (st, match mapM usage_row
                    (iter_session_storage profile "https://drive.google.com/"
                                          "ui:tabFirstStartTimeMsec") with
         | Ok rows =>
             match list_sort (fun x => getitem x "timestamp") rows with
             | Ok sorted => Ok (ArtifactResult.mk sorted)
             | Raise e => Raise e
             end
         | Raise e => Raise e
         end).
Proof.
  unfold timeline_usage. unfold bind at 1. rewrite collect_usage_rows.
  unfold PyDict. destruct (mapM _ _) as [rows|e]; [|done]. cbn [app].
  unfold bind, lift_exc, ret. by destruct (list_sort _ rows).
Qed.

(** X3.  [timeline_usage] touches neither the storage nor the log.  When
    the value of every session-storage entry under the key is an integer
    within the datetime range, it returns one record per entry, carrying the
    entry's sequence number and its time, in ascending order of time.
    Otherwise it raises: ValueError when the bad value is no integer,
    OverflowError when it is out of range. *)
Theorem timeline_usage_one_record_per_entry (profile : ProfileData)
    (st : PluginState) :
  fst (timeline_usage profile st) = st
  ∧ match mapM usage_row
                (iter_session_storage profile "https://drive.google.com/"
                                      "ui:tabFirstStartTimeMsec") with
    | Ok rows =>
        ∃ r, snd (timeline_usage profile st) = Ok r
             ∧ ArtifactResult.result r ≡ₚ rows
             ∧ length (ArtifactResult.result r)
               = length (iter_session_storage profile "https://drive.google.com/"
                                              "ui:tabFirstStartTimeMsec")
             ∧ sorted_by_time "timestamp" (ArtifactResult.result r)
    | Raise e =>
        snd (timeline_usage profile st) = Raise e
        ∧ (e = ValueError ∨ e = OverflowError)
    end.
Proof.
  rewrite timeline_usage_unfold. cbn [fst snd].
  destruct (mapM usage_row _) as [rows|e] eqn:E.
  - assert (Forall (has_time "timestamp") rows) as Htimes.
    { eapply mapM_Exc_Forall; [|exact E]. apply usage_row_has_time. }
    destruct (list_sort_sorted "timestamp" rows Htimes) as (s & Hs & Hperm & Hsorted).
    rewrite Hs.
    split; [done|]. exists (ArtifactResult.mk s). cbn.
    split; [done|]. split; [done|]. split; [|done].
    rewrite Hperm. by eapply mapM_Exc_length.
  - split; [done|]. split; [done|].
    apply mapM_Exc_failure in E as (rec & _ & Hrec).
    apply usage_row_raises in Hrec as [[-> _]|[-> _]]; auto.
Qed.

(** X4.  One session-storage entry whose value [timeline_usage] cannot turn
    into a datetime makes it raise and return nothing, the records of the
    entries before it included; the first such entry decides the exception. *)
Theorem timeline_usage_first_bad_entry (profile : ProfileData) (st : PluginState)
    (pre post : list SessionStorageRecord) (bad : SessionStorageRecord) (e : Exn) :
  iter_session_storage profile "https://drive.google.com/" "ui:tabFirstStartTimeMsec"
  = pre ++ bad :: post →
  Forall (fun rec => is_ok (usage_row rec) = true) pre →
  usage_row bad = Raise e →
  timeline_usage profile st = (st, Raise e).
Proof.
  intros Hentries Hpre Hbad.
  rewrite timeline_usage_unfold, Hentries.
  by rewrite (mapM_Exc_first_failure usage_row pre post bad e).
Qed.

(** ** [thumbnails] *)

Lemma thumbnails_body_step results entry (st : PluginState) :
  thumbnails_body results entry st
  = match thumbnail_name entry with
    | Ok out_filename =>
        let '(storage', reference) :=
          get_binary_stream (storage st) out_filename (data (snd entry)) in
        ({| storage := storage';
            logged := logged st ++ ["Exporting thumbnail to: " +:+ reference] |},
         Ok (results ++ [thumbnail_row (snd entry) reference]))
    | Raise e => (st, Raise e)
    end.
Proof.
  unfold thumbnails_body, thumbnail_name, export_binary, log_func.
  unfold bind, ret, raise, modify.
  destruct (get_attribute _ _) as [|v vs]; [done|].
  destruct (filename_search v) as [name|]; [|done].
  by destruct (get_binary_stream _ _ _).
Qed.

Lemma collect_thumbnails es names results (st : PluginState) :
  mapM thumbnail_name es = Ok names →
  collect es results thumbnails_body st
  = (fst (exported (zip names (map snd es)) st),
     Ok (results ++ snd (exported (zip names (map snd es)) st))).
Proof.
  revert names results st. induction es as [|entry es IH]; intros names results st.
  - intros [= <-]. cbn. by rewrite app_nil_r.
  - rewrite mapM_Exc_cons. destruct (thumbnail_name entry) as [n|] eqn:En; [|done].
    destruct (mapM thumbnail_name es) as [ns|]; [|done]. intros [= <-].
    cbn [collect map zip zip_with exported]. unfold bind.
    rewrite thumbnails_body_step, En.
    destruct (get_binary_stream _ _ _) as [storage' reference].
    rewrite (IH ns) by done. destruct (exported _ _) as [st' rows]. cbn.
    by rewrite <- app_assoc.
Qed.

Lemma collect_thumbnails_failure pre bad post names e results (st : PluginState) :
  mapM thumbnail_name pre = Ok names → thumbnail_name bad = Raise e →
  collect (pre ++ bad :: post) results thumbnails_body st
  = (fst (exported (zip names (map snd pre)) st), Raise e).
Proof.
  revert names results st. induction pre as [|entry pre IH]; intros names results st.
  - intros [= <-] Hbad. cbn [app collect]. unfold bind.
    by rewrite thumbnails_body_step, Hbad.
  - rewrite mapM_Exc_cons. destruct (thumbnail_name entry) as [n|] eqn:En; [|done].
    destruct (mapM thumbnail_name pre) as [ns|]; [|done]. intros [= <-] Hbad.
    cbn [app collect map zip zip_with exported]. unfold bind.
    rewrite thumbnails_body_step, En.
    destruct (get_binary_stream _ _ _) as [storage' reference].
    rewrite (IH ns) by done. by destruct (exported _ _) as [st' rows].
Qed.

Lemma exported_storage items (st : PluginState) :
  storage (fst (exported items st))
  = foldl (fun s item => fst (get_binary_stream s (fst item) (data (snd item))))
          (storage st) items.
Proof.
  revert st. induction items as [|[n rec] items IH]; intros st; [done|].
  cbn [exported foldl fst snd].
  destruct (get_binary_stream _ _ _) as [storage' reference] eqn:E.
  specialize (IH {| storage := storage';
                    logged := logged st ++ ["Exporting thumbnail to: " +:+ reference] |}).
  destruct (exported items _) as [st' rows]. cbn in *. by rewrite IH.
Qed.

Lemma exported_lengths items (st : PluginState) :
  length (logged (fst (exported items st))) = (length (logged st) + length items)%nat
  ∧ length (snd (exported items st)) = length items
  ∧ Forall (has_time "cache request time") (snd (exported items st)).
Proof.
  revert st. induction items as [|[n rec] items IH]; intros st.
  - cbn. repeat split; [lia|constructor].
  - cbn [exported].
    destruct (get_binary_stream _ _ _) as [storage' reference].
    specialize (IH {| storage := storage';
                      logged := logged st ++ ["Exporting thumbnail to: " +:+ reference] |}).
    destruct (exported items _) as [st' rows]. cbn in *.
    destruct IH as (Hlog & Hrows & Htimes). rewrite length_app in Hlog. cbn in Hlog.
    repeat split; [lia|lia|]. constructor; [|done].
    by exists (request_time (metadata rec)).
Qed.

Lemma pretty_N_char_digit x : all_digits (String (pretty_N_char x) "") = true.
Proof. unfold pretty_N_char. by repeat case_match. Qed.

Lemma pretty_N_go_digits x s :
  all_digits s = true → all_digits (pretty_N_go x s) = true.
Proof.
  revert s. induction (N.lt_wf_0 x) as [x _ IH]; intros s Hs.
  assert (x = 0 ∨ 0 < x)%N as [->|Hx] by lia; [by rewrite pretty_N_go_0|].
  rewrite pretty_N_go_step by done. apply IH; [by apply N.div_lt|].
  pose proof (pretty_N_char_digit (x `mod` 10)) as Hc. cbn in Hc |- *.
  rewrite andb_true_r in Hc. by rewrite Hc.
Qed.

Lemma pretty_nat_digits (n : nat) : all_digits (pretty n) = true.
Proof.
  unfold pretty, pretty_nat, pretty, pretty_N. case_decide; [done|].
  by apply pretty_N_go_digits.
Qed.

(** A digit string is read off what it prefixes up to the first underscore. *)
Lemma digits_prefix_inj d1 d2 a b :
  all_digits d1 = true → all_digits d2 = true →
  d1 +:+ "_" +:+ a = d2 +:+ "_" +:+ b → d1 = d2.
Proof.
  revert d2. induction d1 as [|c d1 IH]; intros [|c' d2]; cbn; try done.
  - intros _ Hd [= <- _]. done.
  - intros Hd _ [= -> _]. done.
  - intros [_ H1]%andb_true_iff [_ H2]%andb_true_iff [= <- Heq].
    f_equal. by eapply IH.
Qed.

Lemma thumbnail_name_index entry name :
  thumbnail_name entry = Ok name →
  ∃ cache_filename, name = pretty (fst entry) +:+ "_" +:+ cache_filename.
Proof.
  unfold thumbnail_name. destruct (get_attribute _ _) as [|v vs]; [done|].
  destruct (filename_search v) as [f|]; [|done]. intros [= <-]. by exists f.
Qed.

Lemma thumbnail_names_NoDup es names :
  NoDup (map fst es) → mapM thumbnail_name es = Ok names → NoDup names.
Proof.
  intros Hnd Hnames. apply mapM_Exc_Forall2 in Hnames.
  induction Hnames as [|entry name es names Hname Hrest IH]; [constructor|].
  cbn in Hnd. apply NoDup_cons in Hnd as [Hnotin Hnd].
  constructor; [|by apply IH].
  intros Hin. apply Hnotin. clear IH Hnd Hnotin.
  apply thumbnail_name_index in Hname as [f ->].
  induction Hrest as [|entry' name' es names Hname' Hrest IH]; [by apply elem_of_nil in Hin|].
  apply elem_of_cons in Hin as [Heq|Hin]; [|right; by apply IH].
  apply thumbnail_name_index in Hname' as [f' ->].
  apply digits_prefix_inj in Heq; [|apply pretty_nat_digits..].
  apply (inj pretty) in Heq. cbn. apply elem_of_cons. by left.
Qed.

Lemma fst_imap_pair {A} (l : list A) : map fst (imap pair l) = seq 0 (length l).
Proof.
  change (imap pair l) with (imap (fun i x => (0 + i, x)%nat) l).
  generalize 0%nat. induction l as [|x l IH]; intros n; [done|].
  cbn [imap map fst length seq]. rewrite Nat.add_0_r. f_equal.
  rewrite <- IH. f_equal. apply imap_ext. intros i y _. cbn. f_equal. lia.
Qed.

Lemma snd_imap_pair {A} (l : list A) : map snd (imap pair l) = l.
Proof.
  change (imap pair l) with (imap (fun i x => (0 + i, x)%nat) l).
  generalize 0%nat. induction l as [|x l IH]; intros n; [done|].
  cbn [imap map snd]. f_equal. rewrite <- (IH (S n)) at 2. f_equal.
  apply imap_ext. intros i y _. cbn. f_equal. lia.
Qed.

(** X5.  When every cached thumbnail has a content-disposition header that
    names a file, [thumbnails] exports the records' data one by one, in cache
    order, under names that are pairwise different (the index of the record,
    an underscore, the file name), logs one message per export and returns
    one record per thumbnail, in ascending order of request time. *)
Theorem thumbnails_exports_each_once (profile : ProfileData) (st : PluginState)
    (names : list string) :
  mapM thumbnail_name (imap pair (iterate_cache profile _matches_thumbnail_pattern))
  = Ok names →
  NoDup names
  ∧ length names = length (iterate_cache profile _matches_thumbnail_pattern)
  ∧ ∃ st' r,
      thumbnails profile st = (st', Ok r)
      ∧ storage st'
        = foldl (fun s item => fst (get_binary_stream s (fst item) (data (snd item))))
                (storage st)
                (zip names (iterate_cache profile _matches_thumbnail_pattern))
      ∧ length (logged st')
        = (length (logged st)
           + length (iterate_cache profile _matches_thumbnail_pattern))%nat
      ∧ length (ArtifactResult.result r)
        = length (iterate_cache profile _matches_thumbnail_pattern)
      ∧ sorted_by_time "cache request time" (ArtifactResult.result r).
Proof.
  intros Hnames.
  set (recs := iterate_cache profile _matches_thumbnail_pattern) in *.
  assert (length names = length recs) as Hlen.
  { apply mapM_Exc_length in Hnames. by rewrite length_imap in Hnames. }
  split.
  { eapply thumbnail_names_NoDup; [|exact Hnames].
    rewrite fst_imap_pair. apply NoDup_seq. }
  split; [done|].
  change (thumbnails profile st)
    with ((let! results := collect (imap pair recs) [] thumbnails_body in
           let! sorted :=
             lift_exc (list_sort (fun x => getitem x "cache request time") results) in
           ret (ArtifactResult.mk sorted)) st).
  unfold bind at 1. rewrite (collect_thumbnails _ names) by done.
  rewrite snd_imap_pair. cbn [app].
  destruct (exported_lengths (zip names recs) st) as (Hlog & Hrows & Htimes).
  pose proof (exported_storage (zip names recs) st) as Hstorage.
  destruct (exported (zip names recs) st) as [st' rows]. cbn [fst snd] in *.
  destruct (list_sort_sorted "cache request time" rows Htimes)
    as (s & Hs & Hperm & Hsorted).
  exists st', (ArtifactResult.mk s). unfold bind, lift_exc, ret. rewrite Hs. cbn.
  rewrite length_zip in Hlog, Hrows.
  repeat split; [done|lia| |done]. rewrite Hperm. lia.
Qed.

(** X6.  The first cached thumbnail without a content-disposition header
    makes [thumbnails] raise IndexError, the first whose header names no
    file AttributeError; the thumbnails before it have been exported by
    then and stay exported, and no record is returned. *)
Theorem thumbnails_keeps_exports_on_failure (profile : ProfileData)
    (st : PluginState) (pre post : list (nat * CacheRecord))
    (bad : nat * CacheRecord) (names : list string) (e : Exn) :
  imap pair (iterate_cache profile _matches_thumbnail_pattern) = pre ++ bad :: post →
  mapM thumbnail_name pre = Ok names →
  thumbnail_name bad = Raise e →
  ∃ st',
    thumbnails profile st = (st', Raise e)
    ∧ storage st'
      = foldl (fun s item => fst (get_binary_stream s (fst item) (data (snd item))))
              (storage st) (zip names (map snd pre))
    ∧ length (logged st') = (length (logged st) + length pre)%nat
    ∧ ((e = IndexError
        ∧ get_attribute (metadata (snd bad)) "content-disposition" = [])
       ∨ e = AttributeError).
Proof.
  intros Hentries Hpre Hbad.
  change (thumbnails profile st)
    with ((let! results :=
             collect (imap pair (iterate_cache profile _matches_thumbnail_pattern))
                     [] thumbnails_body in
           let! sorted :=
             lift_exc (list_sort (fun x => getitem x "cache request time") results) in
           ret (ArtifactResult.mk sorted)) st).
  unfold bind at 1.
  rewrite Hentries, (collect_thumbnails_failure pre bad post names e) by done.
  destruct (exported_lengths (zip names (map snd pre)) st) as (Hlog & _ & _).
  pose proof (exported_storage (zip names (map snd pre)) st) as Hstorage.
  destruct (exported _ st) as [st' rows]. cbn [fst snd] in *.
  exists st'. split; [done|]. split; [done|]. split.
  - rewrite Hlog, length_zip, length_map.
    apply mapM_Exc_length in Hpre. lia.
  - unfold thumbnail_name in Hbad.
    destruct (get_attribute _ _) as [|v vs]; [left; by injection Hbad as <-|].
    destruct (filename_search v); [done|]. right. by injection Hbad as <-.
Qed.

(** * More of the orchestrator *)

(** ** The arguments of [main] *)

(** X7.  [main] reads [args[0]] and [args[1]] before it does anything else:
    with fewer than two arguments it raises IndexError and has printed and
    created nothing; arguments after the second are never looked at. *)
Theorem main_reads_two_arguments (args : list Path) (w : World) :
  ((length args < 2)%nat → main args w = (w, Raise IndexError))
  ∧ (∀ p q rest, args = p :: q :: rest → main args w = main [p; q] w).
Proof.
  split.
  - intros Hlen. destruct args as [|p [|q rest]]; [done|done|cbn in Hlen; lia].
  - by intros p q rest ->.
Qed.

(** ** The report of one item *)

(** The loop body refuses the item with [e]: it has logged one line, and
    has created and removed nothing. *)
Definition report_refused (lf : SimpleLog) (out : Path)
    (item : ArtifactSpec * Envelope) (w : World) (e : Exn) : Prop :=
  ∃ w',
    write_report (log_message lf) out item w = (w', Raise e)
    ∧ (∀ p, kind (fs w' !! p) = kind (fs w !! p))
    ∧ (∀ p, p ≠ _f lf → fs w' !! p = fs w !! p)
    ∧ length (stdout w') = S (length (stdout w)).

Lemma os_mkdir_kinds (fs0 fs1 : FS) p e :
  (∀ q, kind (fs1 !! q) = kind (fs0 !! q)) →
  os_mkdir fs0 p = Raise e → os_mkdir fs1 p = Raise e.
Proof.
  intros Hk. unfold os_mkdir. rewrite (walk_kinds fs0 fs1) by done.
  specialize (Hk p). destruct (fs1 !! p) as [[]|], (fs0 !! p) as [[]|]; try done.
  by destruct (walk fs0 (parent p)).
Qed.

Lemma path_mkdir_single_kinds (fs0 fs1 : FS) p e :
  (∀ q, kind (fs1 !! q) = kind (fs0 !! q)) →
  path_mkdir false true fs0 p = Raise e → path_mkdir false true fs1 p = Raise e.
Proof.
  intros Hk.
  assert (path_is_dir fs1 p = path_is_dir fs0 p) as Hd.
  { unfold path_is_dir. specialize (Hk p).
    by destruct (fs1 !! p) as [[]|], (fs0 !! p) as [[]|]. }
  destruct p as [|q s]; cbn [path_mkdir];
    (destruct (os_mkdir fs0 _) as [?|e0] eqn:E; [done|]);
    rewrite (os_mkdir_kinds _ _ _ _ Hk E), Hd;
    destruct e0; try done; cbn; by destruct (path_is_dir fs0 _).
Qed.

Lemma write_report_mkdir_fails lf out spec envelope w e :
  result envelope ≠ [] →
  plain_name (sanitize_filename (service spec)) = true →
  path_mkdir false true (fs w) (report_dir out spec) = Raise e →
  report_refused lf out (spec, envelope) w e.
Proof.
  intros Hne Hps Hmk. unfold report_refused, write_report. cbn [fst snd].
  destruct (result envelope) as [|row rows]; [done|]. clear Hne.
  set (w1 := fst (log_message lf ("Results acquired for " +:+ name spec) w)).
  exists w1. split; [|split; [|split]].
  - erewrite bind_ok by apply log_message_ok. fold w1.
    erewrite bind_raise; [done|].
    eapply mkdir_at_raise; [by apply locate_out_dir_path|].
    eapply path_mkdir_single_kinds; [|exact Hmk].
    intros q. unfold w1. apply log_message_kind.
  - intros p. unfold w1. apply log_message_kind.
  - intros p Hp. unfold w1. by apply log_message_other.
  - unfold w1. rewrite log_message_world. cbn. rewrite length_app. cbn. lia.
Qed.

(** The way to a folder fails for want of an entry or on a file. *)
Lemma walk_raise (fs0 : FS) p e :
  walk fs0 p = Raise e → e = FileNotFoundError ∨ e = NotADirectoryError.
Proof.
  assert (∀ q, entry_dir fs0 q = Raise e →
               e = FileNotFoundError ∨ e = NotADirectoryError) as Hentry.
  { intros q. unfold entry_dir. destruct (fs0 !! q) as [[]|]; try done.
    - intros [= <-]. by right.
    - intros [= <-]. by left. }
  induction p as [|q IH s]; cbn [walk]; [apply Hentry|].
  destruct (walk fs0 q) as [[]|e']; [apply Hentry|]. intros [= ->]. by apply IH.
Qed.

(** X8.  For a sanitized service that is the name of one entry: when the
    path of the service's folder cannot be made a directory the item is
    refused before its report is opened, with one line logged and nothing
    created: with FileExistsError when a file stands at that path; and,
    when nothing stands there and the way to the output folder fails, with
    the error of that way, which is FileNotFoundError where the first entry
    that is no directory is missing and NotADirectoryError where it is a
    file. *)
Theorem write_report_needs_service_folder (lf : SimpleLog) (out : Path)
    (spec : ArtifactSpec) (envelope : Envelope) (w : World) :
  result envelope ≠ [] →
  plain_name (sanitize_filename (service spec)) = true →
  (is_file (fs w !! (out // sanitize_filename (service spec))) = true →
   report_refused lf out (spec, envelope) w FileExistsError)
  ∧ (∀ e, fs w !! (out // sanitize_filename (service spec)) = None →
          walk (fs w) out = Raise e →
          report_refused lf out (spec, envelope) w e
          ∧ (e = FileNotFoundError ∨ e = NotADirectoryError)).
Proof.
  intros Hne Hps. rewrite <- (report_dir_plain out spec Hps).
  split.
  - intros Hfile. apply write_report_mkdir_fails; [done..|].
    rewrite (report_dir_plain out spec Hps) in *.
    cbn [path_mkdir]. unfold os_mkdir, path_is_dir.
    by destruct (fs w !! (out // _)) as [[]|].
  - intros e Hnone Hout. split; [|by eapply walk_raise].
    apply write_report_mkdir_fails; [done..|].
    rewrite (report_dir_plain out spec Hps) in *.
    cbn [path_mkdir]. unfold os_mkdir, path_is_dir. cbn [parent].
    rewrite Hnone, Hout. apply walk_raise in Hout. by destruct Hout as [-> | ->].
Qed.

(** X9.  When [json.dump] raises, the exception leaves the loop body, and
    the report file that had been created for the dump stays behind, with
    the text [json.dump] had written before it raised.  (The sanitized
    service and the file name are each the name of one entry, and the
    output folder can be walked to.) *)
Theorem failed_dump_leaves_partial_report (lf : SimpleLog) (out : Path)
    (spec : ArtifactSpec) (envelope : Envelope) (w : World) (e : Exn) :
  result envelope ≠ [] →
  plain_name (sanitize_filename (service spec)) = true →
  plain_name (sanitize_filename (name spec) +:+ ".json") = true →
  walk (fs w) out = Ok tt →
  is_file (fs w !! (out // sanitize_filename (service spec))) = false →
  fs w !! (out // sanitize_filename (service spec)
               // (sanitize_filename (name spec) +:+ ".json")) = None →
  snd (json_dump envelope) = Some e →
  ∃ w',
    write_report (log_message lf) out (spec, envelope) w = (w', Raise e)
    ∧ fs w' !! (out // sanitize_filename (service spec)
                    // (sanitize_filename (name spec) +:+ ".json"))
      = Some (File (fst (json_dump envelope)))
    ∧ fs w' !! (out // sanitize_filename (service spec)) = Some Dir.
Proof.
  intros Hne Hps Hpn Hout. rewrite <- (report_file_plain out spec Hps Hpn).
  rewrite <- (report_dir_plain out spec Hps). intros Hdir Hfile Hjson.
  destruct (write_report_dumped lf out spec envelope w Hne Hps Hpn Hout Hdir Hfile)
    as (w' & Hrun & Hrf & Hkind & _).
  rewrite Hjson in Hrun. exists w'. split; [exact Hrun|]. split; [exact Hrf|].
  apply kind_Dir. rewrite Hkind, decide_False, decide_True; [done..|].
  rewrite (report_file_plain out spec Hps Hpn), (report_dir_plain out spec Hps).
  intros Heq. symmetry in Heq. revert Heq. apply Child_neq.
Qed.

(** ** The reports of a run *)

Lemma Child_Child_neq p a b : p // a // b ≠ p.
Proof.
  revert a b. induction p as [|q IH t]; intros a b; [done|].
  intros [= H _]. by eapply IH.
Qed.

Lemma report_file_not_dir out spec spec' :
  plain_names spec → plain_names spec' →
  report_file out spec ≠ report_dir out spec'.
Proof.
  intros [Hs Hn] [Hs' _]. rewrite report_file_plain, report_dir_plain by done.
  intros [= H _]. by eapply Child_neq.
Qed.

Lemma write_report_effect lf out log_name item w :
  _f lf = out // log_name →
  plain_names (fst item) →
  walk (fs w) out = Ok tt →
  is_file (fs w !! report_dir out (fst item)) = false →
  fs w !! report_file out (fst item) = None →
  snd (json_dump (snd item)) = None →
  ∃ w',
    write_report (log_message lf) out item w = (w', Ok tt)
    ∧ fs w' !! report_file out (fst item)
      = match result (snd item) with
        | [] => None
        | _ :: _ => Some (File (fst (json_dump (snd item))))
        end
    ∧ (∀ p, p ≠ report_file out (fst item) →
            kind (fs w' !! p) = kind (fs w !! p)
            ∨ (p = report_dir out (fst item) ∧ kind (fs w' !! p) = Some false))
    ∧ (∀ p, p ≠ report_file out (fst item) → p ≠ report_dir out (fst item) →
            p ≠ _f lf → fs w' !! p = fs w !! p).
Proof.
  intros Hlog [Hps Hpn] Hout Hdir Hfile Hjson. destruct item as [spec envelope].
  cbn [fst snd] in *.
  destruct (result envelope) as [|row rows] eqn:Hres.
  - rewrite write_report_empty by done. unfold bind.
    rewrite (log_message_ok lf _ w).
    set (w1 := fst (log_message lf _ w)).
    exists (fst (log_message lf (name spec +:+ " had not results, skipping") w1)).
    split; [done|]. split; [|split].
    + apply kind_None. unfold w1. rewrite !log_message_kind. by apply kind_None.
    + intros p _. left. unfold w1. by rewrite !log_message_kind.
    + intros p _ _ Hp. unfold w1. by rewrite !log_message_other.
  - assert (result envelope ≠ []) as Hne by (by rewrite Hres).
    destruct (write_report_dumped lf out spec envelope w Hne Hps Hpn Hout Hdir Hfile)
      as (w' & Hrun & Hrf & Hkind & Hother).
    rewrite Hjson in Hrun. exists w'. split; [exact Hrun|]. split; [exact Hrf|].
    split; [|exact Hother].
    intros p Hp. rewrite Hkind, decide_False by done.
    destruct (decide (p = report_dir out spec)); [by right|by left].
Qed.

Lemma reports_loop lf out log_name (items : list (ArtifactSpec * Envelope)) w :
  _f lf = out // log_name →
  walk (fs w) out = Ok tt →
  Forall (fun item => plain_names (fst item)
                      ∧ snd (json_dump (snd item)) = None
                      ∧ is_file (fs w !! report_dir out (fst item)) = false
                      ∧ fs w !! report_file out (fst item) = None) items →
  NoDup (map (fun item => report_file out (fst item)) items) →
  ∃ w',
    async_for (map Ok items) (write_report (log_message lf) out) w = (w', Ok tt)
    ∧ Forall (fun item =>
                fs w' !! report_file out (fst item)
                = match result (snd item) with
                  | [] => None
                  | _ :: _ => Some (File (fst (json_dump (snd item))))
                  end) items
    ∧ (∀ p, p ≠ _f lf →
            Forall (fun item => p ≠ report_file out (fst item)
                                ∧ p ≠ report_dir out (fst item)) items →
            fs w' !! p = fs w !! p)
    ∧ (∀ p, is_file (fs w !! p) = true → is_file (fs w' !! p) = true).
Proof.
  intros Hlog. revert w. induction items as [|item items IH]; intros w Hout Hall Hnd.
  - exists w. cbn. split; [done|]. split; [constructor|]. split; done.
  - apply Forall_cons in Hall as [(Hplain & Hjson & Hdir & Hfile) Hall].
    cbn [map] in Hnd. apply NoDup_cons in Hnd as [Hfresh Hnd].
    destruct (write_report_effect lf out log_name item w
                Hlog Hplain Hout Hdir Hfile Hjson)
      as (w1 & Hrun & Hrf & Hkind & Hother).
    assert (∀ p, p ≠ report_file out (fst item) →
                 is_file (fs w1 !! p) = is_file (fs w !! p)
                 ∨ kind (fs w1 !! p) = Some false) as Hkind'.
    { intros p Hp. destruct (Hkind p Hp) as [Hk|[_ Hk]]; [left|by right].
      by rewrite !kind_is_file, Hk. }
    destruct (IH w1) as (w' & Hloop & Hfiles & Hframe & Hkeep).
    { rewrite (walk_kinds_lineage (fs w)); [done|]. intros q Hq.
      destruct Hplain as [Hps Hpn].
      destruct (Hkind q) as [Hk|[Heq _]]; [|done|].
      - rewrite report_file_plain by done. intros ->.
        by apply below_below_not_in_lineage in Hq.
      - rewrite report_dir_plain in Heq by done. subst q.
        by apply below_not_in_lineage in Hq. }
    { rewrite Forall_forall in Hall. apply Forall_forall.
      intros item' Hin.
      destruct (Hall item' Hin) as (Hplain' & Hjson' & Hdir' & Hfile').
      split; [done|]. split; [done|]. split.
      - destruct (Hkind' (report_dir out (fst item'))) as [->|Hk]; [|done|].
        + intros Heq. symmetry in Heq. revert Heq. by apply report_file_not_dir.
        + rewrite kind_is_file, Hk. by apply bool_decide_eq_false.
      - apply kind_None.
        destruct (Hkind (report_file out (fst item'))) as [->|[Heq _]].
        + intros Heq. apply Hfresh. rewrite <- Heq.
          apply (list_elem_of_fmap_2 (fun item => report_file out (fst item))), Hin.
        + by apply kind_None.
        + by apply report_file_not_dir in Heq. }
    { done. }
    exists w'. split; [|split; [|split]].
    + cbn [map async_for]. erewrite bind_ok by exact Hrun. exact Hloop.
    + constructor; [|done]. rewrite Hframe, Hrf; [done| |].
      * rewrite Hlog. destruct Hplain as [Hps Hpn].
        rewrite report_file_plain by done. intros [= H _].
        by eapply Child_neq.
      * apply Forall_forall. intros item' Hin. split.
        -- intros Heq. apply Hfresh. rewrite Heq.
           apply (list_elem_of_fmap_2 (fun item => report_file out (fst item))), Hin.
        -- apply report_file_not_dir; [done|].
           rewrite Forall_forall in Hall. by apply Hall.
    + intros p Hp Hall'. apply Forall_cons in Hall' as [[Hp1 Hp2] Hall'].
      rewrite Hframe by done. by apply Hother.
    + intros p Hp. apply Hkeep.
      destruct (decide (p = report_file out (fst item))) as [->|Hne];
        [by rewrite Hfile in Hp|].
      destruct (Hkind p Hne) as [Hk|[-> _]]; [|congruence].
      by rewrite kind_is_file, Hk, <- kind_is_file.
Qed.

Lemma string_app_length s t :
  String.length (s +:+ t) = (String.length s + String.length t)%nat.
Proof.
  induction s as [|c s IH]; [done|].
  change (S (String.length (s +:+ t)) = S (String.length s + String.length t)).
  by rewrite IH.
Qed.

Lemma string_app_inj_r t s1 s2 : s1 +:+ t = s2 +:+ t → s1 = s2.
Proof.
  revert s2. induction s1 as [|c s1 IH]; intros [|c' s2]; cbn; intros H.
  - done.
  - apply (f_equal String.length) in H.
    rewrite !string_app_length in H. cbn in H. lia.
  - apply (f_equal String.length) in H.
    rewrite !string_app_length in H. cbn in H. lia.
  - injection H as -> H. f_equal. by apply IH.
Qed.

(** Items whose sanitized service and name differ have different report
    paths, when these are names of one entry each. *)
Lemma report_files_NoDup out (items : list (ArtifactSpec * Envelope)) :
  Forall (fun item => plain_names (fst item)) items →
  NoDup (map (fun item => (sanitize_filename (service (fst item)),
                           sanitize_filename (name (fst item)))) items) →
  NoDup (map (fun item => report_file out (fst item)) items).
Proof.
  intros Hall Hnd. induction items as [|item items IH]; [constructor|].
  apply Forall_cons in Hall as [[Hps Hpn] Hall].
  cbn [map] in *. apply NoDup_cons in Hnd as [Hfresh Hnd].
  constructor; [|by apply IH].
  intros Hin. apply Hfresh. apply list_elem_of_fmap in Hin as (item' & Heq & Hin).
  apply list_elem_of_fmap. exists item'. split; [|done].
  rewrite Forall_forall in Hall. destruct (Hall item' Hin) as [Hps' Hpn'].
  rewrite !report_file_plain in Heq by done. injection Heq as Hs Hn.
  apply string_app_inj_r in Hn. by rewrite Hs, Hn.
Qed.

(** X10.  Over a whole run of the loop of [main]: when for every item that
    [run_all] yields the sanitized service and the sanitized name with
    [".json"] are each the name of one entry and the item can be dumped,
    the pairs of sanitized service and name are pairwise different, the
    report paths are free at the start, the output folder can be walked to
    and the log file stands in it, the loop ends normally, the report of
    every item with a non-empty result holds the dump of that item, no file
    stands at the report path of an item with an empty result, and nothing
    but the log file, the reports and the service folders has changed. *)
Theorem reports_of_a_run (lf : SimpleLog) (out : Path) (log_name : string)
    (items : list (ArtifactSpec * Envelope)) (w : World) :
  _f lf = out // log_name →
  walk (fs w) out = Ok tt →
  Forall (fun item =>
            plain_names (fst item)
            ∧ snd (json_dump (snd item)) = None
            ∧ is_file (fs w !! (out // sanitize_filename (service (fst item)))) = false
            ∧ fs w !! (out // sanitize_filename (service (fst item))
                           // (sanitize_filename (name (fst item)) +:+ ".json")) = None)
         items →
  NoDup (map (fun item => (sanitize_filename (service (fst item)),
                           sanitize_filename (name (fst item)))) items) →
  ∃ w',
    async_for (map Ok items) (write_report (log_message lf) out) w = (w', Ok tt)
    ∧ Forall (fun item =>
                fs w' !! (out // sanitize_filename (service (fst item))
                              // (sanitize_filename (name (fst item)) +:+ ".json"))
                = match result (snd item) with
                  | [] => None
                  | _ :: _ => Some (File (fst (json_dump (snd item))))
                  end) items
    ∧ (∀ p, p ≠ out // log_name →
            Forall (fun item =>
                      p ≠ out // sanitize_filename (service (fst item))
                            // (sanitize_filename (name (fst item)) +:+ ".json")
                      ∧ p ≠ out // sanitize_filename (service (fst item))) items →
            fs w' !! p = fs w !! p).
Proof.
  intros Hlog Hout Hall Hnd.
  assert (Forall (fun item => plain_names (fst item)) items) as Hplain.
  { eapply Forall_impl; [exact Hall|]. by intros item [? _]. }
  destruct (reports_loop lf out log_name items w Hlog Hout) as (w' & H).
  { rewrite Forall_forall in Hall. apply Forall_forall. intros item Hin.
    destruct (Hall item Hin) as ([Hps Hpn] & Hjson & Hdir & Hfile).
    by rewrite report_dir_plain, report_file_plain. }
  { by apply report_files_NoDup. }
  destruct H as (Hrun & Hfiles & Hframe & _).
  exists w'. split; [exact Hrun|]. split.
  - rewrite Forall_forall in Hfiles, Hplain. apply Forall_forall. intros item Hin.
    destruct (Hplain item Hin) as [Hps Hpn].
    rewrite <- (report_file_plain out (fst item)) by done. by apply Hfiles.
  - intros p Hp Hother. apply Hframe; [by rewrite Hlog|].
    rewrite Forall_forall in Hother, Hplain. apply Forall_forall. intros item Hin.
    destruct (Hplain item Hin) as [Hps Hpn].
    rewrite report_dir_plain, report_file_plain by done. by apply Hother.
Qed.

(** ** Without a log callback *)

Lemma logged_world_fallback msgs w :
  logged_world LogFallback msgs w
  = {| fs := fs w;
       stdout := stdout w ++ map (fun m => "Log:" +:+ TAB +:+ m) msgs;
       clock := clock w; next_handle := next_handle w;
       open_handles := open_handles w; trace := trace w |}.
Proof.
  revert w. induction msgs as [|m msgs IH]; intros w.
  - cbn. rewrite app_nil_r. by destruct w.
  - unfold logged_world in *. cbn [foldl map]. rewrite IH. cbn.
    by rewrite <- app_assoc.
Qed.

Lemma _run_artifact_fallback self spec w :
  _log_callback self = LogFallback →
  fs (fst (_run_artifact self spec w)) = fs w
  ∧ clock (fst (_run_artifact self spec w)) = clock w
  ∧ stdout (fst (_run_artifact self spec w))
    = stdout w ++ map (fun m => "Log:" +:+ TAB +:+ m)
                      (fst (call (function spec) (artifact_args self (next_handle w)))).
Proof.
  intros Hcb. rewrite _run_artifact_unfold. cbn [fst]. rewrite Hcb.
  by rewrite logged_world_fallback.
Qed.

Lemma run_tasks_fallback coros w :
  Forall (fun c => match c with
                   | Co_run_artifact self _ => _log_callback self = LogFallback
                   end) coros →
  fs (fst (run_tasks coros w)) = fs w ∧ clock (fst (run_tasks coros w)) = clock w.
Proof.
  intros Hall. revert w. induction Hall as [|[self spec] coros Hcb _ IH]; intros w.
  - done.
  - assert (fst (run_tasks (Co_run_artifact self spec :: coros) w)
            = fst (run_tasks coros (fst (_run_artifact self spec w)))) as ->.
    { cbn [run_tasks]. unfold bind at 1. rewrite run_task_ok. cbn [await].
      unfold bind, ret. by destruct (run_tasks coros _) as [w' [futures|e]]. }
    destruct (_run_artifact_fallback self spec w Hcb) as (Hfs & Hclock & _).
    destruct (IH (fst (_run_artifact self spec w))) as [IHfs IHclock].
    split; congruence.
Qed.

(** X11.  A [MisterSkinnylegs] made without a log callback is made without
    any effect, only for a profile path that is a directory, and logs
    through [log_fallback]: whatever its plugin functions do, its
    invocations change no file and read no clock, and each message a
    function logs is printed as one line that starts with [Log:] and a
    tab. *)
Theorem without_log_callback_no_file_changes (plugin_path profile_path : Path)
    (w w1 : World) (self : MisterSkinnylegs) :
  MisterSkinnylegs_init plugin_path profile_path None w = (w1, Ok self) →
  w1 = w
  ∧ path_is_dir (fs w) profile_path = true
  ∧ (∀ w2, set_iteration (tasks self) ≡ₚ tasks self →
           fs (fst (run_all self w2)) = fs w2
           ∧ clock (fst (run_all self w2)) = clock w2)
  ∧ (∀ spec w2,
       fs (fst (_run_artifact self spec w2)) = fs w2
       ∧ stdout (fst (_run_artifact self spec w2))
         = stdout w2 ++ map (fun m => "Log:" +:+ TAB +:+ m)
                            (fst (call (function spec)
                                       (artifact_args self (next_handle w2))))).
Proof.
  unfold MisterSkinnylegs_init. unfold_st.
  destruct (PluginLoader_init plugin_path) as [loader|e]; [|done].
  destruct (path_is_dir (fs w) profile_path) eqn:Hdir; [|done].
  cbn. intros [= <- <-]. split; [done|]. split; [done|]. split.
  - intros w2 Hsub. apply run_tasks_fallback. apply Forall_forall.
    intros c Hc. rewrite Hsub in Hc. unfold tasks in Hc.
    apply list_elem_of_fmap in Hc as (e & -> & _). done.
  - intros spec w2.
    destruct (_run_artifact_fallback
                {| _plugin_loader := loader; _profile_folder_path := profile_path;
                   _log_callback := LogFallback |} spec w2 eq_refl)
      as (Hfs & _ & Hout).
    done.
Qed.

(** * The order of equal keys *)

Lemma py_lt_neq a b : py_lt a b = Ok true → a ≠ b.
Proof.
  intros Hlt ->. destruct b as [|z|s|t]; cbn in Hlt; try done.
  - injection Hlt as Hlt. lia.
  - injection Hlt as Hlt. apply bool_decide_eq_true in Hlt.
    pose proof (String.compare_antisym s s) as Hanti. rewrite Hlt in Hanti. done.
  - injection Hlt as Hlt. lia.
Qed.

Lemma insert_by_key_stable x l l' :
  insert_by_key x l = Ok l' →
  l' ≡ₚ x :: l
  ∧ ∀ v, filter (fun y => fst y = v) l' = filter (fun y => fst y = v) (x :: l).
Proof.
  revert l'. induction l as [|y l IH]; intros l'; cbn [insert_by_key].
  - by intros [= <-].
  - destruct (py_lt (fst y) (fst x)) as [[]|e] eqn:Hlt; cbn; [| |done].
    + destruct (insert_by_key x l) as [rest|e]; [|done]. cbn. intros [= <-].
      destruct (IH rest eq_refl) as [Hperm Hfilter]. split.
      * rewrite Hperm. apply Permutation_swap.
      * intros v. rewrite !filter_cons, Hfilter, !filter_cons.
        apply py_lt_neq in Hlt. repeat case_decide; try done. congruence.
    + by intros [= <-].
Qed.

Lemma sort_decorated_stable l s :
  sort_decorated l = Ok s →
  s ≡ₚ l ∧ ∀ v, filter (fun y => fst y = v) s = filter (fun y => fst y = v) l.
Proof.
  revert s. induction l as [|x l IH]; intros s; cbn [sort_decorated].
  - by intros [= <-].
  - destruct (sort_decorated l) as [s0|e]; [|done]. cbn.
    intros [Hperm Hfilter]%insert_by_key_stable.
    destruct (IH s0 eq_refl) as [Hperm0 Hfilter0]. split.
    + by rewrite Hperm, Hperm0.
    + intros v. rewrite Hfilter, !(filter_cons _ x), Hfilter0. done.
Qed.

Lemma filter_undecorate (key : PyDict → Exc PyVal) (dl : list (PyVal * PyDict)) v :
  Forall (fun x => key (snd x) = Ok (fst x)) dl →
  filter (fun d => key d = Ok v) (map snd dl)
  = map snd (filter (fun y => fst y = v) dl).
Proof.
  induction 1 as [|[k d] dl Hk _ IH]; [done|]. cbn [map snd fst] in *.
  rewrite !filter_cons, IH. cbn [fst snd]. rewrite Hk.
  destruct (decide (k = v)) as [->|Hne].
  - by rewrite decide_True.
  - rewrite decide_False; [done|]. congruence.
Qed.

(** [list.sort(key=...)] is stable: whenever it returns, the records are a
    rearrangement of what they were, and those that have the same key stand
    in the order they had. *)
Lemma list_sort_stable key l s :
  list_sort key l = Ok s →
  s ≡ₚ l
  ∧ ∀ v, filter (fun d => key d = Ok v) s = filter (fun d => key d = Ok v) l.
Proof.
  unfold list_sort. destruct (decorate key l) as [dl|e] eqn:Hdl; [|done]. cbn.
  destruct (sort_decorated dl) as [sorted|e] eqn:Hs; [|done]. cbn.
  intros [= <-]. apply decorate_ok in Hdl as [Hsnd Hkeys].
  apply sort_decorated_stable in Hs as [Hperm Hfilter]. split.
  - rewrite <- Hsnd. by apply fmap_Permutation.
  - intros v. rewrite (filter_undecorate key) by (by rewrite Hperm).
    rewrite Hfilter, <- (filter_undecorate key) by done. by rewrite Hsnd.
Qed.

Lemma history_row_timestamp history_rec row :
  history_row history_rec = Some row →
  getitem row "timestamp" = Ok (VDatetime (visit_time history_rec)).
Proof.
  unfold history_row. intros H. repeat case_match; simplify_eq; reflexivity.
Qed.

Lemma omap_history_row_at_time (l : list HistoryRecord) t :
  filter (fun d => getitem d "timestamp" = Ok (VDatetime t)) (omap history_row l)
  = omap history_row (filter (fun h => visit_time h = t) l).
Proof.
  induction l as [|h l IH]; [done|].
  rewrite (filter_cons _ h), !omap_cons_match.
  destruct (decide (visit_time h = t)) as [Ht|Ht].
  - rewrite omap_cons_match.
    destruct (history_row h) as [row|] eqn:Hrow; [|done].
    apply history_row_timestamp in Hrow.
    rewrite filter_cons, decide_True, IH; [done|]. by rewrite Hrow, Ht.
  - destruct (history_row h) as [row|] eqn:Hrow; [|done].
    apply history_row_timestamp in Hrow.
    rewrite filter_cons, decide_False, IH; [done|]. rewrite Hrow. congruence.
Qed.

(** X12.  Visits with the same visit time come out of [folders_and_files]
    in the order in which the history was iterated: for every time, the
    records of the result that carry it are the records of the visits made
    at that time, in history order. *)
Theorem folders_and_files_keeps_order_of_equal_times (profile : ProfileData)
    (st : PluginState) (t : Z) :
  ∃ r,
    folders_and_files profile st = (st, Ok r)
    ∧ filter (fun d => getitem d "timestamp" = Ok (VDatetime t))
             (ArtifactResult.result r)
      = omap history_row
             (filter (fun h => visit_time h = t)
                     (iterate_history_records profile _matches_file_listing_pattern)).
Proof.
  destruct (folders_and_files_returns profile st) as [r Hr]. exists r.
  split; [done|]. revert Hr. unfold folders_and_files.
  intros (results & s1 & Hcollect & Hrest)%bind_Ok_inv.
  rewrite collect_history_rows in Hcollect. injection Hcollect as <- <-.
  apply bind_Ok_inv in Hrest as (sorted & s2 & Hsort & Hret).
  injection Hret as _ <-. cbn [ArtifactResult.result].
  unfold lift_exc in Hsort.
  destruct (list_sort _ _) as [s|e] eqn:Hs; [|done]. injection Hsort as _ <-.
  apply list_sort_stable in Hs as [_ Hfilter]. rewrite Hfilter. cbn [app].
  apply omap_history_row_at_time.
Qed.

(** * The strings the records are made of *)

Lemma prefix_app sep s : String.prefix sep s = true ↔ ∃ rest, s = sep +:+ rest.
Proof.
  revert s. induction sep as [|c sep IH]; intros s.
  - split; [intros _; by exists s|intros _; by destruct s].
  - destruct s as [|c' s]; cbn.
    + split; [done|]. by intros [rest H].
    + destruct (Ascii.ascii_dec c c') as [->|Hne].
      * rewrite IH. split; intros [rest H]; exists rest.
        -- by rewrite H.
        -- by injection H.
      * split; [done|]. intros [rest H]. by injection H as -> _.
Qed.

Lemma rsplit_head_Some sep s h :
  rsplit_head sep s = Some h → ∃ rest, s = h +:+ sep +:+ rest.
Proof.
  revert h. induction s as [|c s IH]; intros h; [done|]. cbn [rsplit_head].
  destruct (rsplit_head sep s) as [h'|].
  - intros [= <-]. destruct (IH h' eq_refl) as [rest ->]. by exists rest.
  - destruct (String.prefix sep (String c s)) eqn:Hp; [|done].
    intros [= <-]. by apply prefix_app in Hp.
Qed.

Lemma rsplit_head_None sep s a b :
  sep ≠ "" → rsplit_head sep s = None → s ≠ a +:+ sep +:+ b.
Proof.
  intros Hsep. revert a. induction s as [|c s IH]; intros a.
  - intros _. destruct a; [by destruct sep|done].
  - cbn [rsplit_head]. destruct (rsplit_head sep s) as [h'|]; [done|].
    destruct (String.prefix sep (String c s)) eqn:Hp; [done|]. intros _.
    destruct a as [|c' a].
    + intros H. assert (String.prefix sep (String c s) = true) as Hp'.
      { apply prefix_app. by exists b. }
      congruence.
    + intros [= _ H]. by eapply IH.
Qed.

Lemma rsplit_head_last sep s h a b :
  sep ≠ "" → rsplit_head sep s = Some h → s = a +:+ sep +:+ b →
  (String.length a ≤ String.length h)%nat.
Proof.
  intros Hsep. revert h a. induction s as [|c s IH]; intros h a; [done|].
  cbn [rsplit_head]. destruct (rsplit_head sep s) as [h'|] eqn:Hh.
  - intros [= <-]. destruct a as [|c' a]; cbn; [lia|].
    intros [= _ H]. specialize (IH h' a eq_refl H). lia.
  - destruct (String.prefix sep (String c s)); [|done]. intros [= <-].
    destruct a as [|c' a]; [done|]. intros [= _ H].
    by eapply rsplit_head_None in H.
Qed.

(** X13.  The name that [folders_and_files] gives to a record is the page
    title up to its last [" - "]: the whole title when it has none, and
    otherwise the title without its last [" - "] and what follows it. *)
Theorem name_is_title_before_last_separator (history_rec : HistoryRecord)
    (row : PyDict) :
  history_row history_rec = Some row →
  ∃ doc_name,
    getitem row "name" = Ok (VStr doc_name)
    ∧ (doc_name = title history_rec
       ∧ (∀ a b, title history_rec ≠ a +:+ " - " +:+ b)
       ∨ ∃ rest,
           title history_rec = doc_name +:+ " - " +:+ rest
           ∧ ∀ a b, title history_rec = a +:+ " - " +:+ b →
                    (String.length a ≤ String.length doc_name)%nat).
Proof.
  intros Hrow. exists (rsplit1_first " - " (title history_rec)). split.
  - unfold history_row in Hrow.
    destruct (FOLDERS_URL_PATTERN_match _);
      [|destruct (FILES_URL_PATTERN_match _);
        [|destruct (DOCS_URL_PATTERN_match _); [|done]]];
      by injection Hrow as <-.
  - unfold rsplit1_first.
    destruct (rsplit_head " - " (title history_rec)) as [h|] eqn:Hh; cbn.
    + right. destruct (rsplit_head_Some _ _ _ Hh) as [rest Hrest].
      exists rest. split; [done|]. intros a b Hab.
      by apply (rsplit_head_last " - " (title history_rec) h a b).
    + left. split; [done|]. intros a b. by apply rsplit_head_None.
Qed.



(** * The lines of the log *)

(** Every line break of [s] is followed by a tab. *)
Fixpoint continuation_lines_indented (s : string) : bool :=
  match s with
  | EmptyString => true
  | String c s' =>
      (if Ascii.eqb c "010"%char then String.prefix TAB s' else true)
      && continuation_lines_indented s'
  end.

Lemma indent_newlines_inj m1 m2 :
  indent_newlines m1 = indent_newlines m2 → m1 = m2.
Proof.
  revert m2. induction m1 as [|c1 m1 IH]; intros [|c2 m2]; cbn [indent_newlines].
  - done.
  - by destruct (Ascii.eqb c2 _).
  - by destruct (Ascii.eqb c1 _).
  - destruct (Ascii.eqb_spec c1 "010"%char) as [->|H1],
             (Ascii.eqb_spec c2 "010"%char) as [->|H2].
    + intros [= H]. f_equal. by apply IH.
    + intros [= <- _]. done.
    + intros [= -> _]. done.
    + intros [= -> H]. f_equal. by apply IH.
Qed.

Lemma string_app_assoc s t u : (s +:+ t) +:+ u = s +:+ t +:+ u.
Proof.
  induction s as [|c s IH]; [done|].
  change (String c ((s +:+ t) +:+ u) = String c (s +:+ t +:+ u)). by rewrite IH.
Qed.

(** X15.  What [log_message] writes for a message: the time, a tab and the
    message with a tab put after each of its line breaks, so that in the
    log only the first line of an entry does not start with a tab; and two
    different messages are never written the same way. *)
Theorem log_entry_keeps_message (self : SimpleLog) (message : string)
    (w : World) (logged : string) :
  fs w !! _f self = Some (File logged) →
  fs (fst (log_message self message w)) !! _f self
  = Some (File (logged +:+ now_str (clock w) +:+ TAB
                       +:+ indent_newlines message +:+ NL))
  ∧ continuation_lines_indented (indent_newlines message) = true
  ∧ String.length (indent_newlines message)
    = (String.length message
       + length (filter (fun c => c = "010"%char) (String.list_ascii_of_string message)))%nat
  ∧ ∀ other, indent_newlines other = indent_newlines message → other = message.
Proof.
  intros Hlog. split; [|split; [|split]].
  - rewrite log_message_world. cbn [fst fs].
    rewrite !file_write_lookup, Hlog, !decide_True by done.
    by rewrite !string_app_assoc.
  - induction message as [|c m IH]; [done|]. cbn [indent_newlines].
    destruct (Ascii.eqb_spec c "010"%char) as [->|Hc].
    + cbn. rewrite IH. by destruct (indent_newlines m).
    + cbn [continuation_lines_indented].
      destruct (Ascii.eqb_spec c "010"%char); [done|]. by rewrite IH.
  - induction message as [|c m IH]; [done|]. cbn [indent_newlines].
    cbn [String.list_ascii_of_string]. rewrite filter_cons.
    destruct (Ascii.eqb_spec c "010"%char) as [->|Hc].
    + rewrite decide_True by done. cbn. rewrite IH. lia.
    + rewrite decide_False by done. cbn. by rewrite IH.
  - intros other. apply indent_newlines_inj.
Qed.

(** * plugins/chatgpt_plugin.py *)

Section ChatGPT.

(** Python's [float], with [bool(x)], that is [x != 0.0]. *)
Variable Float : Type.
Variable float_bool : Float -> bool.

(** What [json.loads] returns: [None], a [bool], an [int], a [float], a
    [str], a [list], or a [dict], given by its items in insertion order,
    each key once. *)
#[local] Set Warnings "-register-all".
Inductive JSON :=
| JNull
| JBool (b : bool)
| JInt (z : Z)
| JFloat (f : Float)
| JStr (s : string)
| JList (elements : list JSON)
| JDict (members : list (string * JSON)).
#[local] Set Warnings "register-all".

(** [json.loads(data.decode("utf-8"))], or the exception that the decoding
    or the parsing raises. *)
Variable json_loads : string -> Exc JSON.

(** [str(x)] for a [float], a [list] or a [dict]. *)
Variable str_repr : JSON -> string.

(** [datetime.fromtimestamp(x)] for a number [x]: a naive local time, or the
    exception raised for a number out of the platform's range; and [str] of
    a datetime. *)
Variable fromtimestamp : Z + Float -> Exc Z.
Variable datetime_str : Z -> string.

(** Whether a URL fits the [url_pattern] of [get_chatgpt_chatinfo], the
    [url_pattern] of [get_chatgpt_userinfo] and [SEARCH_URL_PATTERN]. *)
Variable chatinfo_url_pattern : string -> bool.
Variable userinfo_url_pattern : string -> bool.
Variable SEARCH_URL_PATTERN : string -> bool.

Fixpoint members_get (members : list (string * JSON)) (k : string) : option JSON :=
  match members with
  | [] => None
  | (k', v) :: rest => if String.eqb k' k then Some v else members_get rest k
  end.

(** [x.get(k, d)]: only a [dict] has the method. *)
Definition dict_get (x : JSON) (k : string) (d : JSON) : Exc JSON :=
  match x with
  | JDict members => Ok (default d (members_get members k))
  | _ => Raise AttributeError
  end.

(** What [for item in x] iterates over: the elements of a [list], the keys
    of a [dict], the characters of a [str]. *)
Definition py_iter (x : JSON) : Exc (list JSON) :=
  match x with
  | JList elements => Ok elements
  | JDict members => Ok (map (fun m => JStr (fst m)) members)
  | JStr s => Ok (map (fun c => JStr (String c "")) (String.list_ascii_of_string s))
  | _ => Raise TypeError
  end.

(** [bool(x)] *)
Definition py_bool (x : JSON) : bool :=
  match x with
  | JNull => false
  | JBool b => b
  | JInt z => negb (z =? 0)%Z
  | JFloat f => float_bool f
  | JStr s => negb (String.eqb s "")
  | JList elements => match elements with [] => false | _ :: _ => true end
  | JDict members => match members with [] => false | _ :: _ => true end
  end.

(** [str(x)] *)
Definition py_str (x : JSON) : string :=
  match x with
  | JNull => "None"
  | JBool true => "True"
  | JBool false => "False"
  | JInt z => pretty z
  | JStr s => s
  | _ => str_repr x
  end.

(** [s[-n:]] for a positive [n]: the last [n] characters, all of [s] when
    it has fewer. *)
Fixpoint string_drop (k : nat) (s : string) : string :=
  match k, s with
  | O, _ => s
  | S _, EmptyString => EmptyString
  | S k', String _ s' => string_drop k' s'
  end.

Definition last_chars (n : nat) (s : string) : string :=
  string_drop (String.length s - n) s.

(** The values of the records of the ChatGPT functions: what came out of
    the JSON as it is, a string, a datetime, or the record location that
    the reader gives for a visit. *)
Inductive ChatVal :=
| OfJSON (x : JSON)
| OfStr (s : string)
| OfDatetime (us : Z)
| OfLocation (location : string).

Definition ChatRow : Type := list (string * ChatVal).

(** [ArtifactResult(results)] for such records. *)
Record ChatArtifactResult := ChatArtifactResult_mk { chat_result : list ChatRow }.

(** The record made of one chat item of a cached conversation list. *)
Definition chat_item_row (cache_rec : CacheRecord) (chat_item : JSON) : Exc ChatRow :=
  id ← dict_get chat_item "id" JNull;
  title_or ← dict_get chat_item "title" JNull;
  let title := if py_bool title_or then title_or else JNull in
  create_time ← dict_get chat_item "create_time" JNull;
  update_time ← dict_get chat_item "update_time" JNull;
  Ok [("ID", OfStr (py_str id));
      ("Title", OfStr (py_str title));
      ("History Timestamp", OfStr "N/A");
      ("Chat Created Time", OfJSON create_time);
      ("Chat Updated Time", OfJSON update_time);
      ("Original URL", OfStr "N/A");
      ("Source", OfStr "Cache");
      ("Data Location", OfStr (data_location cache_rec))].

(** The record made of one visit of a conversation page. *)
Definition chat_history_row (history_rec : HistoryRecord) : ChatRow :=
  [("ID", OfStr (last_chars 36 (url history_rec)));
   ("Title", OfStr (title history_rec));
   ("History Timestamp", OfDatetime (visit_time history_rec));
   ("Chat Created Time", OfStr "Unknown");
   ("Chat Updated Time", OfStr "Unknown");
   ("Original URL", OfStr (url history_rec));
   ("Source", OfStr "History");
   ("Data Location", OfLocation (record_location history_rec))].

Definition get_chatgpt_chatinfo (profile : ProfileData)
  : ST PluginState ChatArtifactResult :=
  let! results :=
    collect (iterate_cache profile chatinfo_url_pattern) []
      (fun results cache_rec =>
         let! cache_data := lift_exc (json_loads (data cache_rec)) in
         let! items := lift_exc (dict_get cache_data "items" (JDict [])) in
         let! chat_items := lift_exc (py_iter items) in
         collect chat_items results
           (fun results chat_item =>
              let! result := lift_exc (chat_item_row cache_rec chat_item) in
              ret (results ++ [result]))) in
  let! results :=
    collect (iterate_history_records profile SEARCH_URL_PATTERN) results
      (fun results history_rec => ret (results ++ [chat_history_row history_rec])) in
  ret (ChatArtifactResult_mk results).

(** [datetime.fromtimestamp(created)]: a [bool] counts as an [int]; what
    is no number is refused. *)
Definition datetime_fromtimestamp (created : JSON) : Exc Z :=
  match created with
  | JInt z => fromtimestamp (inl z)
  | JBool b => fromtimestamp (inl (if b then 1 else 0)%Z)
  | JFloat f => fromtimestamp (inr f)
  | _ => Raise TypeError
  end.

(** The record made of one cached account description. *)
Definition user_row (cache_rec : CacheRecord) : Exc ChatRow :=
  cache_data ← json_loads (data cache_rec);
  name ← dict_get cache_data "name" JNull;
  email ← dict_get cache_data "email" JNull;
  phone_number ← dict_get cache_data "phone_number" JNull;
  created ← dict_get cache_data "created" JNull;
  standard_timestamp ← datetime_fromtimestamp created;
  Ok [("Created", OfStr (datetime_str standard_timestamp));
      ("Name", OfJSON name);
      ("Email", OfJSON email);
      ("Phone Number", OfStr (py_str phone_number));
      ("Source", OfStr "Cache");
      ("Data Location", OfStr (data_location cache_rec))].

Definition get_chatgpt_userinfo (profile : ProfileData)
  : ST PluginState ChatArtifactResult :=
  let! results :=
    collect (iterate_cache profile userinfo_url_pattern) []
      (fun results cache_rec =>
         let! result := lift_exc (user_row cache_rec) in
         ret (results ++ [result])) in
  ret (ChatArtifactResult_mk results).

(** ** The vocabulary of the properties *)

(** The records made of one cached conversation list. *)
Definition chat_rows (cache_rec : CacheRecord) : Exc (list ChatRow) :=
  cache_data ← json_loads (data cache_rec);
  items ← dict_get cache_data "items" (JDict []);
  chat_items ← py_iter items;
  mapM (chat_item_row cache_rec) chat_items.

Fixpoint row_get (row : ChatRow) (k : string) : option ChatVal :=
  match row with
  | [] => None
  | (k', v) :: rest => if String.eqb k' k then Some v else row_get rest k
  end.

Definition is_dict (x : JSON) : bool :=
  match x with JDict _ => true | _ => false end.

(** ** Properties *)

Lemma collect_pure_many {S A R} (f : A → Exc (list R))
    (body : list R → A → ST S (list R)) :
  (∀ results x s,
     body results x s
     = (s, match f x with Ok rows => Ok (results ++ rows) | Raise e => Raise e end)) →
  ∀ xs results s,
    collect xs results body s
    = (s, match mapM f xs with
          | Ok rowss => Ok (results ++ concat rowss)
          | Raise e => Raise e
          end).
Proof.
  intros Hbody. induction xs as [|x xs IH]; intros results s; cbn [collect].
  - cbn. by rewrite app_nil_r.
  - rewrite mapM_Exc_cons. unfold bind. rewrite Hbody.
    destruct (f x); [|done]. rewrite IH.
    destruct (mapM f xs); [|done]. cbn. by rewrite <- app_assoc.
Qed.

Lemma collect_map {S A R} (g : A → R) (xs : list A) (results : list R) (s : S) :
  collect xs results (fun results x => ret (results ++ [g x])) s
  = (s, Ok (results ++ map g xs)).
Proof.
  revert results. induction xs as [|x xs IH]; intros results; cbn [collect].
  - cbn. by rewrite app_nil_r.
  - unfold bind, ret at 1. rewrite IH. cbn. by rewrite <- app_assoc.
Qed.

Lemma get_chatgpt_chatinfo_unfold profile (st : PluginState) :
  get_chatgpt_chatinfo profile st
  = (st, match mapM chat_rows (iterate_cache profile chatinfo_url_pattern) with
         | Ok rowss =>
             Ok (ChatArtifactResult_mk
                   (concat rowss
                    ++ map chat_history_row
                           (iterate_history_records profile SEARCH_URL_PATTERN)))
         | Raise e => Raise e
         end).
Proof.
  unfold get_chatgpt_chatinfo. unfold bind at 1.
  rewrite (collect_pure_many chat_rows).
  - destruct (mapM chat_rows _) as [rowss|e]; [|done]. cbn [app].
    unfold bind at 1. rewrite collect_map. done.
  - clear. intros results cache_rec s. unfold chat_rows, bind, lift_exc.
    destruct (json_loads (data cache_rec)) as [cache_data|e]; [|done]. cbn.
    destruct (dict_get cache_data "items" (JDict [])) as [items|e]; [|done]. cbn.
    destruct (py_iter items) as [chat_items|e]; [|done]. cbn.
    apply (collect_pure (chat_item_row cache_rec)).
    intros results' chat_item s'. unfold bind, lift_exc, ret.
    by destruct (chat_item_row cache_rec chat_item).
Qed.

Lemma chat_item_row_dict cache_rec chat_item :
  chat_item_row cache_rec chat_item
  = match chat_item with
    | JDict members =>
        let title_or := default JNull (members_get members "title") in
        Ok [("ID", OfStr (py_str (default JNull (members_get members "id"))));
            ("Title", OfStr (py_str (if py_bool title_or then title_or else JNull)));
            ("History Timestamp", OfStr "N/A");
            ("Chat Created Time",
             OfJSON (default JNull (members_get members "create_time")));
            ("Chat Updated Time",
             OfJSON (default JNull (members_get members "update_time")));
            ("Original URL", OfStr "N/A");
            ("Source", OfStr "Cache");
            ("Data Location", OfStr (data_location cache_rec))]
    | _ => Raise AttributeError
    end.
Proof. by destruct chat_item. Qed.

Lemma chat_rows_raises cache_rec e :
  chat_rows cache_rec = Raise e →
  json_loads (data cache_rec) = Raise e
  ∨ ∃ cache_data,
      json_loads (data cache_rec) = Ok cache_data
      ∧ (e = AttributeError ∧ is_dict cache_data = false
         ∨ ∃ items,
             dict_get cache_data "items" (JDict []) = Ok items
             ∧ (e = TypeError ∧ py_iter items = Raise TypeError
                ∨ e = AttributeError
                  ∧ ∃ chat_items chat_item,
                      py_iter items = Ok chat_items
                      ∧ chat_item ∈ chat_items ∧ is_dict chat_item = false)).
Proof.
  unfold chat_rows.
  destruct (json_loads (data cache_rec)) as [cache_data|e0] eqn:Hloads; cbn;
    [|intros [= ->]; by left].
  intros H. right. exists cache_data. split; [done|].
  destruct (dict_get cache_data "items" (JDict [])) as [items|e0] eqn:Hitems; cbn in H.
  - right. exists items. split; [done|].
    destruct (py_iter items) as [chat_items|e0] eqn:Hiter; cbn in H.
    + right. apply mapM_Exc_failure in H as (chat_item & Hin & Hrow).
      rewrite chat_item_row_dict in Hrow.
      destruct chat_item; try done; injection Hrow as <-;
        (split; [done|]); eexists _, _; (split; [done|]); split; done.
    + left. injection H as <-. by destruct items; cbn in Hiter; simplify_eq.
  - left. injection H as <-. by destruct cache_data; cbn in Hitems; simplify_eq.
Qed.

(** X16.  [get_chatgpt_chatinfo] neither logs nor stores.  When every
    cached conversation list can be read, it returns the records of the
    lists, list by list in cache order and item by item, followed by one
    record for every visit of a conversation page, in history order.
    Otherwise it raises what the first list that cannot be read raises,
    and that is what [json.loads] raised, AttributeError or TypeError. *)
Theorem get_chatgpt_chatinfo_cache_then_history (profile : ProfileData)
    (st : PluginState) :
  fst (get_chatgpt_chatinfo profile st) = st
  ∧ match mapM chat_rows (iterate_cache profile chatinfo_url_pattern) with
    | Ok rowss =>
        ∃ r,
          snd (get_chatgpt_chatinfo profile st) = Ok r
          ∧ chat_result r
            = concat rowss
              ++ map chat_history_row
                     (iterate_history_records profile SEARCH_URL_PATTERN)
          ∧ length (chat_result r)
            = (sum_list (map length rowss)
               + length (iterate_history_records profile SEARCH_URL_PATTERN))%nat
          ∧ Forall (fun row => row_get row "Source" = Some (OfStr "Cache"))
                   (concat rowss)
    | Raise e =>
        snd (get_chatgpt_chatinfo profile st) = Raise e
        ∧ ∃ cache_rec,
            cache_rec ∈ iterate_cache profile chatinfo_url_pattern
            ∧ chat_rows cache_rec = Raise e
            ∧ (json_loads (data cache_rec) = Raise e
               ∨ e = AttributeError ∨ e = TypeError)
    end.
Proof.
  rewrite get_chatgpt_chatinfo_unfold. split.
  { by destruct (mapM chat_rows _). }
  destruct (mapM chat_rows _) as [rowss|e] eqn:Hrows; cbn [snd].
  - eexists. split; [done|]. cbn [chat_result]. split; [done|]. split.
    + rewrite length_app, length_map. f_equal.
      clear. induction rowss as [|rows rowss IH]; [done|].
      cbn. by rewrite length_app, IH.
    + apply Forall_concat. eapply mapM_Exc_Forall; [|exact Hrows].
      intros cache_rec rows. unfold chat_rows.
      destruct (json_loads _) as [cache_data|]; [|done]. cbn.
      destruct (dict_get cache_data _ _) as [items|]; [|done]. cbn.
      destruct (py_iter items) as [chat_items|]; [|done]. cbn.
      apply mapM_Exc_Forall. intros chat_item row.
      rewrite chat_item_row_dict. destruct chat_item; try done. by intros [= <-].
  - split; [done|]. apply mapM_Exc_failure in Hrows as (cache_rec & Hin & Hraise).
    exists cache_rec. split; [done|]. split; [done|].
    destruct (chat_rows_raises cache_rec e Hraise) as [H|(cache_data & _ & H)];
      [by left|].
    destruct H as [[Hattr _]|(items & _ & [[Htype _]|[Hattr _]])]; auto.
Qed.

(** X17.  A chat item is turned into a record only if it is a [dict]; a
    title that is missing, [null], or empty is reported as the text
    [None], as is a title that reads [None]; and a missing identifier is
    reported as the text [None]. *)
Theorem chat_item_without_title (cache_rec : CacheRecord) (chat_item : JSON) :
  match chat_item with
  | JDict members =>
      ∃ row,
        chat_item_row cache_rec chat_item = Ok row
        ∧ (members_get members "title" = None
           ∨ members_get members "title" = Some JNull
           ∨ members_get members "title" = Some (JStr "")
           ∨ members_get members "title" = Some (JStr "None") →
           row_get row "Title" = Some (OfStr "None"))
        ∧ (∀ t, members_get members "title" = Some (JStr t) → t ≠ "" →
                row_get row "Title" = Some (OfStr t))
        ∧ (members_get members "id" = None →
           row_get row "ID" = Some (OfStr "None"))
  | _ => chat_item_row cache_rec chat_item = Raise AttributeError
  end.
Proof.
  rewrite chat_item_row_dict. destruct chat_item as [| | | | | |members]; try done.
  eexists. split; [done|]. cbn [row_get String.eqb Ascii.eqb Bool.eqb].
  split; [|split].
  - by intros [-> | [-> | [-> | ->]]].
  - intros t -> Ht. cbn. destruct (String.eqb_spec t ""); [done|]. done.
  - by intros ->.
Qed.

Lemma string_drop_spec k s :
  ∃ pre, s = pre +:+ string_drop k s
         ∧ String.length pre = Nat.min k (String.length s).
Proof.
  revert s. induction k as [|k IH]; intros s.
  - exists "". by destruct s.
  - destruct s as [|c s]; [by exists ""|].
    destruct (IH s) as (pre & Hpre & Hlen). exists (String c pre). cbn.
    split; [by rewrite Hpre at 1|]. by rewrite Hlen.
Qed.

(** X18.  The [ID] of a record made of a visit is the last 36 characters
    of the visited URL, and the whole URL when it has fewer. *)
Theorem chat_history_id_is_url_tail (history_rec : HistoryRecord) :
  ∃ id pre,
    row_get (chat_history_row history_rec) "ID" = Some (OfStr id)
    ∧ url history_rec = pre +:+ id
    ∧ String.length id = Nat.min 36 (String.length (url history_rec))
    ∧ row_get (chat_history_row history_rec) "Original URL"
      = Some (OfStr (url history_rec)).
Proof.
  destruct (string_drop_spec (String.length (url history_rec) - 36) (url history_rec))
    as (pre & Hpre & Hlen).
  exists (last_chars 36 (url history_rec)), pre. split; [done|].
  split; [exact Hpre|]. split; [|done].
  apply (f_equal String.length) in Hpre. rewrite string_app_length in Hpre.
  unfold last_chars. lia.
Qed.

Lemma get_chatgpt_userinfo_unfold profile (st : PluginState) :
  get_chatgpt_userinfo profile st
  = (st, match mapM user_row (iterate_cache profile userinfo_url_pattern) with
         | Ok rows => Ok (ChatArtifactResult_mk rows)
         | Raise e => Raise e
         end).
Proof.
  unfold get_chatgpt_userinfo. unfold bind at 1.
  rewrite (collect_pure user_row).
  - by destruct (mapM user_row _).
  - clear. intros results cache_rec s. unfold bind, lift_exc, ret.
    by destruct (user_row cache_rec).
Qed.

Lemma user_row_without_created cache_rec members :
  json_loads (data cache_rec) = Ok (JDict members) →
  match default JNull (members_get members "created") with
  | JInt _ | JBool _ | JFloat _ => False
  | _ => True
  end →
  user_row cache_rec = Raise TypeError.
Proof.
  intros Hloads Hcreated. unfold user_row. rewrite Hloads. cbn.
  by destruct (default JNull (members_get members "created")).
Qed.

(** X19.  [get_chatgpt_userinfo] neither logs nor stores, and returns one
    record per cached account description, in cache order, unless one of
    them cannot be read; the first that cannot makes it raise, and one
    that is a [dict] without a number under [created] makes it raise
    TypeError. *)
Theorem get_chatgpt_userinfo_one_record_per_account (profile : ProfileData)
    (st : PluginState) :
  fst (get_chatgpt_userinfo profile st) = st
  ∧ match mapM user_row (iterate_cache profile userinfo_url_pattern) with
    | Ok rows =>
        ∃ r,
          snd (get_chatgpt_userinfo profile st) = Ok r
          ∧ chat_result r = rows
          ∧ Forall2 (fun cache_rec row => user_row cache_rec = Ok row)
                    (iterate_cache profile userinfo_url_pattern) rows
    | Raise e => snd (get_chatgpt_userinfo profile st) = Raise e
    end
  ∧ ∀ pre cache_rec post members,
      iterate_cache profile userinfo_url_pattern = pre ++ cache_rec :: post →
      Forall (fun r => is_ok (user_row r) = true) pre →
      json_loads (data cache_rec) = Ok (JDict members) →
      members_get members "created" = None →
      get_chatgpt_userinfo profile st = (st, Raise TypeError).
Proof.
  rewrite get_chatgpt_userinfo_unfold. split; [|split].
  - by destruct (mapM user_row _).
  - destruct (mapM user_row _) as [rows|e] eqn:Hrows; cbn [snd]; [|done].
    eexists. split; [done|]. split; [done|]. by apply mapM_Exc_Forall2.
  - intros pre cache_rec post members -> Hpre Hloads Hcreated.
    rewrite (mapM_Exc_first_failure user_row pre post cache_rec TypeError); [done..|].
    apply (user_row_without_created cache_rec members); [done|].
    by rewrite Hcreated.
Qed.

End ChatGPT.

(** * A whole run of [main] *)

(** ** A disk on which every entry lies in a directory *)

Definition entry_ok (fs0 : FS) (p : Path) : bool :=
  match p with Root => true | Child q _ => path_is_dir fs0 q end.

Definition fs_closed (fs0 : FS) : Prop :=
  map_Forall (fun p _ => entry_ok fs0 p = true) fs0.

(** The log file of a run that starts in [w], and the [MisterSkinnylegs]
    that [main] makes with it. *)
Definition log_path (report_out_folder_path : Path) (w : World) : Path :=
  report_out_folder_path // ("log_" +:+ now_stamp (clock w) +:+ ".log").

Definition main_mr_sl (loader : PluginLoader)
    (profile_input_path report_out_folder_path : Path) (w : World)
  : MisterSkinnylegs :=
  {| _plugin_loader := loader;
     _profile_folder_path := profile_input_path;
     _log_callback :=
       BoundLogMessage {| _f := log_path report_out_folder_path w |} |}.

(** Nothing but the content of the log file differs. *)
Definition same_but_log (lf : SimpleLog) (w w' : World) : Prop :=
  (∀ p, kind (fs w' !! p) = kind (fs w !! p))
  ∧ (∀ p, p ≠ _f lf → fs w' !! p = fs w !! p).

Lemma fs_closed_parent (fs0 : FS) p s :
  fs_closed fs0 → is_Some (fs0 !! (p // s)) → fs0 !! p = Some Dir.
Proof.
  intros Hclosed [n Hn]. specialize (Hclosed (p // s) n Hn). cbn in Hclosed.
  unfold path_is_dir in Hclosed. by destruct (fs0 !! p) as [[]|].
Qed.

Lemma fs_closed_below (fs0 : FS) p s :
  fs_closed fs0 → fs0 !! p = None → fs0 !! (p // s) = None.
Proof.
  intros Hclosed Hp. destruct (fs0 !! (p // s)) as [n|] eqn:Hn; [|done].
  assert (fs0 !! p = Some Dir) as Hdir by (eapply fs_closed_parent; eauto).
  congruence.
Qed.

(** On such a disk an entry has its ancestors: the way to its folder is
    open. *)
Lemma walk_closed (fs0 : FS) p s :
  fs_closed fs0 → is_Some (fs0 !! (p // s)) → walk fs0 p = Ok tt.
Proof.
  intros Hclosed. revert s. induction p as [|q IH t]; intros s Hs;
    pose proof (fs_closed_parent _ _ _ Hclosed Hs) as Hdir; cbn [walk].
  - unfold entry_dir. by rewrite Hdir.
  - rewrite (IH t) by (rewrite Hdir; by eexists). unfold entry_dir. by rewrite Hdir.
Qed.

Lemma mkdir_here_frame exist_ok (fs0 fs1 : FS) p q :
  mkdir_here exist_ok fs0 p = Ok fs1 → q ≠ p → fs1 !! q = fs0 !! q.
Proof.
  intros [(_ & _ & ->)|(_ & _ & ->)]%mkdir_here_ok Hq; [|done].
  by rewrite lookup_insert_ne.
Qed.

Lemma exist_ok_same (exist_ok : bool) (fs0 fs1 : FS) p e :
  (if exist_ok && path_is_dir fs0 p then Ok fs0 else Raise e) = Ok fs1 → fs1 = fs0.
Proof. destruct (exist_ok && path_is_dir fs0 p); congruence. Qed.

Lemma path_mkdir_frame parents exist_ok (fs0 fs1 : FS) p q :
  path_mkdir parents exist_ok fs0 p = Ok fs1 → q ∉ lineage p →
  fs1 !! q = fs0 !! q.
Proof.
  revert parents exist_ok fs0 fs1.
  induction p as [|p IH s]; intros parents exist_ok fs0 fs1; cbn [path_mkdir lineage];
    intros Hmk Hq; apply not_elem_of_cons in Hq as [Hne Hq].
  - destruct (os_mkdir fs0 Root) as [fs'|e] eqn:E.
    + injection Hmk as <-. apply os_mkdir_ok in E as (_ & _ & ->).
      by rewrite lookup_insert_ne.
    + destruct e; try (by apply exist_ok_same in Hmk as ->).
      by destruct parents.
  - destruct (os_mkdir fs0 (p // s)) as [fs'|e] eqn:E.
    + injection Hmk as <-. apply os_mkdir_ok in E as (_ & _ & ->).
      by rewrite lookup_insert_ne.
    + destruct e; try (by apply exist_ok_same in Hmk as ->).
      destruct parents; [|done].
      destruct (path_mkdir true true fs0 p) as [fs'|e'] eqn:Ep; [|done].
      rewrite (mkdir_here_frame _ _ _ _ _ Hmk) by done. by eapply IH.
Qed.

Lemma same_but_log_refl lf w : same_but_log lf w w.
Proof. done. Qed.

Lemma same_but_log_trans lf w1 w2 w3 :
  same_but_log lf w1 w2 → same_but_log lf w2 w3 → same_but_log lf w1 w3.
Proof.
  intros [Hk1 Ho1] [Hk2 Ho2]. split.
  - intros p. by rewrite Hk2.
  - intros p Hp. by rewrite Ho2, Ho1.
Qed.

Lemma same_but_log_message lf message w :
  same_but_log lf w (fst (log_message lf message w)).
Proof.
  split.
  - intros p. apply log_message_kind.
  - intros p Hp. by apply log_message_other.
Qed.

Lemma same_but_log_logged_world lf msgs w :
  same_but_log lf w (logged_world (BoundLogMessage lf) msgs w).
Proof.
  revert w. induction msgs as [|m msgs IH]; intros w; [apply same_but_log_refl|].
  unfold logged_world in *. cbn [foldl]. eapply same_but_log_trans; [|apply IH].
  apply same_but_log_message.
Qed.

Lemma same_but_log_run_artifact lf self spec w :
  _log_callback self = BoundLogMessage lf →
  same_but_log lf w (fst (_run_artifact self spec w)).
Proof.
  intros Hcb. rewrite _run_artifact_unfold. cbn [fst]. rewrite Hcb.
  apply (same_but_log_logged_world lf _ (entered self spec w)).
Qed.

Lemma same_but_log_run_tasks lf coros w :
  Forall (fun c => match c with
                   | Co_run_artifact self _ => _log_callback self = BoundLogMessage lf
                   end) coros →
  same_but_log lf w (fst (run_tasks coros w)).
Proof.
  intros Hall. revert w. induction Hall as [|[self spec] coros Hcb _ IH]; intros w.
  - apply same_but_log_refl.
  - assert (fst (run_tasks (Co_run_artifact self spec :: coros) w)
            = fst (run_tasks coros (fst (_run_artifact self spec w)))) as ->.
    { cbn [run_tasks]. unfold bind at 1. rewrite run_task_ok. cbn [await].
      unfold bind, ret. by destruct (run_tasks coros _) as [w' [futures|e]]. }
    eapply same_but_log_trans; [|apply IH]. by apply same_but_log_run_artifact.
Qed.

Lemma logged_between_trans lf w1 w2 w3 :
  same_but_log lf w1 w2 ∧ next_handle w2 = next_handle w1 →
  same_but_log lf w2 w3 ∧ next_handle w3 = next_handle w2 →
  same_but_log lf w1 w3 ∧ next_handle w3 = next_handle w1.
Proof.
  intros [H1 Hn1] [H2 Hn2]. split; [by eapply same_but_log_trans|congruence].
Qed.

Lemma logged_between_message lf message w :
  same_but_log lf w (fst (log_message lf message w))
  ∧ next_handle (fst (log_message lf message w)) = next_handle w.
Proof. split; [apply same_but_log_message|done]. Qed.

Lemma logged_between_logged_world lf msgs w :
  same_but_log lf w (logged_world (BoundLogMessage lf) msgs w)
  ∧ next_handle (logged_world (BoundLogMessage lf) msgs w) = next_handle w.
Proof.
  split; [apply same_but_log_logged_world|].
  by destruct (logged_world_handles (BoundLogMessage lf) msgs w) as (-> & _ & _).
Qed.

Lemma for_each_map {A B} (g : A → B) (xs : list A) (body : B → M unit) w :
  for_each xs (fun x => body (g x)) w = for_each (map g xs) body w.
Proof.
  revert w. induction xs as [|x xs IH]; intros w; [done|].
  cbn [for_each map]. unfold bind. destruct (body (g x) w) as [w1 [[]|e]]; [|done].
  apply IH.
Qed.

Lemma for_each_log lf {A} (g : A → string) (xs : list A) w :
  for_each xs (fun x => log_message lf (g x)) w
  = (logged_world (BoundLogMessage lf) (map g xs) w, Ok tt).
Proof.
  rewrite (for_each_map g xs (log_message lf)).
  apply (for_each_call_log (BoundLogMessage lf)).
Qed.

(** What [main] does once the log file is open and the catalog loaded. *)
Lemma main_after_startup lf out log_name (mr_sl : MisterSkinnylegs)
    (items : list (ArtifactSpec * Envelope)) w :
  _f lf = out // log_name →
  _log_callback mr_sl = BoundLogMessage lf →
  (∀ coros, set_iteration coros ≡ₚ coros) →
  walk (fs w) out = Ok tt →
  tasks_outcomes (set_iteration (tasks mr_sl)) (next_handle w) = map Ok items →
  Forall (fun item => plain_names (fst item)
                      ∧ snd (json_dump (snd item)) = None
                      ∧ is_file (fs w !! report_dir out (fst item)) = false
                      ∧ fs w !! report_file out (fst item) = None) items →
  NoDup (map (fun item => report_file out (fst item)) items) →
  ∃ w',
    (log_message lf ("Mister Skinnylegs v" +:+ __version__ +:+ " is on the go!") >>>
     log_message lf ("Working with profile folder: "
                     +:+ path_str (profile_folder mr_sl)) >>>
     log_message lf "" >>>
     log_message lf "Plugins loaded:" >>>
     log_message lf "===============" >>>
     for_each (artifacts mr_sl)
              (fun e => log_message lf (name (fst e) +:+ "  -  " +:+ path_name (snd e))) >>>
     log_message lf "" >>>
     log_message lf "Processing starting..." >>>
     let! gen := run_all mr_sl in
     async_for gen (write_report (log_message lf) out)) w = (w', Ok tt)
    ∧ Forall (fun item =>
                fs w' !! report_file out (fst item)
                = match result (snd item) with
                  | [] => None
                  | _ :: _ => Some (File (fst (json_dump (snd item))))
                  end) items
    ∧ (∀ p, p ≠ _f lf →
            Forall (fun item => p ≠ report_file out (fst item)
                                ∧ p ≠ report_dir out (fst item)) items →
            fs w' !! p = fs w !! p)
    ∧ (∀ p, is_file (fs w !! p) = true → is_file (fs w' !! p) = true).
Proof.
  intros Hlog Hcb Hperm Hout Houtcomes Hitems Hnd.
  do 5 (erewrite bind_ok by apply log_message_ok).
  erewrite bind_ok
    by apply (for_each_log lf (fun e => name (fst e) +:+ "  -  " +:+ path_name (snd e))).
  do 2 (erewrite bind_ok by apply log_message_ok).
  match goal with
  | |- context [bind (run_all mr_sl) _ ?w3] => set (w_run := w3)
  end.
  assert (same_but_log lf w w_run ∧ next_handle w_run = next_handle w) as [Hsame Hnh].
  { unfold w_run.
    do 2 (eapply logged_between_trans; [|apply logged_between_message]).
    eapply logged_between_trans; [|apply logged_between_logged_world].
    do 4 (eapply logged_between_trans; [|apply logged_between_message]).
    apply logged_between_message. }
  destruct (run_all_outcomes mr_sl w_run) as (w_ran & Hrun & _).
  rewrite Hnh, Houtcomes in Hrun.
  assert (same_but_log lf w_run w_ran) as Hran.
  { replace w_ran with (fst (run_all mr_sl w_run)) by (by rewrite Hrun).
    unfold run_all, as_completed. apply same_but_log_run_tasks.
    apply Forall_forall. intros c Hc. rewrite Hperm in Hc. unfold tasks in Hc.
    apply list_elem_of_fmap in Hc as (e & -> & _). exact Hcb. }
  pose proof (same_but_log_trans lf _ _ _ Hsame Hran) as [Hkind Hother].
  erewrite bind_ok by exact Hrun.
  destruct (reports_loop lf out log_name items w_ran Hlog)
    as (w' & Hloop & Hfiles & Hframe & Hkeep).
  { by rewrite (walk_kinds (fs w) (fs w_ran)). }
  { eapply Forall_impl; [exact Hitems|]. intros item (Hplain & Hjson & Hdir & Hfile).
    split; [done|]. split; [done|]. split.
    - rewrite kind_is_file, Hkind, <- kind_is_file. done.
    - apply kind_None. rewrite Hkind. by apply kind_None. }
  { done. }
  exists w'. split; [exact Hloop|]. split; [exact Hfiles|]. split.
  - intros p Hp Hall. rewrite Hframe by done. by apply Hother.
  - intros p Hp. apply Hkeep. by rewrite kind_is_file, Hkind, <- kind_is_file.
Qed.

(** X20.  A whole run of [main] on a disk on which every entry lies in a
    directory: when the profile folder is a directory, nothing stands at
    the output path and the output folder can be made, the catalog loads,
    every plugin function returns, every envelope can be dumped, the
    sanitized service and the sanitized name with [".json"] of every item
    are each the name of one entry, no two items have the same sanitized
    service and name, and no service is named like the log file, then
    [main] ends normally; the output folder
    is a directory that holds the log file; the report of every item with a
    non-empty result holds the dump of that item and no file stands at the
    report path of an item with an empty result; and everything that was
    on the disk is as it was. *)
Theorem main_writes_the_reports (profile_input_path report_out_folder_path : Path)
    (w : World) (fs1 : FS) (loader : PluginLoader)
    (items : list (ArtifactSpec * Envelope)) :
  (∀ coros, set_iteration coros ≡ₚ coros) →
  fs_closed (fs w) →
  path_is_dir (fs w) profile_input_path = true →
  fs w !! report_out_folder_path = None →
  path_mkdir true false (fs w) report_out_folder_path = Ok fs1 →
  PluginLoader_init PLUGIN_PATH = Ok loader →
  tasks_outcomes
    (set_iteration
       (tasks (main_mr_sl loader profile_input_path report_out_folder_path w)))
    (next_handle w)
  = map Ok items →
  Forall (fun item =>
            plain_names (fst item)
            ∧ snd (json_dump (snd item)) = None
            ∧ sanitize_filename (service (fst item))
              ≠ "log_" +:+ now_stamp (clock w) +:+ ".log") items →
  NoDup (map (fun item => (sanitize_filename (service (fst item)),
                           sanitize_filename (name (fst item)))) items) →
  ∃ w',
    main [profile_input_path; report_out_folder_path] w = (w', Ok tt)
    ∧ fs w' !! report_out_folder_path = Some Dir
    ∧ is_file (fs w' !! log_path report_out_folder_path w) = true
    ∧ Forall (fun item =>
                fs w' !! (report_out_folder_path
                          // sanitize_filename (service (fst item))
                          // (sanitize_filename (name (fst item)) +:+ ".json"))
                = match result (snd item) with
                  | [] => None
                  | _ :: _ => Some (File (fst (json_dump (snd item))))
                  end) items
    ∧ fs w ⊆ fs w'.
Proof.
  intros Hperm Hclosed Hprofile Hfree Hmk Hloader Houtcomes Hitems Hnd.
  set (out := report_out_folder_path) in *.
  set (log_name := "log_" +:+ now_stamp (clock w) +:+ ".log") in *.
  set (lf := {| _f := out // log_name |}).
  set (mr_sl := main_mr_sl loader profile_input_path out w) in *.
  destruct (path_mkdir_subseteq _ _ _ _ _ Hmk) as [Hsub Hout1].
  pose proof (path_mkdir_created _ _ _ _ Hmk) as Hwalk1.
  assert (Forall (fun item => plain_names (fst item)) items) as Hplain.
  { eapply Forall_impl; [exact Hitems|]. by intros item [? _]. }
  assert (∀ s, fs1 !! (out // s) = None) as Hbelow.
  { intros s. rewrite (path_mkdir_frame _ _ _ _ _ (out // s) Hmk)
      by apply below_not_in_lineage.
    by apply fs_closed_below. }
  assert (∀ s n, fs1 !! (out // s // n) = None) as Hbelow2.
  { intros s n. rewrite (path_mkdir_frame _ _ _ _ _ (out // s // n) Hmk)
      by apply below_below_not_in_lineage.
    apply fs_closed_below; [done|]. by apply fs_closed_below. }
  set (fs2 := <[out // log_name := File ""]> fs1).
  set (w2 := {| fs := fs2; stdout := stdout w ++ [BANNER]; clock := S (clock w);
                next_handle := next_handle w; open_handles := open_handles w;
                trace := trace w |}).
  assert (fs1 ⊆ fs2) as Hsub2 by (by apply insert_subseteq).
  assert (path_is_dir fs2 profile_input_path = true) as Hprofile2.
  { unfold path_is_dir in *.
    destruct (fs w !! profile_input_path) as [[]|] eqn:E; try done.
    assert (fs2 !! profile_input_path = Some Dir) as ->; [|done].
    eapply lookup_weaken; [|exact Hsub2]. by eapply lookup_weaken. }
  destruct (main_after_startup lf out log_name mr_sl items w2)
    as (w' & Hrun & Hfiles & Hframe & Hkeep); try done.
  { unfold w2, fs2. cbn [fs]. by rewrite walk_insert_below. }
  { eapply Forall_impl; [exact Hitems|]. intros item ([Hps Hpn] & Hjson & Hname).
    split; [done|]. split; [done|].
    rewrite report_dir_plain, report_file_plain by done.
    unfold w2, fs2. cbn [fs]. split.
    - rewrite lookup_insert_ne by congruence. by rewrite Hbelow.
    - rewrite lookup_insert_ne; [apply Hbelow2|].
      intros [= Heq _]. symmetry in Heq. revert Heq. apply Child_neq. }
  { by apply report_files_NoDup. }
  exists w'. split; [|split; [|split; [|split]]].
  - unfold main, args_get, SimpleLog_init, MisterSkinnylegs_init, datetime_now.
    cbn [lookup list_lookup].
    erewrite bind_ok by reflexivity. erewrite bind_ok by reflexivity.
    erewrite bind_ok by reflexivity. erewrite bind_ok by reflexivity.
    cbn [fs print]. rewrite Hprofile. cbn [negb].
    erewrite bind_ok by reflexivity.
    unfold path_exists. cbn [fs print]. fold out. rewrite Hfree.
    erewrite bind_ok by (apply fs_op_ok; cbn [fs print]; exact Hmk).
    erewrite bind_ok by reflexivity.
    erewrite bind_ok.
    2:{ cbn [clock set_fs print]. fold log_name.
        erewrite bind_ok; [reflexivity|]. apply fs_op_ok. cbn [fs set_fs print].
        unfold open_xt. rewrite Hbelow. cbn [parent]. by rewrite Hwalk1. }
    erewrite bind_ok.
    2:{ rewrite Hloader. erewrite bind_ok by reflexivity.
        erewrite bind_ok by reflexivity. cbn [fs set_fs print].
        fold fs2. rewrite Hprofile2. reflexivity. }
    exact Hrun.
  - rewrite Hframe.
    + unfold w2, fs2. cbn [fs]. rewrite lookup_insert_ne; [done|].
      intros Heq. revert Heq. apply Child_neq.
    + cbn [_f lf]. intros Heq. symmetry in Heq. revert Heq. apply Child_neq.
    + rewrite Forall_forall in Hplain. apply Forall_forall. intros item Hin.
      destruct (Hplain item Hin) as [Hps Hpn].
      rewrite report_dir_plain, report_file_plain by done. split.
      * intros Heq. symmetry in Heq. revert Heq. apply Child_Child_neq.
      * intros Heq. symmetry in Heq. revert Heq. apply Child_neq.
  - apply Hkeep. unfold w2, fs2, log_path. cbn [fs]. fold log_name.
    by rewrite lookup_insert_eq.
  - rewrite Forall_forall in Hfiles, Hplain. apply Forall_forall. intros item Hin.
    destruct (Hplain item Hin) as [Hps Hpn].
    rewrite <- (report_file_plain out (fst item)) by done. by apply Hfiles.
  - apply map_subseteq_spec. intros p n Hp.
    assert (fs1 !! p = Some n) as Hp1 by (by eapply lookup_weaken).
    rewrite Hframe.
    + unfold w2, fs2. cbn [fs]. rewrite lookup_insert_ne; [done|].
      intros <-. by rewrite Hbelow in Hp1.
    + cbn [_f lf]. intros ->. by rewrite Hbelow in Hp1.
    + rewrite Forall_forall in Hplain. apply Forall_forall. intros item Hin.
      destruct (Hplain item Hin) as [Hps Hpn].
      rewrite report_dir_plain, report_file_plain by done.
      split; intros ->; [by rewrite Hbelow2 in Hp1|by rewrite Hbelow in Hp1].
Qed.

End MisterSkinnylegs.

Arguments ArgProfile {Storage} h contents.
Arguments ArgLog {Storage}.
Arguments ArgStorage {Storage} s.
Arguments params {Storage} p.
Arguments body {Storage} p args.
Arguments Build_PyFunction {Storage} params body.
Arguments service {Storage} a.
Arguments name {Storage} a.
Arguments description {Storage} a.
Arguments version {Storage} a.
Arguments function {Storage} a.
Arguments presentation {Storage} a.
Arguments Build_ArtifactSpec {Storage} service name description version function presentation.
Arguments EvOpenProfile {Storage} h folder.
Arguments EvCloseProfile {Storage} h.
Arguments EvCall {Storage} artifact args.
Arguments fs {Storage} w.
Arguments stdout {Storage} w.
Arguments clock {Storage} w.
Arguments next_handle {Storage} w.
Arguments open_handles {Storage} w.
Arguments trace {Storage} w.
Arguments Build_World {Storage} fs stdout clock next_handle open_handles trace.
Arguments _plugins {Storage} p.
Arguments Build_PluginLoader {Storage} _plugins.
Arguments _plugin_loader {Storage} m.
Arguments _profile_folder_path {Storage} m.
Arguments _log_callback {Storage} m.
Arguments Build_MisterSkinnylegs {Storage} _plugin_loader _profile_folder_path _log_callback.
Arguments Co_run_artifact {Storage} self spec.
Arguments artifacts {Storage} self.
Arguments spec_of {Storage} coro.
Arguments names_of {Storage} cat.
Arguments call {Storage} f args.
Arguments artifact_args {Storage} profile_contents self h.
Arguments envelope_of {Storage} spec r.
Arguments print {Storage} line w.
Arguments log_message {Storage} now_str console_text self message.
Arguments descriptors_in {Storage} modules.
Arguments PluginLoader_init {Storage} plugin_modules plugin_path.
Arguments PluginLoader_getitem {Storage} loader artifact_name.
Arguments _run_artifact {Storage} now_str console_text profile_contents self spec.
Arguments run_one {Storage} self artifact_name.
Arguments tasks {Storage} self.
Arguments run_all {Storage} now_str console_text profile_contents set_iteration self.
Arguments async_for {Storage A} gen body.
Arguments plain_names {Storage} sanitize_filename spec.
Arguments out_dir_path {Storage} sanitize_filename report_out_folder_path spec.
Arguments out_file_path {Storage} sanitize_filename report_out_folder_path spec.
Arguments report_dir {Storage} sanitize_filename report_out_folder_path spec.
Arguments report_file {Storage} sanitize_filename report_out_folder_path spec.
Arguments write_report {Storage} sanitize_filename json_dump log report_out_folder_path item.
Arguments main {Storage} now_str now_stamp console_text plugin_modules
  profile_contents set_iteration sanitize_filename json_dump script_dir args.
Arguments task_outcome {Storage} profile_contents coro h.
Arguments tasks_outcomes {Storage} profile_contents coros h.
Arguments tasks_events {Storage} profile_contents coros h.
Arguments folders_and_files {Storage} FOLDERS_URL_PATTERN_match
  FILES_URL_PATTERN_match DOCS_URL_PATTERN_match str_title profile.
Arguments thumbnails {Storage} THUMBNAIL_URL_PATTERN_1_search
  THUMBNAIL_URL_PATTERN_2_search filename_search get_binary_stream profile.
Arguments google_drive_artifacts {Storage} FOLDERS_URL_PATTERN_match
  FILES_URL_PATTERN_match DOCS_URL_PATTERN_match THUMBNAIL_URL_PATTERN_1_search
  THUMBNAIL_URL_PATTERN_2_search filename_search str_title int_of_str
  get_binary_stream.
Arguments storage {Storage} p.
Arguments logged {Storage} p.
Arguments Build_PluginState {Storage} storage logged.
Arguments JNull {Float}.
Arguments JBool {Float} b.
Arguments JInt {Float} z.
Arguments JFloat {Float} f.
Arguments JStr {Float} s.
Arguments JList {Float} elements.
Arguments JDict {Float} members.
Arguments OfJSON {Float} x.
Arguments OfStr {Float} s.
Arguments OfDatetime {Float} us.
Arguments OfLocation {Float} location.
Arguments ChatArtifactResult_mk {Float} chat_result.
Arguments chat_result {Float} c.
Arguments members_get {Float} members k.
Arguments row_get {Float} row k.
Arguments is_dict {Float} x.

(** * Concrete runs *)

Module Scenario.

(** The collaborators, fixed: a storage that lists what was exported, a
    clock that counts, a console that prints every character, a [set] that
    iterates in insertion order. *)
Definition Storage : Type := list (string * string).

Definition now_str (n : nat) : string := "2024-05-01 10:00:" +:+ pretty n.
Definition now_stamp (n : nat) : string := "20240501_1000" +:+ pretty n.
Definition console_text (s : string) : string := s.
Definition set_iteration (coros : list (Coroutine Storage)) : list (Coroutine Storage) :=
  coros.

(** Modelled from the spec: [util/fs_utils.py] is not among the sources.
    Per the spec the characters that are unsafe in a file name are stripped
    or replaced; here each path separator and reserved character becomes an
    underscore. *)
Definition unsafe (c : ascii) : bool :=
  existsb (Ascii.eqb c) ["/"; "\"; ":"; "*"; "?"; "<"; ">"; "|"; "034"]%char.

Fixpoint sanitize_filename (s : string) : string :=
  match s with
  | EmptyString => EmptyString
  | String c s' => String (if unsafe c then "_"%char else c) (sanitize_filename s')
  end.

(** A stand-in for [json.dump] that names the artifact and counts its
    records; like [json.dump] it raises TypeError on a datetime. *)
Definition has_datetime (d : PyDict) : bool :=
  existsb (fun kv => match snd kv with VDatetime _ => true | _ => false end) d.

Definition json_dump (e : Envelope) : string * option Exn :=
  if existsb has_datetime (result e)
  then ("{", Some TypeError)
  else ("{artifact_name: " +:+ artifact_name e +:+ ", result: "
        +:+ pretty (length (result e)) +:+ " records}", None).

Definition script_dir : Path := Root // "opt" // "mister-skinnylegs".
Definition profile : Path := Root // "profile".
Definition out : Path := Root // "cases" // "out".
Definition plugin_file : Path := script_dir // "plugins" // "web_plugin.py".

Definition profile_contents (_ : Path) : ProfileData :=
  {| history := []; cache := []; session_storage := [] |}.

(** A disk with the profile folder on it and nothing else. *)
Definition w0 : World Storage :=
  {| fs := {[ Root := Dir; profile := Dir ]};
     stdout := []; clock := 0; next_handle := 0; open_handles := []; trace := [] |}.

(** Plugin functions of two parameters, [(profile, log_func)]. *)
Definition returning (rows : list PyDict) : PyFunction Storage :=
  {| params := 2;
     body := fun _ => (["working"], Ok (ArtifactResult.mk rows)) |}.

Definition raising : PyFunction Storage :=
  {| params := 2;
     body := fun _ => ([], Raise (PluginException "boom")) |}.

Definition unit_ (service name : string) (f : PyFunction Storage) : ArtifactSpec Storage :=
  {| service := service; name := name; description := "about " +:+ name;
     version := "0.1"; function := f; presentation := table |}.

Definition row (n : Z) : PyDict := [("id", VInt n)].

Definition A := unit_ "X" "A" (returning [row 1; row 2; row 3]).
Definition B := unit_ "Y" "B" (returning []).
Definition C := unit_ "X" "C" raising.
Definition D := unit_ "Y" "D" (returning [row 4]).

Definition loaded (specs : list (ArtifactSpec Storage)) (cb : LogCallback)
  : MisterSkinnylegs Storage :=
  {| _plugin_loader := {| _plugins := map (fun s => (s, plugin_file)) specs |};
     _profile_folder_path := profile;
     _log_callback := cb |}.

(** [main] on a plugin directory whose one module exports [specs]. *)
Definition main_with (specs : list (ArtifactSpec Storage)) (args : list Path)
  : ST (World Storage) unit :=
  main now_str now_stamp console_text
       (fun _ => [(plugin_file, specs)]) profile_contents set_iteration
       sanitize_filename json_dump script_dir args.

Definition run (specs : list (ArtifactSpec Storage)) : World Storage * Exc unit :=
  main_with specs [profile; out] w0.


(** The orchestrator's operations with these collaborators. *)
Local Abbreviation run_artifact_ := (_run_artifact now_str console_text profile_contents).
Local Abbreviation run_all_ := (run_all now_str console_text profile_contents set_iteration).
Local Abbreviation log_message_ := (log_message (Storage := Storage) now_str console_text).
Local Abbreviation write_report_ := (write_report sanitize_filename json_dump).

(** A disk on which an earlier run has left an output folder with a log
    file, the directory of service X and the report of artifact A, and on
    which some notes lie beside the profile. *)
Definition notes : Path := Root // "notes.txt".
Definition old_log : SimpleLog := {| _f := out // "log_old.log" |}.

Definition w_used : World Storage :=
  {| fs := {[ Root := Dir; profile := Dir; notes := File "keep";
              Root // "cases" := Dir; out := Dir;
              out // "log_old.log" := File "";
              out // "X" := Dir; out // "X" // "A.json" := File "old report" ]};
     stdout := []; clock := 0; next_handle := 0; open_handles := []; trace := [] |}.

Definition w_notes : World Storage :=
  {| fs := {[ Root := Dir; profile := Dir; notes := File "keep" ]};
     stdout := []; clock := 0; next_handle := 0; open_handles := []; trace := [] |}.

(** Two artifacts whose names differ only in a character that is unsafe in
    a file name, an artifact whose name is taken, and one whose records
    hold a datetime. *)
Definition slash := unit_ "Web" "a/b" (returning [row 1]).
Definition colon := unit_ "Web" "a:b" (returning [row 2]).
Definition twin := unit_ "Y" "A" (returning [row 5]).
Definition stamped := unit_ "X" "T" (returning [[("timestamp", VDatetime 0)]]).

Definition envelope_A : Envelope :=
  envelope_of A (ArtifactResult.mk [row 1; row 2; row 3]).
Definition envelope_B : Envelope := envelope_of B (ArtifactResult.mk []).
Definition envelope_D : Envelope := envelope_of D (ArtifactResult.mk [row 4]).

(** Stand-ins for the patterns, [str.title], [int] and the storage of the
    Google Drive plugin. *)
Definition FOLDERS_URL_PATTERN_match (s : string) : bool :=
  String.prefix "https://drive.google.com/drive/folders/" s.

Definition FILES_URL_PATTERN_match (s : string) : bool :=
  String.prefix "https://drive.google.com/file/d/" s.

Fixpoint until (stop : ascii) (s : string) : string * string :=
  match s with
  | EmptyString => (EmptyString, EmptyString)
  | String c s' =>
      if Ascii.eqb c stop then (EmptyString, s)
      else let '(a, b) := until stop s' in (String c a, b)
  end.

Definition DOCS_URL_PATTERN_match (s : string) : option string :=
  if String.prefix "https://docs.google.com/" s then
    let '(service, rest) := until "/"%char (String.substring 24 (String.length s) s) in
    if negb (String.eqb service "") && String.prefix "/d/" rest
    then Some service else None
  else None.

Definition THUMBNAIL_URL_PATTERN_1_search (s : string) : bool :=
  String.prefix "https://lh3.googleusercontent.com/fife/" s.

Definition THUMBNAIL_URL_PATTERN_2_search (s : string) : bool :=
  String.prefix "https://drive.fife.usercontent.google.com/u/" s.

Fixpoint after (needle s : string) : option string :=
  if String.prefix needle s
  then Some (String.substring (String.length needle) (String.length s) s)
  else match s with
       | EmptyString => None
       | String _ s' => after needle s'
       end.

Definition filename_search (s : string) : option string :=
  match after ("filename=" +:+ String "034"%char "") s with
  | Some (String c rest) =>
      match until "034"%char rest with
      | (name, String _ _) => Some (String c name)
      | _ => None
      end
  | _ => None
  end.

Definition str_title (s : string) : string :=
  match s with
  | EmptyString => EmptyString
  | String c s' =>
      let n := nat_of_ascii c in
      String (if (97 <=? n)%nat && (n <=? 122)%nat then ascii_of_nat (n - 32) else c) s'
  end.

Fixpoint digits (s : string) (acc : Z) : option Z :=
  match s with
  | EmptyString => Some acc
  | String c s' =>
      let n := nat_of_ascii c in
      if (48 <=? n)%nat && (n <=? 57)%nat
      then digits s' (acc * 10 + Z.of_nat (n - 48))%Z
      else None
  end.

Definition int_of_str (s : string) : option Z :=
  match s with
  | EmptyString => None
  | String "-"%char (String c s') => Z.opp <$> digits (String c s') 0
  | _ => digits s 0
  end.

Definition get_binary_stream (st : Storage) (suggested content : string)
  : Storage * string :=
  (st ++ [(sanitize_filename suggested, content)],
   "thumbnails/" +:+ sanitize_filename suggested).

Local Abbreviation folders_and_files_ :=
  (folders_and_files (Storage := Storage) FOLDERS_URL_PATTERN_match
     FILES_URL_PATTERN_match DOCS_URL_PATTERN_match str_title).
Local Abbreviation thumbnails_ :=
  (thumbnails THUMBNAIL_URL_PATTERN_1_search THUMBNAIL_URL_PATTERN_2_search
     filename_search get_binary_stream).
Local Abbreviation timeline_usage_ := (timeline_usage Storage int_of_str).

(** A profile that has seen Google Drive. *)
Definition visit (id : Z) (url title : string) (time : Z) : HistoryRecord :=
  {| rec_id := id; url := url; title := title; visit_time := time;
     record_location := "History" |}.

Definition thumbnail (url name : string) (requested : Z) : CacheRecord :=
  {| key_url := url +:+ String "000"%char "";
     data := "PNG";
     metadata :=
       {| header_attributes :=
            {[ "content-disposition" :=
                 ["inline; filename=" +:+ String "034"%char "" +:+ name
                  +:+ String "034"%char ""] ]};
          request_time := requested;
          response_time := requested + 1 |};
     data_location := "f_000001" |}.

Definition drive_profile : ProfileData :=
  {| history :=
       [visit 1 "https://drive.google.com/drive/folders/abc" "My Drive - Google Drive" 30;
        visit 2 "https://example.org/" "Example" 5;
        visit 3 "https://drive.google.com/file/d/xyz" "shot - 1.png - Google Drive" 10;
        visit 4 "https://docs.google.com/spreadsheets/d/q" "Budget - Google Sheets" 20];
     cache :=
       [thumbnail "https://lh3.googleusercontent.com/fife/a=w200-h100" "a.png" 7;
        thumbnail "https://lh3.googleusercontent.com/fife/b=w200-h100" "b/c.png" 3];
     session_storage :=
       [{| host := "https://drive.google.com/"; key := "ui:tabFirstStartTimeMsec";
           value := "1700000000500"; leveldb_sequence_number := 8 |};
        {| host := "https://drive.google.com/"; key := "other";
           value := "x"; leveldb_sequence_number := 9 |};
        {| host := "https://drive.google.com/"; key := "ui:tabFirstStartTimeMsec";
           value := "1700000000000"; leveldb_sequence_number := 12 |}] |}.

Definition fresh : PluginState Storage := {| storage := []; logged := [] |}.

(** What a run of a plugin function returned; no record if it raised. *)
Definition returned (run : PluginState Storage * Exc ArtifactResult) : ArtifactResult :=
  match snd run with
  | Ok r => r
  | Raise _ => ArtifactResult.mk []
  end.

(** ** Small checks of the string and path helpers *)

Example rsplit1_first_title :
  rsplit1_first " - " "shot - 1.png - Google Drive" = "shot - 1.png"
  ∧ rsplit1_first " - " "Untitled" = "Untitled".
Proof. split; reflexivity. Qed.

Example rstrip_nul :
  rstrip "000"%char ("https://x/" +:+ String "000"%char (String "000"%char ""))
  = "https://x/".
Proof. reflexivity. Qed.

Example indent_newlines_two_lines :
  indent_newlines ("a" +:+ NL +:+ "b") = "a" +:+ NL +:+ TAB +:+ "b".
Proof. reflexivity. Qed.

Example path_mkdir_parents :
  path_mkdir true false (fs w0) out
  = Ok (<[out := Dir]> (<[Root // "cases" := Dir]> (fs w0)))
  ∧ path_mkdir false false (fs w0) out = Raise FileNotFoundError
  ∧ path_mkdir true false (fs w_used) out = Raise FileExistsError
  ∧ path_mkdir false true (fs w_used) out = Ok (fs w_used)
  ∧ path_mkdir true true (fs w_used) (notes // "sub") = Raise NotADirectoryError.
Proof. repeat split; vm_compute; reflexivity. Qed.

Example parse_unix_ms_range :
  parse_unix_ms 1700000000000 = Ok 1700000000000000%Z
  ∧ parse_unix_ms 253402300800000 = Raise OverflowError.
Proof. split; reflexivity. Qed.

Example list_sort_is_stable :
  list_sort (fun x => getitem x "t")
            [[("t", VInt 2); ("n", VStr "a")];
             [("t", VInt 1); ("n", VStr "b")];
             [("t", VInt 2); ("n", VStr "c")]]
  = Ok [[("t", VInt 1); ("n", VStr "b")];
        [("t", VInt 2); ("n", VStr "a")];
        [("t", VInt 2); ("n", VStr "c")]]
  ∧ list_sort (fun x => getitem x "t") [[("t", VInt 2)]; [("t", VNone)]]
    = Raise TypeError
  ∧ list_sort (fun x => getitem x "t") [[("t", VInt 2)]; [("u", VInt 1)]]
    = Raise KeyError.
Proof. repeat split; reflexivity. Qed.

(** The run of the spec's scenario: A, of service X, has three records, B,
    of service Y, has none; one report is written, for A under [X]. *)
Example two_units_run :
  snd (run [A; B]) = Ok tt
  ∧ fs (fst (run [A; B])) !! (out // "X" // "A.json")
    = Some (File (fst (json_dump envelope_A)))
  ∧ fs (fst (run [A; B])) !! (out // "Y") = None
  ∧ length (trace (fst (run [A; B]))) = 6%nat.
Proof. repeat split; vm_compute; reflexivity. Qed.

(** ** The theorems at work *)

(** C6 on the invocation of A. *)
Lemma envelope_of_completed_invocation_witness :
  ∃ r : ArtifactResult,
    snd (call (function A)
              (artifact_args profile_contents (loaded [A; B] LogFallback)
                             (next_handle w0))) = Ok r
    ∧ fst (A, envelope_A) = A
    ∧ snd (A, envelope_A)
      = {| artifact_service := "X"; artifact_name := "A";
           artifact_version := "0.1"; artifact_description := "about A";
           result := ArtifactResult.result r |}.
Proof.
  apply (envelope_of_completed_invocation Storage now_str console_text
           profile_contents (loaded [A; B] LogFallback) A w0 (A, envelope_A)).
  reflexivity.
Defined.

(** C2, amended, on the catalog of A and B, whose functions both return. *)
Lemma run_all_one_envelope_per_entry_witness :
  ∃ w' futures items,
    run_all_ (loaded [A; B] LogFallback) w0 = (w', Ok futures)
    ∧ yielded futures = (items, None)
    ∧ map fst items = map spec_of (set_iteration (tasks (loaded [A; B] LogFallback)))
    ∧ map fst items ≡ₚ map fst (artifacts (loaded [A; B] LogFallback))
    ∧ length items = length (artifacts (loaded [A; B] LogFallback))
    ∧ Forall (fun item => ∃ r, snd item = envelope_of (fst item) r) items.
Proof.
  apply (run_all_one_envelope_per_entry Storage now_str console_text
           profile_contents set_iteration (loaded [A; B] LogFallback) w0).
  - intros coros. reflexivity.
  - intros e h Hin. cbn in Hin.
    apply elem_of_cons in Hin as [->|Hin]; [reflexivity|].
    apply elem_of_cons in Hin as [->|Hin]; [reflexivity|].
    by apply elem_of_nil in Hin.
Defined.

(** C2 as stated fails: of the three units A, C and D, C raises, and
    [run_all] yields one item, not three. *)
Lemma run_all_yields_fewer_than_catalog :
  ∃ w' futures,
    run_all_ (loaded [A; C; D] LogFallback) w0 = (w', Ok futures)
    ∧ yielded futures = ([(A, envelope_A)], Some (PluginException "boom"))
    ∧ length (artifacts (loaded [A; C; D] LogFallback)) = 3%nat.
Proof. eexists _, _. repeat split; vm_compute; reflexivity. Qed.



(** C5, amended: a profile folder that is missing, an output folder that
    exists, and a catalog in which the name A is taken twice. *)
Lemma startup_failures_witness :
  main_with [A; B] [Root // "missing"; out] w0
  = (print BANNER w0, Raise NotADirectoryError)
  ∧ main_with [A; B] [profile; profile] w0
    = (print BANNER w0, Raise FileExistsError)
  ∧ main_with [A; twin] [profile; out] w0
    = ({| fs := <[out // "log_20240501_10000.log" := File ""]>
                  (<[out := Dir]> (<[Root // "cases" := Dir]> (fs w0)));
          stdout := [BANNER]; clock := 1; next_handle := 0;
          open_handles := []; trace := [] |}, Raise DuplicateArtifactName).
Proof.
  split; [|split].
  - apply (proj1 (startup_failures Storage now_str now_stamp console_text
                    (fun _ => [(plugin_file, [A; B])]) profile_contents
                    set_iteration sanitize_filename json_dump script_dir
                    (Root // "missing") out w0)).
    reflexivity.
  - apply (proj1 (proj2 (startup_failures Storage now_str now_stamp console_text
                           (fun _ => [(plugin_file, [A; B])]) profile_contents
                           set_iteration sanitize_filename json_dump script_dir
                           profile profile w0))); reflexivity.
  - apply (proj2 (proj2 (startup_failures Storage now_str now_stamp console_text
                           (fun _ => [(plugin_file, [A; twin])]) profile_contents
                           set_iteration sanitize_filename json_dump script_dir
                           profile out w0))).
    + reflexivity.
    + reflexivity.
    + cbn. intros Hnodup. apply NoDup_cons in Hnodup as [Hnotin _].
      apply Hnotin. by left.
    + vm_compute. reflexivity.
    + vm_compute. reflexivity.
Defined.

(** C5 as stated fails for the duplicate name: when [main] stops on it the
    output folder, which was not there, and a log file in it exist. *)
Lemma duplicate_name_found_after_output_created :
  snd (run [A; twin]) = Raise DuplicateArtifactName
  ∧ fs w0 !! out = None
  ∧ fs (fst (run [A; twin])) !! out = Some Dir
  ∧ fs (fst (run [A; twin])) !! (out // "log_20240501_10000.log") = Some (File "").
Proof. repeat split; vm_compute; reflexivity. Qed.

(** C7, amended: B has no results and nothing is created; D has some and
    nothing stands at the path of its report; A has some and an old report
    stands at the path of its report. *)
Lemma report_written_or_skipped_witness :
  (write_report_ (log_message_ old_log) (Root // "cases" // "new") (B, envelope_B) w_used
   = (log_message_ old_log "Results acquired for B" >>>
      log_message_ old_log "B had not results, skipping") w_used
   ∧ snd (write_report_ (log_message_ old_log) (Root // "cases" // "new")
                        (B, envelope_B) w_used) = Ok tt
   ∧ (∀ p, kind (fs (fst (write_report_ (log_message_ old_log)
                                        (Root // "cases" // "new")
                                        (B, envelope_B) w_used)) !! p)
           = kind (fs w_used !! p)))
  ∧ (∃ w',
      write_report_ (log_message_ old_log) out (D, envelope_D) w_used = (w', Ok tt)
      ∧ fs w' !! (out // "Y" // "D.json") = Some (File (fst (json_dump envelope_D)))
      ∧ fs w' !! (out // "Y") = Some Dir
      ∧ (∀ p, is_file (fs w' !! p) = true
              ↔ is_file (fs w_used !! p) = true ∨ p = out // "Y" // "D.json"))
  ∧ ∃ w',
      write_report_ (log_message_ old_log) out (A, envelope_A) w_used
      = (w', Raise FileExistsError)
      ∧ (∀ p, kind (fs w' !! p) = kind (fs w_used !! p))
      ∧ (∀ p, p ≠ _f old_log → fs w' !! p = fs w_used !! p).
Proof.
  split; [|split].
  - apply (proj1 (report_written_or_skipped Storage now_str console_text
                    sanitize_filename json_dump old_log (Root // "cases" // "new")
                    B envelope_B w_used)).
    reflexivity.
  - apply (proj1 (proj2 (report_written_or_skipped Storage now_str console_text
                           sanitize_filename json_dump old_log out D envelope_D
                           w_used))).
    + discriminate.
    + reflexivity.
    + reflexivity.
    + vm_compute. reflexivity.
    + vm_compute. reflexivity.
    + vm_compute. reflexivity.
    + reflexivity.
  - apply (proj2 (proj2 (report_written_or_skipped Storage now_str console_text
                           sanitize_filename json_dump old_log out A envelope_A
                           w_used))).
    + discriminate.
    + vm_compute. reflexivity.
    + vm_compute. by eexists.
Defined.

(** C7 as stated fails.  The names [a/b] and [a:b] give the same file
    name: both units have results and both items are consumed, but the open
    for the second raises FileExistsError and one file holds the first
    document only.  And a record with a datetime makes [json.dump] raise
    TypeError after the file was created, so that the file does not hold
    the document. *)
Lemma report_not_written_for_every_result :
  (snd (run [slash; colon]) = Raise FileExistsError
   ∧ report_file sanitize_filename out slash = out // "Web" // "a_b.json"
   ∧ report_file sanitize_filename out colon = out // "Web" // "a_b.json"
   ∧ fs (fst (run [slash; colon])) !! (out // "Web" // "a_b.json")
     = Some (File "{artifact_name: a/b, result: 1 records}")
   ∧ filter (fun e => is_file (Some (snd e)) = true)
            (map_to_list (fs (fst (run [slash; colon]))))
     ≡ₚ [(out // "log_20240501_10000.log",
          default (File "") (fs (fst (run [slash; colon]))
                               !! (out // "log_20240501_10000.log")));
         (out // "Web" // "a_b.json", File "{artifact_name: a/b, result: 1 records}")])
  ∧ (snd (run [stamped]) = Raise TypeError
     ∧ fs (fst (run [stamped])) !! (out // "X" // "T.json") = Some (File "{")).
Proof. repeat split; vm_compute; reflexivity. Qed.

(** C9 on a disk that holds an old log, an old report and some notes. *)
Lemma never_overwrites_witness :
  SimpleLog_init Storage (out // "log_old.log") w_used = (w_used, Raise FileExistsError)
  ∧ (∃ w', write_report_ (log_message_ old_log) out (A, envelope_A) w_used
           = (w', Raise FileExistsError)
           ∧ (∀ q, q ≠ _f old_log → fs w' !! q = fs w_used !! q))
  ∧ fs (fst (main_with [A; B] [profile; out] w_notes)) !! notes = Some (File "keep").
Proof.
  pose proof (never_overwrites Storage now_str now_stamp console_text
                (fun _ => [(plugin_file, [A; B])]) profile_contents
                set_iteration sanitize_filename json_dump script_dir
                [profile; out] w_notes old_log out A envelope_A
                (out // "log_old.log") w_used
                (fun coros => Permutation_refl coros)) as (Hlog & Hreport & Hmain).
  split; [|split].
  - apply Hlog. vm_compute. by eexists.
  - apply Hreport.
    + discriminate.
    + vm_compute. reflexivity.
    + vm_compute. by eexists.
  - apply Hmain. vm_compute. reflexivity.
Defined.

(** C10 on the profile above, for which the three functions return. *)
Lemma google_drive_results_sorted_witness :
  sorted_by_time "timestamp"
    (ArtifactResult.result (returned (folders_and_files_ drive_profile fresh)))
  ∧ sorted_by_time "cache request time"
      (ArtifactResult.result (returned (thumbnails_ drive_profile fresh)))
  ∧ sorted_by_time "timestamp"
      (ArtifactResult.result (returned (timeline_usage_ drive_profile fresh))).
Proof.
  split; [|split].
  - apply (proj1 (google_drive_results_sorted Storage FOLDERS_URL_PATTERN_match
                    FILES_URL_PATTERN_match DOCS_URL_PATTERN_match
                    THUMBNAIL_URL_PATTERN_1_search THUMBNAIL_URL_PATTERN_2_search
                    filename_search str_title int_of_str get_binary_stream
                    drive_profile fresh
                    (fst (folders_and_files_ drive_profile fresh))
                    (returned (folders_and_files_ drive_profile fresh)))).
    vm_compute. reflexivity.
  - apply (proj1 (proj2 (google_drive_results_sorted Storage FOLDERS_URL_PATTERN_match
                    FILES_URL_PATTERN_match DOCS_URL_PATTERN_match
                    THUMBNAIL_URL_PATTERN_1_search THUMBNAIL_URL_PATTERN_2_search
                    filename_search str_title int_of_str get_binary_stream
                    drive_profile fresh
                    (fst (thumbnails_ drive_profile fresh))
                    (returned (thumbnails_ drive_profile fresh))))).
    vm_compute. reflexivity.
  - apply (proj2 (proj2 (google_drive_results_sorted Storage FOLDERS_URL_PATTERN_match
                    FILES_URL_PATTERN_match DOCS_URL_PATTERN_match
                    THUMBNAIL_URL_PATTERN_1_search THUMBNAIL_URL_PATTERN_2_search
                    filename_search str_title int_of_str get_binary_stream
                    drive_profile fresh
                    (fst (timeline_usage_ drive_profile fresh))
                    (returned (timeline_usage_ drive_profile fresh))))).
    vm_compute. reflexivity.
Defined.

(** The three results of the Google Drive functions on the profile above. *)
Example google_drive_on_profile :
  map (fun d => getitem d "timestamp")
      (ArtifactResult.result (returned (folders_and_files_ drive_profile fresh)))
  = [Ok (VDatetime 10); Ok (VDatetime 20); Ok (VDatetime 30)]
  ∧ map (fun d => getitem d "cache request time")
        (ArtifactResult.result (returned (thumbnails_ drive_profile fresh)))
    = [Ok (VDatetime 3); Ok (VDatetime 7)]
  ∧ map (fun d => getitem d "id")
        (ArtifactResult.result (returned (timeline_usage_ drive_profile fresh)))
    = [Ok (VInt 12); Ok (VInt 8)].
Proof. repeat split; vm_compute; reflexivity. Qed.

(** ** More of the code at work *)

Local Abbreviation report_refused_ :=
  (report_refused Storage now_str console_text sanitize_filename json_dump).
Local Abbreviation history_row_ :=
  (history_row FOLDERS_URL_PATTERN_match FILES_URL_PATTERN_match
     DOCS_URL_PATTERN_match str_title).

(** A profile whose second Google Drive session-storage entry holds no
    number, and one whose second cached thumbnail came without a
    content-disposition header. *)
Definition tab_start (value : string) (seq : Z) : SessionStorageRecord :=
  {| host := "https://drive.google.com/"; key := "ui:tabFirstStartTimeMsec";
     value := value; leveldb_sequence_number := seq |}.

Definition odd_session : ProfileData :=
  {| history := []; cache := [];
     session_storage :=
       [tab_start "1700000000500" 8; tab_start "soon" 9;
        tab_start "1700000000000" 12] |}.

Definition bare_thumbnail : CacheRecord :=
  {| key_url := "https://lh3.googleusercontent.com/fife/c=w200-h100";
     data := "JPG";
     metadata := {| header_attributes := ∅; request_time := 4; response_time := 5 |};
     data_location := "f_000002" |}.

Definition odd_cache : ProfileData :=
  {| history := [];
     cache :=
       [thumbnail "https://lh3.googleusercontent.com/fife/a=w200-h100" "a.png" 7;
        bare_thumbnail;
        thumbnail "https://lh3.googleusercontent.com/fife/b=w200-h100" "b.png" 3];
     session_storage := [] |}.

(** A disk on which a file stands where the folder of service Y would go. *)
Definition w_blocked : World Storage :=
  {| fs := <[out // "Y" := File "not a folder"]> (fs w_used);
     stdout := []; clock := 0; next_handle := 0; open_handles := []; trace := [] |}.

Definition envelope_stamped : Envelope :=
  envelope_of stamped (ArtifactResult.mk [[("timestamp", VDatetime 0)]]).
Definition envelope_slash : Envelope :=
  envelope_of slash (ArtifactResult.mk [row 1]).

(** X4 on the session storage whose second entry holds no number. *)
Lemma timeline_usage_first_bad_entry_witness :
  timeline_usage_ odd_session fresh = (fresh, Raise ValueError).
Proof.
  apply (timeline_usage_first_bad_entry Storage int_of_str odd_session fresh
           [tab_start "1700000000500" 8] [tab_start "1700000000000" 12]
           (tab_start "soon" 9) ValueError).
  - vm_compute. reflexivity.
  - repeat constructor.
  - vm_compute. reflexivity.
Defined.

(** X5 on the two thumbnails of the profile above. *)
Lemma thumbnails_exports_each_once_witness :
  NoDup ["0_a.png"; "1_b/c.png"]
  ∧ ∃ st' r,
      thumbnails_ drive_profile fresh = (st', Ok r)
      ∧ storage st' = [("0_a.png", "PNG"); ("1_b_c.png", "PNG")]
      ∧ length (logged st') = 2%nat
      ∧ length (ArtifactResult.result r) = 2%nat.
Proof.
  destruct (thumbnails_exports_each_once Storage THUMBNAIL_URL_PATTERN_1_search
              THUMBNAIL_URL_PATTERN_2_search filename_search get_binary_stream
              drive_profile fresh ["0_a.png"; "1_b/c.png"])
    as (Hnd & _ & st' & r & Hrun & Hstorage & Hlogged & Hresult & _).
  { vm_compute. reflexivity. }
  split; [exact Hnd|]. exists st', r. split; [exact Hrun|].
  split; [exact Hstorage|]. split; [exact Hlogged|exact Hresult].
Defined.

(** X6 on the cache whose second thumbnail has no content-disposition. *)
Lemma thumbnails_keeps_exports_on_failure_witness :
  ∃ st',
    thumbnails_ odd_cache fresh = (st', Raise IndexError)
    ∧ storage st' = [("0_a.png", "PNG")]
    ∧ length (logged st') = 1%nat.
Proof.
  destruct (thumbnails_keeps_exports_on_failure Storage
              THUMBNAIL_URL_PATTERN_1_search THUMBNAIL_URL_PATTERN_2_search
              filename_search get_binary_stream odd_cache fresh
              [(0%nat, thumbnail "https://lh3.googleusercontent.com/fife/a=w200-h100"
                                 "a.png" 7)]
              [(2%nat, thumbnail "https://lh3.googleusercontent.com/fife/b=w200-h100"
                                 "b.png" 3)]
              (1%nat, bare_thumbnail) ["0_a.png"] IndexError)
    as (st' & Hrun & Hstorage & Hlogged & _).
  - vm_compute. reflexivity.
  - vm_compute. reflexivity.
  - vm_compute. reflexivity.
  - exists st'. split; [exact Hrun|]. split; [exact Hstorage|exact Hlogged].
Defined.

(** X7 on no argument, one argument and three. *)
Lemma main_reads_two_arguments_witness :
  main_with [A; B] [] w0 = (w0, Raise IndexError)
  ∧ main_with [A; B] [profile] w0 = (w0, Raise IndexError)
  ∧ main_with [A; B] [profile; out; notes] w0 = main_with [A; B] [profile; out] w0.
Proof.
  split; [|split].
  - apply (proj1 (main_reads_two_arguments Storage now_str now_stamp console_text
                    (fun _ => [(plugin_file, [A; B])]) profile_contents
                    set_iteration sanitize_filename json_dump script_dir [] w0)).
    cbn. lia.
  - apply (proj1 (main_reads_two_arguments Storage now_str now_stamp console_text
                    (fun _ => [(plugin_file, [A; B])]) profile_contents
                    set_iteration sanitize_filename json_dump script_dir
                    [profile] w0)).
    cbn. lia.
  - apply (proj2 (main_reads_two_arguments Storage now_str now_stamp console_text
                    (fun _ => [(plugin_file, [A; B])]) profile_contents
                    set_iteration sanitize_filename json_dump script_dir
                    [profile; out; notes] w0) profile out [notes]).
    reflexivity.
Defined.

(** X8: a file where the folder of service Y would go, an output folder
    that is not there, a file where the output folder would be, and an
    output folder below a file. *)
Lemma write_report_needs_service_folder_witness :
  report_refused_ old_log out (D, envelope_D) w_blocked FileExistsError
  ∧ report_refused_ old_log out (D, envelope_D) w0 FileNotFoundError
  ∧ report_refused_ old_log notes (D, envelope_D) w_notes NotADirectoryError
  ∧ report_refused_ old_log (notes // "sub") (D, envelope_D) w_notes
      NotADirectoryError.
Proof.
  split; [|split; [|split]].
  - apply (proj1 (write_report_needs_service_folder Storage now_str console_text
                    sanitize_filename json_dump old_log out D envelope_D w_blocked
                    ltac:(discriminate) eq_refl)).
    vm_compute. reflexivity.
  - refine (proj1 (proj2 (write_report_needs_service_folder Storage now_str
                    console_text sanitize_filename json_dump old_log out D
                    envelope_D w0 ltac:(discriminate) eq_refl)
                    FileNotFoundError _ _)); vm_compute; reflexivity.
  - refine (proj1 (proj2 (write_report_needs_service_folder Storage now_str
                    console_text sanitize_filename json_dump old_log notes D
                    envelope_D w_notes ltac:(discriminate) eq_refl)
                    NotADirectoryError _ _)); vm_compute; reflexivity.
  - refine (proj1 (proj2 (write_report_needs_service_folder Storage now_str
                    console_text sanitize_filename json_dump old_log
                    (notes // "sub") D envelope_D w_notes ltac:(discriminate)
                    eq_refl)
                    NotADirectoryError _ _)); vm_compute; reflexivity.
Defined.

(** X9 on an envelope whose record holds a datetime. *)
Lemma failed_dump_leaves_partial_report_witness :
  ∃ w',
    write_report_ (log_message_ old_log) out (stamped, envelope_stamped) w_used
    = (w', Raise TypeError)
    ∧ fs w' !! (out // "X" // "T.json") = Some (File "{")
    ∧ fs w' !! (out // "X") = Some Dir.
Proof.
  apply (failed_dump_leaves_partial_report Storage now_str console_text
           sanitize_filename json_dump old_log out stamped envelope_stamped
           w_used TypeError).
  - discriminate.
  - reflexivity.
  - reflexivity.
  - vm_compute. reflexivity.
  - vm_compute. reflexivity.
  - vm_compute. reflexivity.
  - reflexivity.
Defined.

(** X10 on three items: D and [a/b] have records, B has none. *)
Lemma reports_of_a_run_witness :
  ∃ w',
    async_for [Ok (D, envelope_D); Ok (B, envelope_B); Ok (slash, envelope_slash)]
              (write_report_ (log_message_ old_log) out) w_used
    = (w', Ok tt)
    ∧ fs w' !! (out // "Y" // "D.json") = Some (File (fst (json_dump envelope_D)))
    ∧ fs w' !! (out // "Y" // "B.json") = None
    ∧ fs w' !! (out // "Web" // "a_b.json")
      = Some (File (fst (json_dump envelope_slash)))
    ∧ fs w' !! (out // "X" // "A.json") = Some (File "old report")
    ∧ fs w' !! notes = Some (File "keep").
Proof.
  destruct (reports_of_a_run Storage now_str console_text sanitize_filename
              json_dump old_log out "log_old.log"
              [(D, envelope_D); (B, envelope_B); (slash, envelope_slash)] w_used)
    as (w' & Hrun & Hfiles & Hframe).
  - reflexivity.
  - vm_compute. reflexivity.
  - repeat first [apply Forall_nil_2 | apply Forall_cons_2];
      repeat split; vm_compute; reflexivity.
  - apply (bool_decide_unpack _). vm_compute. exact I.
  - exists w'. split; [exact Hrun|].
    apply Forall_cons in Hfiles as [HD Hfiles].
    apply Forall_cons in Hfiles as [HB Hfiles].
    apply Forall_cons in Hfiles as [Hslash _].
    split; [exact HD|]. split; [exact HB|]. split; [exact Hslash|].
    split.
    + rewrite Hframe; [vm_compute; reflexivity|discriminate|].
      repeat first [apply Forall_nil_2 | apply Forall_cons_2]; split; discriminate.
    + rewrite Hframe; [vm_compute; reflexivity|discriminate|].
      repeat first [apply Forall_nil_2 | apply Forall_cons_2]; split; discriminate.
Defined.

(** Services that are no name of an entry.  [""] and ["."] stand for the
    output folder itself, so that the report of [a/b] of service [""] and
    the report of [a:b] of service ["."] are one file, which the second
    open refuses; and the report of a service [".."] goes beside the output
    folder. *)
Definition nameless := unit_ "" "a/b" (returning [row 1]).
Definition dotted := unit_ "." "a:b" (returning [row 2]).
Definition upward := unit_ ".." "U" (returning [row 3]).

Example services_that_are_no_names :
  report_file sanitize_filename out nameless = out // "a_b.json"
  ∧ report_file sanitize_filename out dotted = out // "a_b.json"
  ∧ snd (run [nameless; dotted]) = Raise FileExistsError
  ∧ fs (fst (run [nameless; dotted])) !! (out // "a_b.json")
    = Some (File "{artifact_name: a/b, result: 1 records}")
  ∧ report_file sanitize_filename out upward = out // ".." // "U.json"
  ∧ snd (run [upward]) = Ok tt
  ∧ fs (fst (run [upward])) !! (Root // "cases" // "U.json")
    = Some (File "{artifact_name: U, result: 1 records}")
  ∧ fs (fst (run [upward])) !! (out // ".." // "U.json") = None.
Proof. repeat split; vm_compute; reflexivity. Qed.

(** X11 on a [MisterSkinnylegs] made for the catalog [A; B] with no log
    callback. *)
Lemma without_log_callback_no_file_changes_witness :
  fs (fst (run_all_ (loaded [A; B] LogFallback) w_used)) = fs w_used
  ∧ stdout (fst (run_artifact_ (loaded [A; B] LogFallback) A w0))
    = ["Log:" +:+ TAB +:+ "working"].
Proof.
  destruct (without_log_callback_no_file_changes Storage now_str console_text
              (fun _ => [(plugin_file, [A; B])]) profile_contents set_iteration
              (script_dir // "plugins") profile w0 w0 (loaded [A; B] LogFallback))
    as (_ & _ & Hall & Hone).
  - vm_compute. reflexivity.
  - split.
    + apply Hall. reflexivity.
    + destruct (Hone A w0) as [_ Hout]. exact Hout.
Defined.

(** X13 on a title with two separators and on a title with none. *)
Lemma name_is_title_before_last_separator_witness :
  (∃ doc_name,
     getitem (history_entry
                (visit 3 "https://drive.google.com/file/d/xyz"
                       "shot - 1.png - Google Drive" 10)
                "File" "shot - 1.png") "name" = Ok (VStr doc_name)
     ∧ (doc_name = "shot - 1.png - Google Drive"
        ∧ (∀ a b, "shot - 1.png - Google Drive" ≠ a +:+ " - " +:+ b)
        ∨ ∃ rest,
            "shot - 1.png - Google Drive" = doc_name +:+ " - " +:+ rest
            ∧ ∀ a b, "shot - 1.png - Google Drive" = a +:+ " - " +:+ b →
                     (String.length a ≤ String.length doc_name)%nat)).
Proof.
  apply (name_is_title_before_last_separator FOLDERS_URL_PATTERN_match
           FILES_URL_PATTERN_match DOCS_URL_PATTERN_match str_title
           (visit 3 "https://drive.google.com/file/d/xyz"
                  "shot - 1.png - Google Drive" 10)).
  vm_compute. reflexivity.
Defined.

(** X15 on a message of two lines, logged to the old log. *)
Lemma log_entry_keeps_message_witness :
  fs (fst (log_message_ old_log ("a" +:+ NL +:+ "b") w_used)) !! (out // "log_old.log")
  = Some (File ("2024-05-01 10:00:0" +:+ TAB +:+ "a" +:+ NL +:+ TAB +:+ "b" +:+ NL))
  ∧ continuation_lines_indented (indent_newlines ("a" +:+ NL +:+ "b")) = true.
Proof.
  destruct (log_entry_keeps_message Storage now_str console_text old_log
              ("a" +:+ NL +:+ "b") w_used "")
    as (Hfile & Hindented & _).
  - vm_compute. reflexivity.
  - split; [exact Hfile|exact Hindented].
Defined.

(** The records of the Google Drive functions on the profile above: a
    visit of a page outside Google Drive gives none, and the usage entry
    with the other key is not read. *)
Example google_drive_records_on_profile :
  omap history_row_ (history drive_profile)
  = [history_entry (visit 1 "https://drive.google.com/drive/folders/abc"
                          "My Drive - Google Drive" 30) "Folder" "My Drive";
     history_entry (visit 3 "https://drive.google.com/file/d/xyz"
                          "shot - 1.png - Google Drive" 10) "File" "shot - 1.png";
     history_entry (visit 4 "https://docs.google.com/spreadsheets/d/q"
                          "Budget - Google Sheets" 20) "Spreadsheets" "Budget"]
  ∧ map (usage_row int_of_str)
        (iter_session_storage drive_profile "https://drive.google.com/"
                              "ui:tabFirstStartTimeMsec")
    = [Ok [("source", VStr "Session Storage"); ("id", VInt 8);
           ("type", VStr "Tab first start");
           ("timestamp", VDatetime 1700000000500000)];
       Ok [("source", VStr "Session Storage"); ("id", VInt 12);
           ("type", VStr "Tab first start");
           ("timestamp", VDatetime 1700000000000000)]].
Proof. split; vm_compute; reflexivity. Qed.

(** ** The ChatGPT plugin at work *)

(** Stand-ins: floats that are whole numbers, a [json.loads] that knows
    four documents, a [fromtimestamp] in UTC. *)
Definition Float : Type := Z.
Definition float_bool (f : Float) : bool := negb (f =? 0)%Z.
Definition str_repr (x : JSON Float) : string :=
  match x with
  | JFloat f => pretty f +:+ ".0"
  | JList _ => "[...]"
  | _ => "{...}"
  end.

Definition json_loads (s : string) : Exc (JSON Float) :=
  if String.eqb s "conversations" then
    Ok (JDict [("items",
                JList [JDict [("id", JStr "c1"); ("title", JStr "");
                              ("create_time", JStr "2024-05-01T10:00:00")];
                       JDict [("id", JInt 7); ("title", JStr "Plans")]])])
  else if String.eqb s "keyed" then
    Ok (JDict [("items", JDict [("c1", JStr "Plans")])])
  else if String.eqb s "me" then
    Ok (JDict [("name", JStr "Ada"); ("email", JStr "ada@example.org");
               ("created", JInt 1700000000)])
  else if String.eqb s "me without created" then
    Ok (JDict [("name", JStr "Bob")])
  else Raise ValueError.

Definition fromtimestamp (x : Z + Float) : Exc Z :=
  match x with inl z => Ok (z * 1000000)%Z | inr f => Ok (f * 1000000)%Z end.
Definition datetime_str (t : Z) : string := pretty t.

Definition chatinfo_url_pattern (s : string) : bool :=
  String.prefix "https://chatgpt.com/backend-api/conversations?offset" s.
Definition userinfo_url_pattern (s : string) : bool :=
  String.prefix "https://chatgpt.com/backend-api/me" s.
Definition SEARCH_URL_PATTERN (s : string) : bool :=
  String.prefix "https://chatgpt.com/c/" s && (String.length s =? 58)%nat.

Local Abbreviation get_chatgpt_chatinfo_ :=
  (get_chatgpt_chatinfo Storage Float float_bool json_loads str_repr
     chatinfo_url_pattern SEARCH_URL_PATTERN).
Local Abbreviation get_chatgpt_userinfo_ :=
  (get_chatgpt_userinfo Storage Float json_loads str_repr fromtimestamp
     datetime_str userinfo_url_pattern).

Definition cached (url data : string) : CacheRecord :=
  {| key_url := url; data := data;
     metadata := {| header_attributes := ∅; request_time := 0; response_time := 1 |};
     data_location := "data_1 [" +:+ data +:+ "]" |}.

Definition chat_visit : HistoryRecord :=
  visit 9 "https://chatgpt.com/c/0123abcd-0123-4567-89ab-0123456789ab" "Plans" 40.

Definition chat_profile (conversations : string) (accounts : list string) : ProfileData :=
  {| history := [visit 8 "https://chatgpt.com/" "ChatGPT" 35; chat_visit];
     cache :=
       cached "https://chatgpt.com/backend-api/conversations?offset=0" conversations
       :: map (cached "https://chatgpt.com/backend-api/me") accounts;
     session_storage := [] |}.

(** Two cached chats, the first without a title, and one visit: three
    records, the cached chats first.  A conversation list whose items are
    given as an object is refused. *)
Example get_chatgpt_chatinfo_on_profile :
  (∃ r,
     get_chatgpt_chatinfo_ (chat_profile "conversations" []) fresh = (fresh, Ok r)
     ∧ map (fun row => row_get row "ID") (chat_result r)
       = [Some (OfStr "c1"); Some (OfStr "7");
          Some (OfStr "0123abcd-0123-4567-89ab-0123456789ab")]
     ∧ map (fun row => row_get row "Title") (chat_result r)
       = [Some (OfStr "None"); Some (OfStr "Plans"); Some (OfStr "Plans")]
     ∧ map (fun row => row_get row "Source") (chat_result r)
       = [Some (OfStr "Cache"); Some (OfStr "Cache"); Some (OfStr "History")])
  ∧ get_chatgpt_chatinfo_ (chat_profile "keyed" []) fresh
    = (fresh, Raise AttributeError)
  ∧ get_chatgpt_chatinfo_ (chat_profile "<html>" []) fresh
    = (fresh, Raise ValueError).
Proof.
  split; [|split; vm_compute; reflexivity].
  eexists. split; [vm_compute; reflexivity|]. repeat split.
Qed.

(** X19 on two cached account descriptions, the second without [created]. *)
Lemma get_chatgpt_userinfo_one_record_per_account_witness :
  get_chatgpt_userinfo_ (chat_profile "conversations" ["me"; "me without created"]) fresh
  = (fresh, Raise TypeError)
  ∧ ∃ r,
      snd (get_chatgpt_userinfo_ (chat_profile "conversations" ["me"]) fresh) = Ok r
      ∧ map (fun row => row_get row "Created") (chat_result r)
        = [Some (OfStr "1700000000000000")].
Proof.
  split.
  - apply (proj2 (proj2 (get_chatgpt_userinfo_one_record_per_account Storage Float
                    json_loads str_repr fromtimestamp datetime_str
                    userinfo_url_pattern
                    (chat_profile "conversations" ["me"; "me without created"])
                    fresh))
             [cached "https://chatgpt.com/backend-api/me" "me"]
             (cached "https://chatgpt.com/backend-api/me" "me without created")
             [] [("name", JStr "Bob")]).
    + vm_compute. reflexivity.
    + repeat constructor.
    + vm_compute. reflexivity.
    + reflexivity.
  - destruct (get_chatgpt_userinfo_one_record_per_account Storage Float
                json_loads str_repr fromtimestamp datetime_str
                userinfo_url_pattern (chat_profile "conversations" ["me"]) fresh)
      as (_ & (r & Hr & Hrows & _) & _).
    exists r. split; [exact Hr|]. rewrite Hrows. vm_compute. reflexivity.
Defined.

(** X20 on the spec's scenario: A has three records, B has none. *)
Lemma main_writes_the_reports_witness :
  ∃ w',
    main_with [A; B] [profile; out] w0 = (w', Ok tt)
    ∧ fs w' !! out = Some Dir
    ∧ is_file (fs w' !! (out // "log_20240501_10000.log")) = true
    ∧ fs w' !! (out // "X" // "A.json") = Some (File (fst (json_dump envelope_A)))
    ∧ fs w' !! (out // "Y" // "B.json") = None
    ∧ fs w0 ⊆ fs w'.
Proof.
  destruct (main_writes_the_reports Storage now_str now_stamp console_text
              (fun _ => [(plugin_file, [A; B])]) profile_contents set_iteration
              sanitize_filename json_dump script_dir profile out w0
              (<[out := Dir]> (<[Root // "cases" := Dir]> (fs w0)))
              {| _plugins := [(A, plugin_file); (B, plugin_file)] |}
              [(A, envelope_A); (B, envelope_B)])
    as (w' & Hrun & Hout & Hlog & Hfiles & Hkept).
  - intros coros. reflexivity.
  - apply (bool_decide_unpack _). vm_compute. exact I.
  - vm_compute. reflexivity.
  - vm_compute. reflexivity.
  - vm_compute. reflexivity.
  - vm_compute. reflexivity.
  - vm_compute. reflexivity.
  - repeat first [apply Forall_nil_2 | apply Forall_cons_2];
      (split; [split; reflexivity|];
       split; [vm_compute; reflexivity|vm_compute; discriminate]).
  - apply (bool_decide_unpack _). vm_compute. exact I.
  - exists w'. split; [exact Hrun|]. split; [exact Hout|]. split; [exact Hlog|].
    apply Forall_cons in Hfiles as [HA Hfiles].
    apply Forall_cons in Hfiles as [HB _].
    split; [exact HA|]. split; [exact HB|exact Hkept].
Defined.

End Scenario.
